(** * Graph.Label: label renderers of the JavaScript InfoVis Toolkit

    A shallow embedding of [Source/Graph/Graph.Label.js] and the properties
    of its retained-mode label cache.

    - [JS]    : the part of JavaScript's number type the file relies on.
    - [Doc]   : the host document (a tree of elements with identity).
    - [Graph] : [Graph.Label.DOM], [Graph.Label.HTML], [Graph.Label.SVG],
                as functions in a state-and-exception monad.
    - The theorems follow the definitions. *)

From stdpp Require Import gmap strings list fin_maps pretty.
From Stdlib Require Import QArith Qround.

Open Scope Z_scope.

(* ===================================================================== *)
(** ** JavaScript numbers *)
(* ===================================================================== *)

Module JS.

(** A JavaScript number: every finite double is a (dyadic) rational, so
    the finite values are embedded in [Q]; [NaN] and the two infinities
    are kept apart because the comparisons treat them specially. *)
Inductive num : Type :=
| NaN
| NegInf
| Fin (q : Q)
| PosInf.

Definition of_Z (z : Z) : num := Fin (inject_Z z).

(** [a < b]: false as soon as one side is [NaN]. *)
Definition lt (a b : num) : bool :=
  match a, b with
  | NaN, _ | _, NaN => false
  | _, NegInf => false
  | NegInf, _ => true
  | PosInf, _ => false
  | Fin _, PosInf => true
  | Fin x, Fin y => negb (Qle_bool y x)
  end.

(** [a >= b]: false as soon as one side is [NaN]. *)
Definition ge (a b : num) : bool :=
  match a, b with
  | NaN, _ | _, NaN => false
  | _, NegInf => true
  | NegInf, _ => false
  | PosInf, _ => true
  | Fin _, PosInf => false
  | Fin x, Fin y => Qle_bool y x
  end.

(** [a == b] on numbers. *)
Definition eqb (a b : num) : bool :=
  match a, b with
  | NegInf, NegInf | PosInf, PosInf => true
  | Fin x, Fin y => Qeq_bool x y
  | _, _ => false
  end.

(** [a != b] on numbers. *)
Definition neqb (a b : num) : bool := negb (eqb a b).

(** Rounding towards zero. *)
Definition trunc (q : Q) : Z :=
  if Qle_bool 0 q then Qfloor q else Qceiling q.

(** The abstract operation ToInt32 of the language. *)
Definition ToInt32 (a : num) : Z :=
  match a with
  | Fin q =>
      let m := trunc q mod 2 ^ 32 in
      if 2 ^ 31 <=? m then m - 2 ^ 32 else m
  | _ => 0
  end.

(** The mathematical order on numbers, in which [NaN] is related to
    nothing: what [a <= b] and [a < b] mean in a specification. *)
Definition Le (a b : num) : Prop :=
  match a, b with
  | NaN, _ | _, NaN => False
  | NegInf, _ => True
  | _, PosInf => True
  | Fin x, Fin y => (x <= y)%Q
  | _, _ => False
  end.

Definition Lt (a b : num) : Prop :=
  match a, b with
  | NaN, _ | _, NaN => False
  | _, NegInf => False
  | NegInf, _ => True
  | PosInf, _ => False
  | Fin _, PosInf => True
  | Fin x, Fin y => (x < y)%Q
  end.

(** [a >> 0] *)
Definition shr0 (a : num) : num := of_Z (ToInt32 a).

(** Rounded double arithmetic and the number-to-string conversion are
    taken from the host: the file only passes their results on. *)
Record Host : Type := {
  add : num -> num -> num;        (* a + b *)
  div : num -> num -> num;        (* a / b *)
  to_string : num -> string       (* String(a), and a + 'px' *)
}.

End JS.

(* ===================================================================== *)
(** ** The host document *)
(* ===================================================================== *)

Module Doc.

(** Element identity: what JavaScript compares with [===]. *)
Definition ref := nat.

(** The event listeners the file registers: the closure [wte] of
    [prepareForAnimation], which captures the label it was made for. *)
Inductive Listener : Type :=
| wte (label : ref).

Record Attrs : Type := mkAttrs {
  tagName : string;
  attributes : gmap string string;
  style : gmap string string;
  listeners : list (string * Listener)
}.

#[local] Unset Elimination Schemes.
Inductive Element : Type :=
| El (r : ref) (a : Attrs) (childNodes : list Element).
#[local] Set Elimination Schemes.

Definition ref_of (e : Element) : ref := match e with El r _ _ => r end.
Definition attrs (e : Element) : Attrs := match e with El _ a _ => a end.
Definition kids (e : Element) : list Element := match e with El _ _ l => l end.

(** The document tree, and the elements that exist but are not (or no
    longer) attached to another one. *)
Record Dom : Type := mkDom {
  document : Element;
  detached : list Element
}.

Definition trees (d : Dom) : list Element := document d :: detached d.

(** First success of [f] along a list. *)
Definition first_some {A B} (f : A -> option B) (l : list A) : option B :=
  fold_right (fun x acc => match f x with Some y => Some y | None => acc end) None l.

(** The ID of an element is the value of its [id] attribute, when not empty. *)
Definition has_id (i : string) (a : Attrs) : bool :=
  bool_decide (attributes a !! "id"%string = Some i) && negb (bool_decide (i = ""%string)).

(** First element in tree order whose ID is [i]. *)
Fixpoint find_id (i : string) (e : Element) : option ref :=
  match e with
  | El r a l => if has_id i a then Some r else first_some (find_id i) l
  end.

(** [document.getElementById(i)]: the descendants of the document node. *)
Definition getElementById (i : string) (d : Dom) : option ref :=
  first_some (find_id i) (kids (document d)).

(** First node, in tree order, whose identity is [r]. *)
Fixpoint lookup_in (r : ref) (e : Element) : option Element :=
  match e with
  | El x a l => if bool_decide (x = r) then Some e else first_some (lookup_in r) l
  end.

Definition lookup (r : ref) (d : Dom) : option Element :=
  first_some (lookup_in r) (trees d).

Definition is_ref (c : ref) (e : Element) : bool := bool_decide (ref_of e = c).

(** First node that has [c] among its children. *)
Fixpoint parent_in (c : ref) (e : Element) : option ref :=
  match e with
  | El x a l =>
      if existsb (is_ref c) l then Some x else first_some (parent_in c) l
  end.

(** [c.parentNode] ([None] is [null]). *)
Definition parentNode (c : ref) (d : Dom) : option ref :=
  first_some (parent_in c) (trees d).

Fixpoint occurs (r : ref) (e : Element) : bool :=
  match e with
  | El x a l => bool_decide (x = r) || existsb (occurs r) l
  end.

Fixpoint max_ref (e : Element) : nat :=
  match e with
  | El x a l => Nat.max x (fold_right (fun k m => Nat.max (max_ref k) m) O l)
  end.

(** An identity no element of [d] has. *)
Definition fresh (d : Dom) : ref :=
  S (fold_right (fun k m => Nat.max (max_ref k) m) O (trees d)).

(** Apply [f] to the node(s) of identity [r]. *)
Fixpoint update_in (r : ref) (f : Attrs -> Attrs) (e : Element) : Element :=
  match e with
  | El x a l => El x (if bool_decide (x = r) then f a else a) (map (update_in r f) l)
  end.

Definition update (r : ref) (f : Attrs -> Attrs) (d : Dom) : Dom :=
  {| document := update_in r f (document d);
     detached := map (update_in r f) (detached d) |}.

Definition is_not (c : ref) (e : Element) : bool := negb (is_ref c e).

(** Take [c] out of every list of children below [e]. *)
Fixpoint prune (c : ref) (e : Element) : Element :=
  match e with
  | El x a l =>
      El x a (flat_map (fun k => if is_not c k then [prune c k] else []) l)
  end.

(** Add [sub] as the last child of the node(s) of identity [p]. *)
Fixpoint graft (p : ref) (sub : Element) (e : Element) : Element :=
  match e with
  | El x a l =>
      El x a (map (graft p sub) l ++ (if bool_decide (x = p) then [sub] else []))
  end.

Definition empty_attrs (tag : string) : Attrs :=
  {| tagName := tag; attributes := ∅; style := ∅; listeners := [] |}.

(** [document.createElement(tag)] and [document.createElementNS(ns, tag)]:
    a new element, attached to nothing. *)
Definition createElement (tag : string) (d : Dom) : ref * Dom :=
  let r := fresh d in
  (r, {| document := document d;
         detached := detached d ++ [El r (empty_attrs tag) []] |}).

(** [p.removeChild(c)]: [c], with its subtree, leaves its parent and stays
    in existence; [None] is the NotFoundError raised when [c] is not a
    child of [p]. *)
Definition removeChild (p c : ref) (d : Dom) : option Dom :=
  if bool_decide (parentNode c d = Some p) then
    match lookup c d with
    | Some sub =>
        Some {| document := prune c (document d);
                detached := map (prune c) (detached d) ++ [prune c sub] |}
    | None => None
    end
  else None.

(** [p.appendChild(c)]: [c] leaves the place it was at and becomes the
    last child of [p]; [None] is the HierarchyRequestError raised when
    [p] lies inside [c] or [c] is the document node (and stands for a
    reference that denotes no node). *)
Definition appendChild (p c : ref) (d : Dom) : option Dom :=
  match lookup c d with
  | Some sub =>
      if occurs p sub || is_ref c (document d) then None
      else
        let doc1 := prune c (document d) in
        let det1 := map (prune c) (filter (fun k => is_not c k = true) (detached d)) in
        if existsb (occurs p) (doc1 :: det1) then
          Some {| document := graft p (prune c sub) doc1;
                  detached := map (graft p (prune c sub)) det1 |}
        else None
  | None => None
  end.

Definition set_attr (k v : string) (a : Attrs) : Attrs :=
  {| tagName := tagName a; attributes := <[k := v]> (attributes a);
     style := style a; listeners := listeners a |}.

Definition set_style_attr (k v : string) (a : Attrs) : Attrs :=
  {| tagName := tagName a; attributes := attributes a;
     style := <[k := v]> (style a); listeners := listeners a |}.

Definition add_listener_attr (ev : string) (h : Listener) (a : Attrs) : Attrs :=
  {| tagName := tagName a; attributes := attributes a;
     style := style a; listeners := listeners a ++ [(ev, h)] |}.

(** [e.setAttribute(k, v)]; [e.id = v] and [e.className = v] are the
    attributes [id] and [class]. *)
Definition setAttribute (e : ref) (k v : string) : Dom -> Dom := update e (set_attr k v).

(** [e.style[k] = v] *)
Definition setStyle (e : ref) (k v : string) : Dom -> Dom := update e (set_style_attr k v).

(** [e.addEventListener(ev, h, false)] *)
Definition addEventListener (e : ref) (ev : string) (h : Listener) : Dom -> Dom :=
  update e (add_listener_attr ev h).

Definition attrs_of (e : ref) (d : Dom) : option Attrs := attrs <$> lookup e d.

(** [e.style[k]] and [e.getAttribute(k)], when [e] is a node of [d]. *)
Definition getStyle (e : ref) (k : string) (d : Dom) : option string :=
  attrs_of e d ≫= fun a => style a !! k.

Definition getAttribute (e : ref) (k : string) (d : Dom) : option string :=
  attrs_of e d ≫= fun a => attributes a !! k.

(** [e] is a node [c] of the tree, or lies below one. *)
Fixpoint within_in (c e : ref) (t : Element) : bool :=
  match t with
  | El x a l =>
      (bool_decide (x = c) && (bool_decide (x = e) || existsb (occurs e) l))
      || existsb (within_in c e) l
  end.

Definition within (c e : ref) (d : Dom) : bool := existsb (within_in c e) (trees d).

(** Some node of the tree has the identity [c] and the ID [i]. *)
Fixpoint named_in (i : string) (c : ref) (t : Element) : bool :=
  match t with
  | El x a l => (bool_decide (x = c) && has_id i a) || existsb (named_in i c) l
  end.

(** [c] is one of the elements of ID [i] in the document. *)
Definition named (i : string) (c : ref) (d : Dom) : bool :=
  existsb (named_in i c) (kids (document d)).

End Doc.

(* ===================================================================== *)
(** ** Graph.Label *)
(* ===================================================================== *)

Module Graph.
Module Label.

Import Doc.

(** *** Collaborators *)

Record Point : Type := { x : JS.num; y : JS.num }.
Record Size : Type := { width : JS.num; height : JS.num }.

(** A [Canvas], as far as labels go: the answer of [canvas.getSize()]. *)
Record Canvas : Type := { getSize : Size }.

(** A [Graph.Node], as far as labels go: its id and the answers of
    [getPos(..).getc(true)] and [getData(..)]. *)
Record Node : Type := {
  id : string;
  getPos_end : Point;             (* node.getPos('end').getc(true) *)
  getPos_start : Point;           (* node.getPos('start').getc(true) *)
  getData_width_start : JS.num;   (* node.getData('width', 'start') *)
  getData_height_start : JS.num;
  getData_width_end : JS.num;
  getData_height_end : JS.num;
  getData_alpha : JS.num;         (* node.getData('alpha'): the current one *)
  getData_alpha_end : JS.num;     (* node.getData('alpha', 'end') *)
  getData_alpha_start : JS.num    (* node.getData('alpha', 'start'): never asked for *)
}.

(** What [this.labels[id]] can be besides [null]: an element, or the value
    that the cache object inherits under that name from its prototype
    ([labels: {}] has [Object.prototype]: a function under [toString] or
    [constructor], the prototype itself under [__proto__]). Such a value
    is neither [null] nor an element: it has no [parentNode], no [style]
    and no [addEventListener]. *)
Inductive Value : Type :=
| Elem (e : ref)
| Inherited (name : string).

(** A user hook receives the element and the node and may change the
    document in any way; it is handed no reference to the label object,
    and it is taken to return. [onCreateLabel] is only ever handed a new
    element; the hooks that are handed what [getOrCreateLabel] answered
    are [LabelHook]s. *)
Definition Hook : Type := ref -> Node -> Dom -> Dom.
Definition LabelHook : Type := Value -> Node -> Dom -> Dom.

(** [viz.config] and [viz.controller] *)
Record Config : Type := {
  labelContainer_id : string;     (* config.labelContainer *)
  Label_useCSS3 : bool;           (* config.Label.useCSS3 *)
  onCreateLabel : Hook
}.

Record Viz : Type := {
  config : Config;
  controller : Config;
  graph_hasNode : string -> bool; (* viz.graph.hasNode(id) *)
  canvas : Canvas
}.

(** The [opt] argument of [prepareForAnimation]. *)
Record Options : Type := {
  duration : JS.num;
  onBeforeAnimateLabel : LabelHook
}.

(** *** State *)

(** One invocation of a user hook, with the document it was handed; for
    the creation hook also the own properties of the cache object at that
    moment. *)
Inductive Call : Type :=
| CreateLabel (tag : ref) (node : Node) (handed : Dom)
    (cache : gmap string (option ref))
| BeforeAnimateLabel (label : Value) (node : Node) (handed : Dom).

Inductive Exn : Type :=
| TypeError
| HierarchyRequestError
| NotFoundError.

(** The label object ([this]) together with the document it works on.
    The cache object [this.labels] is the pair of [labels], its own
    properties (an id is mapped to an element or to [null]), and
    [inherits], which tells the names under which it inherits a value
    other than [null] from its prototype: [id in this.labels] holds of the
    former and of the latter. The file assigns and deletes own properties
    only. [calls] is a ghost field: the hook invocations so far, oldest
    first. *)
Record State : Type := mkState {
  dom : Dom;
  labels : gmap string (option ref);
  inherits : string -> bool;
  labelContainer : option ref;    (* [false] and [null] are [None] *)
  labelsHidden : bool;
  calls : list Call
}.

Definition with_dom (f : Dom -> Dom) (s : State) : State :=
  {| dom := f (dom s); labels := labels s; inherits := inherits s;
     labelContainer := labelContainer s;
     labelsHidden := labelsHidden s; calls := calls s |}.

Definition with_labels (f : gmap string (option ref) -> gmap string (option ref))
    (s : State) : State :=
  {| dom := dom s; labels := f (labels s); inherits := inherits s;
     labelContainer := labelContainer s;
     labelsHidden := labelsHidden s; calls := calls s |}.

Definition with_labelContainer (c : option ref) (s : State) : State :=
  {| dom := dom s; labels := labels s; inherits := inherits s;
     labelContainer := c;
     labelsHidden := labelsHidden s; calls := calls s |}.

Definition with_labelsHidden (h : bool) (s : State) : State :=
  {| dom := dom s; labels := labels s; inherits := inherits s;
     labelContainer := labelContainer s;
     labelsHidden := h; calls := calls s |}.

Definition with_call (c : Call) (s : State) : State :=
  {| dom := dom s; labels := labels s; inherits := inherits s;
     labelContainer := labelContainer s;
     labelsHidden := labelsHidden s; calls := calls s ++ [c] |}.

(** *** The monad of methods: state, and exceptions that keep the state *)

Inductive Outcome (A : Type) : Type :=
| Return (a : A) (s : State)
| Throw (e : Exn) (s : State).
Arguments Return {A} a s.
Arguments Throw {A} e s.

Definition M (A : Type) : Type := State -> Outcome A.

Definition ret {A} (a : A) : M A := fun s => Return a s.

Definition bind {A B} (m : M A) (k : A -> M B) : M B :=
  fun s => match m s with
           | Return a s' => k a s'
           | Throw e s' => Throw e s'
           end.

Definition throw {A} (e : Exn) : M A := fun s => Throw e s.
Definition gets {A} (f : State -> A) : M A := fun s => Return (f s) s.
Definition modify (f : State -> State) : M unit := fun s => Return tt (f s).

Declare Scope js_scope.
Delimit Scope js_scope with js.
Notation "'var' x ':=' m ';' k" := (bind m (fun x => k))
  (at level 10, x name, m at level 100, k at level 200) : js_scope.
Notation "m ';;' k" := (bind m (fun _ => k))
  (at level 100, k at level 200, right associativity) : js_scope.
Open Scope js_scope.

(** [$.each(l, f)] and [for] loops over a list *)
Fixpoint each {A} (l : list A) (f : A -> M unit) : M unit :=
  match l with
  | [] => ret tt
  | a :: l' => f a ;; each l' f
  end.

(** The state and the result of a method that returned. *)
Definition final {A} (o : Outcome A) : State :=
  match o with Return _ s => s | Throw _ s => s end.

Definition returned {A} (o : Outcome A) : option A :=
  match o with Return a _ => Some a | Throw _ _ => None end.

(** *** Document operations, as methods *)

Definition document_getElementById (i : string) : M (option ref) :=
  gets (fun s => getElementById i (dom s)).

Definition document_createElement (tag : string) : M ref :=
  fun s => let '(r, d) := createElement tag (dom s) in Return r (with_dom (fun _ => d) s).

(** [p.appendChild(c)], where [p] may be [null] *)
Definition appendChild (p : option ref) (c : ref) : M unit :=
  fun s => match p with
           | None => Throw TypeError s
           | Some p =>
               match Doc.appendChild p c (dom s) with
               | Some d => Return tt (with_dom (fun _ => d) s)
               | None => Throw HierarchyRequestError s
               end
           end.

Definition removeChild (p c : ref) : M unit :=
  fun s => match Doc.removeChild p c (dom s) with
           | Some d => Return tt (with_dom (fun _ => d) s)
           | None => Throw NotFoundError s
           end.

Definition setAttribute (e : ref) (k v : string) : M unit :=
  modify (with_dom (Doc.setAttribute e k v)).

Definition setStyle (e : ref) (k v : string) : M unit :=
  modify (with_dom (Doc.setStyle e k v)).

Definition addEventListener (e : ref) (ev : string) (h : Listener) : M unit :=
  modify (with_dom (Doc.addEventListener e ev h)).

(** [label.style[k] = v] and [label.addEventListener(ev, wte, false)] on
    what [getOrCreateLabel] answered: a value that is no element has no
    [style], and assigning to a property of [undefined] raises; nor has it
    an [addEventListener] to call. *)
Definition label_setStyle (label : Value) (k v : string) : M unit :=
  match label with
  | Elem e => setStyle e k v
  | Inherited _ => throw TypeError
  end.

Definition label_addEventListener (label : Value) (ev : string) : M unit :=
  match label with
  | Elem e => addEventListener e ev (wte e)
  | Inherited _ => throw TypeError
  end.

(** Calling a user hook: the call is recorded, then the hook runs. *)
Definition call_onCreateLabel (h : Hook) (tag : ref) (node : Node) : M unit :=
  fun s => Return tt (with_dom (h tag node) (with_call (CreateLabel tag node (dom s) (labels s)) s)).

Definition call_onBeforeAnimateLabel (h : LabelHook) (label : Value) (node : Node)
    : M unit :=
  fun s => Return tt (with_dom (h label node) (with_call (BeforeAnimateLabel label node (dom s)) s)).

(* ------------------------------------------------------------------- *)
(** *** Class Graph.Label.DOM *)
(* ------------------------------------------------------------------- *)

Module DOM.
Section Methods.

Variable viz : Viz.

(** The order in which [for (id in labels)] visits the keys: the own
    ones, what is inherited from [Object.prototype] not being enumerable. *)
Variable for_in : gmap string (option ref) -> list string.

(** The method [this.getOrCreateLabel] of the implementing class, and
    its [this.placeLabel] (which lives in the visualizations). *)
Variable getOrCreateLabel : Node -> M Value.
Variable placeLabel : Value -> Node -> Config -> Dom -> Dom.

Definition getLabelContainer : M (option ref) :=
  var c := gets labelContainer;
  match c with
  | Some _ => ret c
  | None =>
      var c' := document_getElementById (labelContainer_id (config viz));
      modify (with_labelContainer c') ;;
      ret c'
  end.

(** [this.labels[id]], when [id in this.labels && this.labels[id] != null]:
    an own property shadows an inherited one. *)
Definition labels_get (id : string) (s : State) : option Value :=
  match labels s !! id with
  | Some (Some e) => Some (Elem e)
  | Some None => None
  | None => if inherits s id then Some (Inherited id) else None
  end.

Definition getLabel (id : string) : M (option Value) :=
  var cached := gets (labels_get id);
  match cached with
  | Some v => ret (Some v)
  | None =>
      var e := document_getElementById id;
      modify (with_labels <[id := e]>) ;;
      ret (Elem <$> e)
  end.

Definition plotLabel (canvas : Canvas) (node : Node) (controller : Config) : M unit :=
  var tag := getOrCreateLabel node;
  modify (with_dom (placeLabel tag node controller)).

Definition hideLabels (hide : bool) : M unit :=
  var container := getLabelContainer;
  match container with
  | None => throw TypeError
  | Some c =>
      (if hide then setStyle c "display" "none" else setStyle c "display" "") ;;
      modify (with_labelsHidden hide)
  end.

Definition disposeLabel (id : string) : M unit :=
  var elem := getLabel id;
  match elem with
  | Some (Elem e) =>
      var parent := gets (fun s => parentNode e (dom s));
      match parent with
      | Some p => removeChild p e
      | None => ret tt
      end
  | Some (Inherited _) => ret tt  (* [elem.parentNode] is [undefined] *)
  | None => ret tt
  end.

Definition clearLabels (force : bool) : M unit :=
  var ls := gets labels;
  each (for_in ls) (fun id =>
    if force || negb (graph_hasNode viz id) then
      disposeLabel id ;;
      modify (with_labels (delete id))
    else ret tt).

(** [node] is one node or an array of nodes: [$.splat] makes it an array. *)
Definition hideLabel (node : list Node) (show : bool) : M unit :=
  let st := if show then "" else "none" in
  each node (fun n =>
    var lab := getLabel (id n);
    match lab with
    | Some l => label_setStyle l "display" st
    | None => ret tt
    end).

Definition fitsInCanvas (pos : Point) (canvas : Canvas) : bool :=
  let size := getSize canvas in
  if JS.ge (x pos) (width size) || JS.lt (x pos) (JS.of_Z 0)
     || JS.ge (y pos) (height size) || JS.lt (y pos) (JS.of_Z 0)
  then false
  else true.

End Methods.
End DOM.

(* ------------------------------------------------------------------- *)
(** *** Class Graph.Label.HTML *)
(* ------------------------------------------------------------------- *)

Module HTML.
Section Methods.

Variable viz : Viz.
Variable host : JS.Host.

Definition css3Props : list string :=
  ["width"; "height"; "top"; "left"; "color"; "opacity"].

Definition prefixes : list string := ["webkit"; "moz"; "o"; ""].

Definition prefixesStyles : list string := ["-webkit-"; "-moz-"; "-o-"; ""].

Definition getOrCreateLabel (node : Node) : M Value :=
  let id := id node in
  var tag := DOM.getLabel id;
  match tag with
  | Some t => ret t
  | None =>
      var tag := document_getElementById id;
      match tag with
      | Some t => ret (Elem t)
      | None =>
          var tag := document_createElement "div";
          var container := DOM.getLabelContainer viz;
          setAttribute tag "id" id ;;
          setAttribute tag "class" "node" ;;
          setStyle tag "position" "absolute" ;;
          call_onCreateLabel (onCreateLabel (config viz)) tag node ;;
          appendChild container tag ;;
          modify (with_labels <[id := Some tag]>) ;;
          ret (Elem tag)
      end
  end.

(** The [if .. else if ..] statement of [prepareForAnimation]: what is
    done to the style of [label] before the hook is called. *)
Definition prepareForAnimation_style (node : Node) (opt : Options) (label : Value)
    : M unit :=
  let size := getSize (canvas viz) in
  let pos := getPos_end node in
  let posStart := getPos_start node in
  let startWidth := getData_width_start node in
  let startHeight := getData_height_start node in
  let endWidth := getData_width_end node in
  let endHeight := getData_height_end node in
  let alpha := getData_alpha node in
  let alphaEnd := getData_alpha_end node in
  let px n := (JS.to_string host n ++ "px")%string in
  if JS.neqb alpha alphaEnd then
    label_setStyle label "visibility" "visible" ;;
    label_setStyle label "opacity" (JS.to_string host alpha) ;;
    each prefixesStyles (fun p =>
      label_setStyle label (p ++ "transition-property") "opacity" ;;
      label_setStyle label (p ++ "transition-duration")
               (JS.to_string host (duration opt) ++ "ms") ;;
      label_setStyle label (p ++ "transition-delay") "200ms" ;;
      label_setStyle label (p ++ "transition-timing-function") "ease-in-out") ;;
    label_setStyle label "opacity" (JS.to_string host alphaEnd) ;;
    if JS.eqb alphaEnd (JS.of_Z 0) && JS.eqb alpha (JS.of_Z 1) then
      each prefixes (fun p =>
        label_addEventListener label (p ++ "TransitionEnd"))
    else ret tt
  else if JS.neqb (x pos) (x posStart) || JS.neqb (y pos) (y posStart)
          || JS.neqb startWidth endWidth || JS.neqb startHeight endHeight then
    each prefixesStyles (fun p =>
      label_setStyle label (p ++ "transition-property") (String.concat "," css3Props) ;;
      label_setStyle label (p ++ "transition-duration")
               (JS.to_string host (duration opt) ++ "ms") ;;
      label_setStyle label (p ++ "transition-delay") "200ms" ;;
      label_setStyle label (p ++ "transition-timing-function") "ease-in-out") ;;
    label_setStyle label "top"
      (px (JS.shr0 (JS.add host (y pos) (JS.div host (height size) (JS.of_Z 2))))) ;;
    label_setStyle label "left"
      (px (JS.shr0 (JS.add host (x pos) (JS.div host (width size) (JS.of_Z 2))))) ;;
    label_setStyle label "width" (px (JS.shr0 endWidth)) ;;
    label_setStyle label "height" (px (JS.shr0 endHeight))
  else ret tt.

(** [modes] is read into [nodeProps], which is not used. *)
Definition prepareForAnimation (node : Node) (modes : list string) (opt : Options)
    : M unit :=
  if negb (Label_useCSS3 (config viz)) then ret tt
  else
    var label := getOrCreateLabel node;
    prepareForAnimation_style node opt label ;;
    call_onBeforeAnimateLabel (onBeforeAnimateLabel opt) label node.

(** [plotLabel] is the one of [Graph.Label.DOM], with [this] an HTML
    label object. *)
Definition plotLabel (placeLabel : Value -> Node -> Config -> Dom -> Dom) :=
  DOM.plotLabel getOrCreateLabel placeLabel.

End Methods.
End HTML.

(* ------------------------------------------------------------------- *)
(** *** Class Graph.Label.SVG *)
(* ------------------------------------------------------------------- *)

Module SVG.
Section Methods.

Variable viz : Viz.

Definition getOrCreateLabel (node : Node) : M Value :=
  let id := id node in
  var tag := DOM.getLabel id;
  match tag with
  | Some t => ret t
  | None =>
      var tag := document_getElementById id;
      match tag with
      | Some t => ret (Elem t)
      | None =>
          var tag := document_createElement "svg:text";
          var tspan := document_createElement "svg:tspan";
          appendChild (Some tag) tspan ;;
          var container := DOM.getLabelContainer viz;
          setAttribute tag "id" id ;;
          setAttribute tag "class" "node" ;;
          appendChild container tag ;;
          call_onCreateLabel (onCreateLabel (controller viz)) tag node ;;
          modify (with_labels <[id := Some tag]>) ;;
          ret (Elem tag)
      end
  end.

Definition plotLabel (placeLabel : Value -> Node -> Config -> Dom -> Dom) :=
  DOM.plotLabel getOrCreateLabel placeLabel.

End Methods.
End SVG.

(* ------------------------------------------------------------------- *)
(** *** Observations the statements below are written with *)
(* ------------------------------------------------------------------- *)

(** [getLabel] finds nothing in the cache under [i] and turns to the
    document: [i] is no own key and names no inherited value, or it holds
    [null]. *)
Definition miss (i : string) (s : State) : Prop :=
  (labels s !! i = None /\ inherits s i = false) \/ labels s !! i = Some None.

Definition is_CreateLabel_for (i : string) (c : Call) : bool :=
  match c with
  | CreateLabel _ n _ _ => bool_decide (id n = i)
  | BeforeAnimateLabel _ _ _ => false
  end.

Definition is_BeforeAnimateLabel (c : Call) : bool :=
  match c with
  | CreateLabel _ _ _ _ => false
  | BeforeAnimateLabel _ _ _ => true
  end.

(** How often [onCreateLabel] was invoked for a node of id [i], and how
    often [onBeforeAnimateLabel] was invoked, up to state [s]. *)
Definition created (i : string) (s : State) : nat :=
  length (filter (fun c => is_CreateLabel_for i c = true) (calls s)).

Definition animated (s : State) : nat :=
  length (filter (fun c => is_BeforeAnimateLabel c = true) (calls s)).

(** The document that was handed to the hook invoked last. *)
Definition last_handed (s : State) : option Dom :=
  match last (calls s) with
  | Some (CreateLabel _ _ d _) | Some (BeforeAnimateLabel _ _ d) => Some d
  | None => None
  end.

(** The container [getLabelContainer] answers in state [s]: the memoized
    one, or else the element of that id in the document. *)
Definition getLabelContainer_value (viz : Viz) (s : State) : option ref :=
  match labelContainer s with
  | Some c => Some c
  | None => getElementById (labelContainer_id (config viz)) (dom s)
  end.

(** What the HTML class has done to a new element when it calls the hook. *)
Definition html_new (tag : ref) (i : string) (d : Dom) : Dom :=
  Doc.setStyle tag "position" "absolute"
    (Doc.setAttribute tag "class" "node"
      (Doc.setAttribute tag "id" i (createElement "div" d).2)).

(** The listeners registered on [e], in the order of registration. *)
Definition getListeners (e : ref) (d : Dom) : option (list (string * Listener)) :=
  listeners <$> attrs_of e d.

(** The test of [clearLabels] on a key. *)
Definition swept (viz : Viz) (force : bool) (i : string) : bool :=
  force || negb (graph_hasNode viz i).

(** The elements [clearLabels(force)] may take out of the document in
    state [s]: the element cached under a key it sweeps, and, for a key
    it sweeps that holds [null], the elements of that ID in the document
    (which [getLabel] turns to then). *)
Definition disposable (viz : Viz) (force : bool) (s : State) (c : ref) : Prop :=
  exists k, swept viz force k = true /\
    (labels s !! k = Some (Some c) \/
     (labels s !! k = Some None /\ named k c (dom s) = true)).

(** The value [hideLabels] gives the [display] style of the container. *)
Definition display_of (hide : bool) : string := if hide then "none" else "".

(** [plotLabel] called for one node after the other. *)
Definition plotLabels (plot : Canvas -> Node -> Config -> M unit)
    (cv : Canvas) (ctl : Config) (ns : list Node) : M unit :=
  each ns (fun n => plot cv n ctl).

(** The new text element of the SVG class with its [tspan] child, before
    it gets its attributes ([None] if the host refuses the insertion). *)
Definition svg_new (d : Dom) : option Dom :=
  let '(tag, d1) := createElement "svg:text" d in
  let '(tspan, d2) := createElement "svg:tspan" d1 in
  Doc.appendChild tag tspan d2.

End Label.
End Graph.

(* ===================================================================== *)
(** ** Sample data *)
(* ===================================================================== *)

Module Sample.

Import Doc Graph.Label.

Definition pt (a b : Z) : Point := {| x := JS.of_Z a; y := JS.of_Z b |}.

(** A surface of 100 by 50. *)
Definition canvas100x50 : Canvas :=
  {| getSize := {| width := JS.of_Z 100; height := JS.of_Z 50 |} |}.

(** A page whose body holds the label container, and nothing else. *)
Definition tagged (tag i : string) : Attrs := set_attr "id" i (empty_attrs tag).

Definition page : Dom :=
  {| document :=
       El 0%nat (empty_attrs "#document")
         [El 1%nat (empty_attrs "html")
            [El 2%nat (empty_attrs "body")
               [El 3%nat (tagged "div" "infovis-label") []]]];
     detached := [] |}.

Definition noop : Hook := fun _ _ d => d.

Definition cfg : Config :=
  {| labelContainer_id := "infovis-label"; Label_useCSS3 := true; onCreateLabel := noop |}.

(** A visualization whose graph has the single node [n1]. *)
Definition viz : Viz :=
  {| config := cfg; controller := cfg;
     graph_hasNode := fun i => bool_decide (i = "n1"%string);
     canvas := canvas100x50 |}.

(** The names of the properties of [Object.prototype] in a host that
    follows the standard (with its annex for browsers). *)
Definition Object_prototype : list string :=
  ["constructor"; "hasOwnProperty"; "isPrototypeOf"; "propertyIsEnumerable";
   "toLocaleString"; "toString"; "valueOf"; "__proto__";
   "__defineGetter__"; "__defineSetter__"; "__lookupGetter__"; "__lookupSetter__"].

(** A label object that has not been used yet. *)
Definition start : State :=
  {| dom := page; labels := ∅;
     inherits := fun i => existsb (String.eqb i) Object_prototype;
     labelContainer := None; labelsHidden := false; calls := [] |}.

(** A node that moves from the origin to (10, 20), at constant opacity
    and size. *)
Definition node (i : string) : Node :=
  {| id := i;
     getPos_end := pt 10 20; getPos_start := pt 0 0;
     getData_width_start := JS.of_Z 30; getData_height_start := JS.of_Z 12;
     getData_width_end := JS.of_Z 30; getData_height_end := JS.of_Z 12;
     getData_alpha := JS.of_Z 1; getData_alpha_end := JS.of_Z 1;
     getData_alpha_start := JS.of_Z 1 |}.

(** The same visualization with the CSS3 transitions switched off. *)
Definition cfg_plain : Config :=
  {| labelContainer_id := "infovis-label"; Label_useCSS3 := false;
     onCreateLabel := noop |}.

Definition viz_plain : Viz :=
  {| config := cfg_plain; controller := cfg_plain;
     graph_hasNode := fun i => bool_decide (i = "n1"%string);
     canvas := canvas100x50 |}.

(** A host that computes exactly and prints a number as its reduced
    fraction, an integer in decimal. *)
Definition print (q : Q) : string :=
  let r := Qred q in
  if (Qden r =? 1)%positive then pretty (Qnum r)
  else (pretty (Qnum r) ++ "/" ++ pretty (Z.pos (Qden r)))%string.

Definition host : JS.Host :=
  {| JS.add := fun a b =>
       match a, b with
       | JS.Fin p, JS.Fin q => JS.Fin (Qred (p + q))
       | _, _ => JS.NaN
       end;
     JS.div := fun a b =>
       match a, b with
       | JS.Fin p, JS.Fin q => if Qeq_bool q 0 then JS.NaN else JS.Fin (Qred (p / q))
       | _, _ => JS.NaN
       end;
     JS.to_string := fun a =>
       match a with
       | JS.NaN => "NaN"%string
       | JS.NegInf => "-Infinity"%string
       | JS.PosInf => "Infinity"%string
       | JS.Fin q => print q
       end |}.

Definition opt : Options :=
  {| duration := JS.of_Z 700; onBeforeAnimateLabel := fun _ _ d => d |}.

(** An order of enumeration: the one of the keys as a set. *)
Definition keys (m : gmap string (option ref)) : list string :=
  elements (base.dom m).

(** A creation hook that writes down whether the element it is handed has
    a parent. *)
Definition probe : Hook := fun tag _ d =>
  Doc.setAttribute tag "data-attached"
    (match parentNode tag d with Some _ => "yes" | None => "no" end) d.

Definition cfg_probe : Config :=
  {| labelContainer_id := "infovis-label"; Label_useCSS3 := true;
     onCreateLabel := probe |}.

Definition viz_probe : Viz :=
  {| config := cfg_probe; controller := cfg_probe;
     graph_hasNode := fun i => bool_decide (i = "n1"%string);
     canvas := canvas100x50 |}.

(** A creation hook that gives the element a title, the id of the node. *)
Definition titled : Hook := fun tag n d => Doc.setAttribute tag "title" (id n) d.

Definition cfg_titled : Config :=
  {| labelContainer_id := "infovis-label"; Label_useCSS3 := true;
     onCreateLabel := titled |}.

Definition viz_titled : Viz :=
  {| config := cfg_titled; controller := cfg_titled;
     graph_hasNode := fun i => bool_decide (i = "n1"%string);
     canvas := canvas100x50 |}.

(** A node that fades out where it is. *)
Definition fading (i : string) : Node :=
  {| id := i;
     getPos_end := pt 10 20; getPos_start := pt 0 0;
     getData_width_start := JS.of_Z 30; getData_height_start := JS.of_Z 12;
     getData_width_end := JS.of_Z 30; getData_height_end := JS.of_Z 12;
     getData_alpha := JS.of_Z 1; getData_alpha_end := JS.of_Z 0;
     getData_alpha_start := JS.of_Z 1 |}.

(** A node that moves like [node] and has the same opacity at the start
    and at the end, but is transparent just now. *)
Definition dimmed (i : string) : Node :=
  {| id := i;
     getPos_end := pt 10 20; getPos_start := pt 0 0;
     getData_width_start := JS.of_Z 30; getData_height_start := JS.of_Z 12;
     getData_width_end := JS.of_Z 30; getData_height_end := JS.of_Z 12;
     getData_alpha := JS.of_Z 0; getData_alpha_end := JS.of_Z 1;
     getData_alpha_start := JS.of_Z 1 |}.

(** A [placeLabel] that leaves the element where it is. *)
Definition stay : Value -> Node -> Config -> Dom -> Dom := fun _ _ _ d => d.

(** Somebody adds an element of id [i] to the body of the page. *)
Definition author (i : string) (d : Dom) : Dom :=
  let '(r, d1) := createElement "div" d in
  default d (Doc.appendChild 2%nat r (Doc.setAttribute r "id" i d1)).

(** The label object on a page where somebody has put an element of id
    [n1] into the body (element 4). *)
Definition authored : State := with_dom (author "n1") start.

(** The label object on a page that has lost its container. *)
Definition bare : Dom :=
  {| document :=
       El 0%nat (empty_attrs "#document")
         [El 1%nat (empty_attrs "html") [El 2%nat (empty_attrs "body") []]];
     detached := [] |}.

Definition homeless : State := with_dom (fun _ => bare) start.

(** The label object after the labels of [n1] (element 4) and of [n2]
    (element 5), which the graph does not have, were plotted. *)
Definition two_labels : State :=
  final (plotLabels (HTML.plotLabel viz stay) canvas100x50 cfg [node "n1"; node "n2"] start).

End Sample.

(* ===================================================================== *)
(** ** Properties of the numbers *)
(* ===================================================================== *)

Section JSFacts.

Lemma lt_Lt (a b : JS.num) : JS.lt a b = true <-> JS.Lt a b.
Proof.
  destruct a, b; simpl; try (split; (discriminate || contradiction || done)).
  rewrite negb_true_iff, <- not_true_iff_false, Qle_bool_iff.
  split; [apply Qnot_le_lt | apply Qlt_not_le].
Qed.

Lemma ge_Le (a b : JS.num) : JS.ge a b = true <-> JS.Le b a.
Proof.
  destruct a, b; simpl; try (split; (discriminate || contradiction || done)).
  apply Qle_bool_iff.
Qed.

(** Away from [NaN] the two comparisons of the language are the
    negation of each other. *)
Lemma ge_false_lt (a b : JS.num) :
  a <> JS.NaN -> b <> JS.NaN -> JS.ge a b = false <-> JS.Lt a b.
Proof.
  intros Ha Hb. rewrite <- lt_Lt.
  destruct a, b; simpl; try done.
  rewrite negb_true_iff. done.
Qed.

Lemma lt_false_Le (a b : JS.num) :
  a <> JS.NaN -> b <> JS.NaN -> JS.lt a b = false <-> JS.Le b a.
Proof.
  intros Ha Hb. rewrite <- ge_Le.
  destruct a, b; simpl; try done.
  rewrite negb_false_iff. done.
Qed.

End JSFacts.

(* ===================================================================== *)
(** ** fitsInCanvas *)
(* ===================================================================== *)

Section FitsInCanvas.

Import Graph.Label.

(** C4, as amended. For a point and a surface none of whose four numbers
    is NaN, [fitsInCanvas] answers true exactly when
    [0 <= pos.x < width] and [0 <= pos.y < height]. *)
Theorem fitsInCanvas_half_open (pos : Point) (c : Canvas) :
  x pos <> JS.NaN -> y pos <> JS.NaN ->
  width (getSize c) <> JS.NaN -> height (getSize c) <> JS.NaN ->
  DOM.fitsInCanvas pos c = true <->
  (JS.Le (JS.of_Z 0) (x pos) /\ JS.Lt (x pos) (width (getSize c))) /\
  (JS.Le (JS.of_Z 0) (y pos) /\ JS.Lt (y pos) (height (getSize c))).
Proof.
  intros Hx Hy Hw Hh. unfold DOM.fitsInCanvas.
  assert (H0 : JS.of_Z 0 <> JS.NaN) by discriminate.
  rewrite <- (ge_false_lt _ _ Hx Hw), <- (ge_false_lt _ _ Hy Hh).
  rewrite <- (lt_false_Le _ _ Hx H0), <- (lt_false_Le _ _ Hy H0).
  destruct (JS.ge (x pos) _), (JS.lt (x pos) _), (JS.ge (y pos) _), (JS.lt (y pos) _);
    simpl; intuition congruence.
Qed.

(** The three points of the specification, each obtained from the
    theorem: the origin is inside, [x = width] and [x = -1] are outside. *)
Lemma fitsInCanvas_half_open_witness :
  DOM.fitsInCanvas (Sample.pt 0 0) Sample.canvas100x50 = true /\
  DOM.fitsInCanvas (Sample.pt 100 0) Sample.canvas100x50 <> true /\
  DOM.fitsInCanvas (Sample.pt (-1) 0) Sample.canvas100x50 <> true.
Proof.
  split; [|split].
  - apply (fitsInCanvas_half_open (Sample.pt 0 0) Sample.canvas100x50);
      try discriminate.
    simpl. unfold Qle, Qlt. simpl. lia.
  - intros H.
    apply (fitsInCanvas_half_open (Sample.pt 100 0) Sample.canvas100x50) in H;
      try discriminate.
    simpl in H. unfold Qle, Qlt in H. simpl in H. lia.
  - intros H.
    apply (fitsInCanvas_half_open (Sample.pt (-1) 0) Sample.canvas100x50) in H;
      try discriminate.
    simpl in H. unfold Qle, Qlt in H. simpl in H. lia.
Defined.

(** C4 fails as stated: with [pos.x] NaN every comparison of the body is
    false, so the point is accepted, although [0 <= NaN] does not hold. *)
Lemma fitsInCanvas_NaN_counterexample :
  let pos := {| x := JS.NaN; y := JS.of_Z 0 |} in
  ~ (DOM.fitsInCanvas pos Sample.canvas100x50 = true <->
     (JS.Le (JS.of_Z 0) (x pos) /\ JS.Lt (x pos) (width (getSize Sample.canvas100x50))) /\
     (JS.Le (JS.of_Z 0) (y pos) /\ JS.Lt (y pos) (height (getSize Sample.canvas100x50)))).
Proof.
  simpl. intros [H _]. specialize (H eq_refl). tauto.
Qed.

End FitsInCanvas.

(* ===================================================================== *)
(** ** Properties of the document *)
(* ===================================================================== *)

Section DocFacts.

Import Doc.

(** Induction on an element with the hypothesis for all its children. *)
Lemma Element_ind' (P : Element -> Prop) :
  (forall r a l, Forall P l -> P (El r a l)) -> forall e, P e.
Proof.
  intros H. fix IH 1. intros [r a l]. apply H.
  induction l as [|k l IHl]; constructor; [apply IH | exact IHl].
Qed.

Section FirstSome.

Context {A B : Type}.
Implicit Types (f g : A -> option B) (l : list A).

Lemma first_some_app f l1 l2 :
  first_some f (l1 ++ l2)
  = match first_some f l1 with Some y => Some y | None => first_some f l2 end.
Proof.
  induction l1 as [|a l1 IH]; simpl; [done|]. destruct (f a); done.
Qed.

Lemma first_some_None f l :
  first_some f l = None <-> Forall (fun a => f a = None) l.
Proof.
  induction l as [|a l IH]; simpl.
  - split; [constructor | done].
  - rewrite Forall_cons. destruct (f a); [|tauto].
    split; [done | intros [? _]; done].
Qed.

Lemma first_some_Some f l y :
  first_some f l = Some y -> exists a, a ∈ l /\ f a = Some y.
Proof.
  induction l as [|a l IH]; simpl; [done|].
  destruct (f a) as [z|] eqn:E.
  - intros [= <-]. exists a. split; [left | done].
  - intros H. destruct (IH H) as (b & Hb & Hfb). exists b. split; [by right | done].
Qed.

Lemma first_some_is_Some f l a :
  a ∈ l -> is_Some (f a) -> is_Some (first_some f l).
Proof.
  intros Ha Hf. destruct (first_some f l) eqn:E; [done|].
  rewrite first_some_None, Forall_forall in E.
  rewrite (E a) in Hf; [by destruct Hf | done].
Qed.

Lemma first_some_ext f g l :
  Forall (fun a => f a = g a) l -> first_some f l = first_some g l.
Proof.
  induction 1 as [|a l H _ IH]; simpl; [done|]. by rewrite H, IH.
Qed.

End FirstSome.

Lemma first_some_map {A B C : Type} (f : B -> option C) (g : A -> B) (l : list A) :
  first_some f (map g l) = first_some (fun a => f (g a)) l.
Proof. induction l as [|a l IH]; simpl; [done|]. by rewrite IH. Qed.

Lemma first_some_fmap {A B C : Type} (h : B -> C) (f : A -> option B) (l : list A) :
  first_some (fun a => h <$> f a) l = h <$> first_some f l.
Proof. induction l as [|a l IH]; simpl; [done|]. rewrite IH. by destruct (f a). Qed.

(** **** Identity and attributes *)

Lemma ref_of_update_in (r : ref) (f : Attrs -> Attrs) (e : Element) :
  ref_of (update_in r f e) = ref_of e.
Proof. by destruct e. Qed.

Lemma lookup_in_ref (r : ref) (e sub : Element) :
  lookup_in r e = Some sub -> ref_of sub = r.
Proof.
  revert sub. induction e as [x a l IH] using Element_ind'. intros sub. simpl.
  case_bool_decide as Hx.
  - intros [= <-]. done.
  - intros H. apply first_some_Some in H as (k & Hk & H).
    rewrite Forall_forall in IH. by apply (IH k).
Qed.

Lemma lookup_in_update_in (r r' : ref) (f : Attrs -> Attrs) (e : Element) :
  lookup_in r (update_in r' f e) = update_in r' f <$> lookup_in r e.
Proof.
  induction e as [x a l IH] using Element_ind'. simpl.
  case_bool_decide as Hx; [done|].
  rewrite first_some_map, <- first_some_fmap. by apply first_some_ext.
Qed.

Lemma lookup_update (r r' : ref) (f : Attrs -> Attrs) (d : Dom) :
  lookup r (update r' f d) = update_in r' f <$> lookup r d.
Proof.
  unfold lookup, update, trees. simpl.
  rewrite lookup_in_update_in, first_some_map.
  rewrite (first_some_ext _ (fun a => update_in r' f <$> lookup_in r a))
    by (apply Forall_forall; intros; apply lookup_in_update_in).
  rewrite first_some_fmap. by destruct (lookup_in r (document d)).
Qed.

Lemma lookup_ref (r : ref) (d : Dom) (sub : Element) :
  lookup r d = Some sub -> ref_of sub = r.
Proof.
  intros H. apply first_some_Some in H as (k & _ & H). by apply lookup_in_ref in H.
Qed.

(** An update of [r'] is seen at [r'] and nowhere else. *)
Lemma attrs_of_update (r r' : ref) (f : Attrs -> Attrs) (d : Dom) :
  attrs_of r (update r' f d)
  = (fun a => if bool_decide (r = r') then f a else a) <$> attrs_of r d.
Proof.
  unfold attrs_of. rewrite lookup_update.
  destruct (lookup r d) as [[x a l]|] eqn:E; [|done]. simpl.
  apply lookup_ref in E. simpl in E. subst x. done.
Qed.

Lemma update_in_idemp (r : ref) (f : Attrs -> Attrs) (e : Element) :
  (forall a, f (f a) = f a) -> update_in r f (update_in r f e) = update_in r f e.
Proof.
  intros Hf. induction e as [x a l IH] using Element_ind'. simpl.
  f_equal.
  - case_bool_decide; [apply Hf | done].
  - rewrite map_map. by apply map_ext_Forall.
Qed.

Lemma update_idemp (r : ref) (f : Attrs -> Attrs) (d : Dom) :
  (forall a, f (f a) = f a) -> update r f (update r f d) = update r f d.
Proof.
  intros Hf. unfold update. simpl. f_equal.
  - by apply update_in_idemp.
  - rewrite map_map. apply map_ext. intros. by apply update_in_idemp.
Qed.

Lemma set_style_attr_idemp (k v : string) (a : Attrs) :
  set_style_attr k v (set_style_attr k v a) = set_style_attr k v a.
Proof. unfold set_style_attr. simpl. by rewrite insert_insert_eq. Qed.

(** Updating attributes moves nothing. *)
Lemma parent_in_update_in (c r : ref) (f : Attrs -> Attrs) (e : Element) :
  parent_in c (update_in r f e) = parent_in c e.
Proof.
  induction e as [x a l IH] using Element_ind'. simpl.
  assert (E : existsb (is_ref c) (map (update_in r f) l) = existsb (is_ref c) l).
  { clear IH. induction l as [|k l IHl]; simpl; [done|].
    rewrite IHl. unfold is_ref. by rewrite ref_of_update_in. }
  rewrite E. destruct (existsb (is_ref c) l); [done|].
  rewrite first_some_map. by apply first_some_ext.
Qed.

Lemma parentNode_update (c r : ref) (f : Attrs -> Attrs) (d : Dom) :
  parentNode c (update r f d) = parentNode c d.
Proof.
  unfold parentNode, update, trees. simpl.
  rewrite parent_in_update_in, first_some_map.
  by rewrite (first_some_ext _ (parent_in c))
    by (apply Forall_forall; intros; apply parent_in_update_in).
Qed.

(** **** Taking an element out *)

Lemma ref_of_prune (c : ref) (e : Element) : ref_of (prune c e) = ref_of e.
Proof. by destruct e. Qed.

(** The children that [prune c] leaves to a node. *)
Lemma Forall_pruned (P : Element -> Prop) (c : ref) (l : list Element) :
  Forall (fun k => P (prune c k)) l ->
  Forall P (flat_map (fun k => if is_not c k then [prune c k] else []) l).
Proof.
  induction 1 as [|k l Hk _ IH]; simpl; [constructor|].
  destruct (is_not c k); simpl; [by constructor | done].
Qed.

Lemma existsb_is_ref_pruned (c c' : ref) (l : list Element) :
  existsb (is_ref c) l = false ->
  existsb (is_ref c) (flat_map (fun k => if is_not c' k then [prune c' k] else []) l)
  = false.
Proof.
  induction l as [|k l IH]; simpl; [done|].
  rewrite orb_false_iff. intros [Hk Hl].
  destruct (is_not c' k); simpl; [|by apply IH].
  unfold is_ref in *. rewrite ref_of_prune, Hk. by apply IH.
Qed.

Lemma existsb_is_ref_pruned_self (c : ref) (l : list Element) :
  existsb (is_ref c) (flat_map (fun k => if is_not c k then [prune c k] else []) l)
  = false.
Proof.
  induction l as [|k l IH]; simpl; [done|].
  unfold is_not at 1. destruct (is_ref c k) eqn:E; simpl; [done|].
  unfold is_ref in *. by rewrite ref_of_prune, E.
Qed.

(** After [prune c] nothing has [c] as a child. *)
Lemma parent_in_prune_self (c : ref) (e : Element) : parent_in c (prune c e) = None.
Proof.
  induction e as [x a l IH] using Element_ind'. simpl.
  rewrite existsb_is_ref_pruned_self. apply first_some_None. by apply Forall_pruned.
Qed.

(** [prune] gives no element a parent. *)
Lemma parent_in_prune_keep (c c' : ref) (e : Element) :
  parent_in c e = None -> parent_in c (prune c' e) = None.
Proof.
  induction e as [x a l IH] using Element_ind'. simpl.
  destruct (existsb (is_ref c) l) eqn:E; [done|]. intros H.
  rewrite existsb_is_ref_pruned by done.
  apply first_some_None, Forall_pruned.
  rewrite first_some_None in H. rewrite Forall_forall in *. auto.
Qed.

Lemma parent_in_sub (c c' : ref) (e sub : Element) :
  lookup_in c' e = Some sub -> parent_in c e = None -> parent_in c sub = None.
Proof.
  revert sub. induction e as [x a l IH] using Element_ind'. intros sub. simpl.
  case_bool_decide as Hx.
  - intros [= <-]. done.
  - intros Hs. destruct (existsb (is_ref c) l); [done|]. intros Hp.
    apply first_some_Some in Hs as (k & Hk & Hs).
    rewrite first_some_None in Hp. rewrite Forall_forall in *. eauto.
Qed.

(** What has a parent is a node. *)
Lemma parent_in_lookup_in (c p : ref) (e : Element) :
  parent_in c e = Some p -> is_Some (lookup_in c e).
Proof.
  induction e as [x a l IH] using Element_ind'. simpl.
  case_bool_decide as Hx; [by eexists|].
  destruct (existsb (is_ref c) l) eqn:E.
  - intros _. apply existsb_exists in E as (k & Hk & E).
    apply (first_some_is_Some _ _ k); [by apply list_elem_of_In|].
    destruct k as [y b m]. unfold is_ref in E. simpl in *.
    rewrite E. by eexists.
  - intros H. apply first_some_Some in H as (k & Hk & H).
    apply (first_some_is_Some _ _ k); [done|].
    rewrite Forall_forall in IH. by apply (IH k).
Qed.

Lemma parentNode_lookup (c p : ref) (d : Dom) :
  parentNode c d = Some p -> is_Some (lookup c d).
Proof.
  intros H. apply first_some_Some in H as (k & Hk & H).
  apply (first_some_is_Some _ _ k); [done|]. by apply parent_in_lookup_in in H.
Qed.

(** [removeChild] is never refused to the parent of the child. *)
Lemma removeChild_parent (c p : ref) (d : Dom) :
  parentNode c d = Some p -> is_Some (removeChild p c d).
Proof.
  intros H. unfold removeChild. rewrite bool_decide_true by done.
  destruct (parentNode_lookup _ _ _ H) as [sub ->]. by eexists.
Qed.

(** The removed child has no parent ... *)
Lemma removeChild_detaches (c p : ref) (d d' : Dom) :
  removeChild p c d = Some d' -> parentNode c d' = None.
Proof.
  unfold removeChild. case_bool_decide; [|done].
  destruct (lookup c d) as [sub|]; [|done]. intros [= <-].
  unfold parentNode, trees. simpl. rewrite parent_in_prune_self.
  apply first_some_None. apply Forall_app. split.
  - apply Forall_forall. intros k Hk. apply list_elem_of_fmap in Hk as (k' & -> & _).
    apply parent_in_prune_self.
  - repeat constructor. apply parent_in_prune_self.
Qed.

(** ... and no element without a parent gets one. *)
Lemma removeChild_keeps_detached (c c' p : ref) (d d' : Dom) :
  removeChild p c' d = Some d' -> parentNode c d = None -> parentNode c d' = None.
Proof.
  unfold removeChild. case_bool_decide; [|done].
  destruct (lookup c' d) as [sub|] eqn:Hs; [|done]. intros [= <-].
  unfold parentNode. rewrite !first_some_None. unfold trees. simpl.
  rewrite !Forall_cons. intros [Hd Hl]. split; [by apply parent_in_prune_keep|].
  apply Forall_app. split.
  - apply Forall_forall. intros k Hk. apply list_elem_of_fmap in Hk as (k' & -> & Hk).
    apply parent_in_prune_keep. rewrite Forall_forall in Hl. by apply Hl.
  - repeat constructor. apply parent_in_prune_keep.
    apply first_some_Some in Hs as (k & Hk & Hs).
    apply (parent_in_sub c c' k sub Hs).
    unfold trees in Hk. apply elem_of_cons in Hk as [->|Hk]; [done|].
    rewrite Forall_forall in Hl. by apply Hl.
Qed.

(** **** Putting an element under another *)

Lemma ref_of_graft (p : ref) (sub e : Element) : ref_of (graft p sub e) = ref_of e.
Proof. by destruct e. Qed.

Lemma attrs_prune (c : ref) (e : Element) : attrs (prune c e) = attrs e.
Proof. by destruct e. Qed.

Lemma first_some_const {A B : Type} (g : A -> bool) (y : B) (l : list A) :
  first_some (fun a => if g a then Some y else None) l
  = if existsb g l then Some y else None.
Proof. induction l as [|a l IH]; simpl; [done|]. rewrite IH. by destruct (g a). Qed.

Lemma occurs_root (c : ref) (e : Element) : occurs c e = false -> is_ref c e = false.
Proof.
  destruct e as [x a l]. simpl. rewrite orb_false_iff. intros [H _]. exact H.
Qed.

(** After [prune c] the element [c] is below the root nowhere. *)
Lemma occurs_prune (c : ref) (e : Element) :
  is_ref c e = false -> occurs c (prune c e) = false.
Proof.
  induction e as [x a l IH] using Element_ind'. unfold is_ref. simpl.
  intros ->. simpl.
  induction IH as [|k l Hk _ IHl]; simpl; [done|].
  unfold is_not at 1. destruct (is_ref c k) eqn:E; simpl; [done|].
  by rewrite (Hk eq_refl).
Qed.

Lemma existsb_false_Forall {A : Type} (g : A -> bool) (l : list A) :
  existsb g l = false -> Forall (fun a => g a = false) l.
Proof.
  induction l as [|a l IH]; simpl; [constructor|].
  rewrite orb_false_iff. intros [? ?]. constructor; auto.
Qed.

(** In a tree that does not hold [c], grafting [sub] (of identity [c])
    under [p] makes the nodes [p] the parents of [c] ... *)
Lemma parent_in_graft (c p : ref) (sub e : Element) :
  ref_of sub = c -> occurs c e = false ->
  parent_in c (graft p sub e) = if occurs p e then Some p else None.
Proof.
  intros Hsub. induction e as [x a l IH] using Element_ind'. simpl.
  rewrite orb_false_iff. intros [Hx Hl].
  apply existsb_false_Forall in Hl.
  assert (E : existsb (is_ref c) (map (graft p sub) l) = false).
  { clear IH. induction Hl as [|k l Hk _ IHl]; simpl; [done|].
    unfold is_ref at 1. rewrite ref_of_graft. fold (is_ref c k).
    by rewrite (occurs_root _ _ Hk). }
  rewrite existsb_app, E. simpl. clear Hx.
  case_bool_decide as Hp; simpl.
  - unfold is_ref. rewrite Hsub, bool_decide_true by done. by subst.
  - rewrite app_nil_r, first_some_map, <- first_some_const.
    apply first_some_ext. rewrite Forall_forall in *. auto.
Qed.

(** ... and the place where [c] is found. *)
Lemma lookup_in_graft (c p : ref) (sub e : Element) :
  ref_of sub = c -> occurs c e = false ->
  lookup_in c (graft p sub e) = if occurs p e then Some sub else None.
Proof.
  intros Hsub. induction e as [x a l IH] using Element_ind'. simpl.
  rewrite orb_false_iff. intros [Hx Hl]. rewrite Hx. clear Hx.
  apply existsb_false_Forall in Hl.
  rewrite first_some_app, first_some_map.
  rewrite (first_some_ext _ (fun k => if occurs p k then Some sub else None))
    by (rewrite Forall_forall in *; auto).
  rewrite first_some_const.
  destruct (existsb (occurs p) l); [by rewrite orb_true_r|]. rewrite orb_false_r.
  case_bool_decide; [|done]. destruct sub as [y b m]. simpl in *.
  by rewrite bool_decide_true.
Qed.

(** The trees [appendChild] grafts into do not hold the child. *)
Lemma appendChild_pruned (c : ref) (d : Dom) :
  is_ref c (document d) = false ->
  Forall (fun k => occurs c k = false)
    (prune c (document d)
     :: map (prune c) (filter (fun k => is_not c k = true) (detached d))).
Proof.
  intros Hd. constructor; [by apply occurs_prune|].
  apply Forall_forall. intros k Hk.
  apply list_elem_of_fmap in Hk as (k' & -> & Hk).
  apply list_elem_of_filter in Hk as [Hk _].
  apply occurs_prune. unfold is_not in Hk. by destruct (is_ref c k').
Qed.

(** The appended child has the parent it was given ... *)
Lemma appendChild_parentNode (p c : ref) (d d' : Dom) :
  appendChild p c d = Some d' -> parentNode c d' = Some p.
Proof.
  unfold appendChild. destruct (lookup c d) as [sub|] eqn:Hs; [|done].
  destruct (occurs p sub || is_ref c (document d)) eqn:Hcyc; [done|].
  apply orb_false_iff in Hcyc as [_ Hdoc].
  destruct (existsb _ _) eqn:Hp; [|done]. intros [= <-].
  pose proof (appendChild_pruned c d Hdoc) as Hpr.
  unfold parentNode, trees. cbn [document detached].
  rewrite <- (map_cons (graft p (prune c sub))), first_some_map.
  rewrite (first_some_ext _ (fun k => if occurs p k then Some p else None)).
  - by rewrite first_some_const, Hp.
  - eapply Forall_impl; [exact Hpr|]. intros k Hk. simpl.
    apply parent_in_graft; [|done]. rewrite ref_of_prune. by apply lookup_ref in Hs.
Qed.

(** ... and the attributes it had. *)
Lemma appendChild_attrs_of (p c : ref) (d d' : Dom) :
  appendChild p c d = Some d' -> attrs_of c d' = attrs_of c d.
Proof.
  unfold appendChild, attrs_of. destruct (lookup c d) as [sub|] eqn:Hs; [|done].
  destruct (occurs p sub || is_ref c (document d)) eqn:Hcyc; [done|].
  apply orb_false_iff in Hcyc as [_ Hdoc].
  destruct (existsb _ _) eqn:Hp; [|done]. intros [= <-].
  pose proof (appendChild_pruned c d Hdoc) as Hpr.
  unfold lookup, trees. cbn [document detached].
  rewrite <- (map_cons (graft p (prune c sub))), first_some_map.
  rewrite (first_some_ext _ (fun k => if occurs p k then Some (prune c sub) else None)).
  - rewrite first_some_const, Hp. simpl. by rewrite attrs_prune.
  - eapply Forall_impl; [exact Hpr|]. intros k Hk. simpl.
    apply lookup_in_graft; [|done]. rewrite ref_of_prune. by apply lookup_ref in Hs.
Qed.

(** **** New elements *)

Lemma occurs_max_ref (r : ref) (e : Element) :
  occurs r e = true -> (r <= max_ref e)%nat.
Proof.
  induction e as [x a l IH] using Element_ind'. simpl.
  rewrite orb_true_iff. intros [H|H].
  - apply bool_decide_eq_true in H. lia.
  - induction IH as [|k l Hk _ IHl]; simpl in *; [done|].
    apply orb_true_iff in H as [H|H]; [specialize (Hk H) | specialize (IHl H)]; lia.
Qed.

Lemma occurs_fresh (d : Dom) (k : Element) : k ∈ trees d -> occurs (fresh d) k = false.
Proof.
  intros Hk. destruct (occurs (fresh d) k) eqn:E; [|done].
  apply occurs_max_ref in E. unfold fresh in E. exfalso.
  induction (trees d) as [|t l IH]; [by apply elem_of_nil in Hk|].
  simpl in E. apply elem_of_cons in Hk as [->|Hk]; [lia|]. apply IH; [done|lia].
Qed.

Lemma parent_in_absent (c : ref) (e : Element) :
  occurs c e = false -> parent_in c e = None.
Proof.
  induction e as [x a l IH] using Element_ind'. simpl.
  rewrite orb_false_iff. intros [_ Hl]. apply existsb_false_Forall in Hl.
  assert (E : existsb (is_ref c) l = false).
  { clear IH. induction Hl as [|k l Hk _ IHl]; simpl; [done|].
    by rewrite (occurs_root _ _ Hk). }
  rewrite E. apply first_some_None. rewrite Forall_forall in *. auto.
Qed.

Lemma lookup_in_absent (c : ref) (e : Element) :
  occurs c e = false -> lookup_in c e = None.
Proof.
  induction e as [x a l IH] using Element_ind'. simpl.
  rewrite orb_false_iff. intros [-> Hl]. apply existsb_false_Forall in Hl.
  apply first_some_None. rewrite Forall_forall in *. auto.
Qed.

(** A new element has no parent, and the attributes it was made with. *)
Lemma createElement_parentNode (tag : string) (d : Dom) :
  parentNode (fresh d) (createElement tag d).2 = None.
Proof.
  unfold parentNode, createElement, trees. simpl.
  rewrite (parent_in_absent _ _ (occurs_fresh d _ (list_elem_of_here _ _))).
  rewrite first_some_app. simpl.
  replace (first_some (parent_in (fresh d)) (detached d)) with (@None ref); [done|].
  symmetry. apply first_some_None, Forall_forall. intros k Hk.
  apply parent_in_absent, occurs_fresh. by apply list_elem_of_further.
Qed.

Lemma createElement_attrs_of (tag : string) (d : Dom) :
  attrs_of (fresh d) (createElement tag d).2 = Some (empty_attrs tag).
Proof.
  unfold attrs_of, lookup, createElement, trees. simpl.
  rewrite (lookup_in_absent _ _ (occurs_fresh d _ (list_elem_of_here _ _))).
  rewrite first_some_app. simpl.
  replace (first_some (lookup_in (fresh d)) (detached d)) with (@None Element).
  - by rewrite bool_decide_true.
  - symmetry. apply first_some_None, Forall_forall. intros k Hk.
    apply lookup_in_absent, occurs_fresh. by apply list_elem_of_further.
Qed.

(** **** What a removal leaves in place *)

Lemma occurs_pruned (e c : ref) (t : Element) :
  occurs e (prune c t) = true -> occurs e t = true.
Proof.
  induction t as [x a l IH] using Element_ind'. simpl.
  rewrite !orb_true_iff. intros [H|H]; [by left|]. right.
  apply existsb_exists in H as (k' & Hk' & H).
  apply in_flat_map in Hk' as (k & Hk & Hin).
  destruct (is_not c k); [|done]. destruct Hin as [<-|[]].
  apply existsb_exists. exists k. split; [done|].
  rewrite Forall_forall in IH. apply IH; [by apply list_elem_of_In | done].
Qed.

Lemma within_in_pruned (c' e c : ref) (t : Element) :
  within_in c' e (prune c t) = true -> within_in c' e t = true.
Proof.
  induction t as [x a l IH] using Element_ind'. simpl.
  rewrite !orb_true_iff, !andb_true_iff, !orb_true_iff.
  intros [[Hx [He|He]]|H].
  - left. split; [done | by left].
  - left. split; [done|]. right.
    apply existsb_exists in He as (k' & Hk' & He).
    apply in_flat_map in Hk' as (k & Hk & Hin).
    destruct (is_not c k); [|done]. destruct Hin as [<-|[]].
    apply existsb_exists. exists k. split; [done | by apply occurs_pruned in He].
  - right.
    apply existsb_exists in H as (k' & Hk' & H).
    apply in_flat_map in Hk' as (k & Hk & Hin).
    destruct (is_not c k); [|done]. destruct Hin as [<-|[]].
    apply existsb_exists. exists k. split; [done|].
    rewrite Forall_forall in IH. apply IH; [by apply list_elem_of_In | done].
Qed.

Lemma within_in_sub (c' e c : ref) (t sub : Element) :
  lookup_in c t = Some sub -> within_in c' e sub = true -> within_in c' e t = true.
Proof.
  revert sub. induction t as [x a l IH] using Element_ind'. intros sub.
  simpl lookup_in. case_bool_decide as Hx.
  - intros [= <-]. done.
  - intros Hs Hw. apply first_some_Some in Hs as (k & Hk & Hs).
    simpl. apply orb_true_iff. right. apply existsb_exists. exists k.
    split; [by apply list_elem_of_In|]. rewrite Forall_forall in IH. by apply (IH k Hk sub).
Qed.

(** What is not within [c] does not occur in the subtree of [c]. *)
Lemma within_in_lookup (c e : ref) (t sub : Element) :
  lookup_in c t = Some sub -> within_in c e t = false -> occurs e sub = false.
Proof.
  revert sub. induction t as [x a l IH] using Element_ind'. intros sub.
  simpl lookup_in. case_bool_decide as Hx.
  - intros [= <-]. simpl. rewrite bool_decide_true by done. simpl.
    rewrite orb_false_iff. by intros [? _].
  - intros Hs. simpl. rewrite orb_false_iff. intros [_ Hw].
    apply first_some_Some in Hs as (k & Hk & Hs).
    apply existsb_false_Forall in Hw. rewrite Forall_forall in IH, Hw.
    by apply (IH k Hk sub Hs), Hw.
Qed.

Lemma existsb_is_ref_pruned_other (e c : ref) (l : list Element) :
  e <> c ->
  existsb (is_ref e) (flat_map (fun k => if is_not c k then [prune c k] else []) l)
  = existsb (is_ref e) l.
Proof.
  intros Hne. induction l as [|k l IH]; simpl; [done|].
  unfold is_not at 1. destruct (is_ref c k) eqn:E; simpl; rewrite IH.
  - unfold is_ref in *. apply bool_decide_eq_true in E.
    by rewrite (bool_decide_false (ref_of k = e)) by congruence.
  - unfold is_ref. by rewrite ref_of_prune.
Qed.

(** Taking [c] out leaves the parent of what is not within [c]. *)
Lemma parent_in_pruned_apart (e c : ref) (t : Element) :
  e <> c -> within_in c e t = false -> parent_in e (prune c t) = parent_in e t.
Proof.
  intros Hne. induction t as [x a l IH] using Element_ind'.
  simpl. rewrite orb_false_iff. intros [_ Hw].
  rewrite existsb_is_ref_pruned_other by done.
  destruct (existsb (is_ref e) l); [done|].
  apply existsb_false_Forall in Hw.
  induction IH as [|k l Hk _ IHl]; simpl; [done|].
  apply Forall_cons in Hw as [Hwk Hw].
  unfold is_not at 1. destruct (is_ref c k) eqn:E; simpl.
  - assert (Hnone : parent_in e k = None).
    { apply parent_in_absent. destruct k as [y b m]. unfold is_ref in E. simpl in E.
      apply bool_decide_eq_true in E. subst y. simpl in Hwk.
      rewrite bool_decide_true in Hwk by done. simpl in Hwk.
      apply orb_false_iff in Hwk as [Hwk _]. exact Hwk. }
    rewrite Hnone. by apply IHl.
  - rewrite (Hk Hwk). by rewrite (IHl Hw).
Qed.

Lemma removeChild_trees (p c : ref) (d d' : Dom) :
  removeChild p c d = Some d' ->
  exists sub t, t ∈ trees d /\ lookup_in c t = Some sub /\
                trees d' = map (prune c) (trees d) ++ [prune c sub].
Proof.
  unfold removeChild. case_bool_decide as Hp; [|done].
  destruct (lookup c d) as [sub|] eqn:Hs; [|done]. intros [= <-].
  apply first_some_Some in Hs as (t & Ht & Hst). by exists sub, t.
Qed.

Lemma removeChild_parentNode_apart (p c e : ref) (d d' : Dom) :
  removeChild p c d = Some d' -> within c e d = false ->
  parentNode e d' = parentNode e d.
Proof.
  intros Hrm Hw. destruct (removeChild_trees _ _ _ _ Hrm) as (sub & t & Ht & Hst & Htr).
  unfold within in Hw. apply existsb_false_Forall in Hw.
  assert (Hsub : occurs e sub = false).
  { rewrite Forall_forall in Hw. by apply (within_in_lookup c e t sub Hst), Hw. }
  assert (Hne : e <> c).
  { intros ->. apply lookup_in_ref in Hst. destruct sub as [y b m]. simpl in *.
    subst y. by rewrite bool_decide_true in Hsub. }
  unfold parentNode. rewrite Htr, first_some_app, first_some_map.
  rewrite (first_some_ext _ (parent_in e)).
  - destruct (first_some (parent_in e) (trees d)); [done|]. simpl.
    rewrite parent_in_absent; [done|].
    destruct (occurs e (prune c sub)) eqn:E; [|done].
    apply occurs_pruned in E. congruence.
  - eapply Forall_impl; [exact Hw|]. intros k Hk. simpl.
    by apply parent_in_pruned_apart.
Qed.

(** A removal puts nothing within an element. *)
Lemma removeChild_within (p c c' e : ref) (d d' : Dom) :
  removeChild p c d = Some d' -> within c' e d = false -> within c' e d' = false.
Proof.
  intros Hrm Hw. destruct (removeChild_trees _ _ _ _ Hrm) as (sub & t & Ht & Hst & Htr).
  destruct (within c' e d') eqn:E; [|done]. exfalso.
  unfold within in *. rewrite Htr, existsb_app in E.
  apply existsb_false_Forall in Hw. rewrite Forall_forall in Hw.
  apply orb_true_iff in E as [E|E].
  - apply existsb_exists in E as (k' & Hk' & E).
    apply in_map_iff in Hk' as (k & <- & Hk).
    apply within_in_pruned in E. apply list_elem_of_In in Hk.
    rewrite (Hw k Hk) in E. done.
  - simpl in E. rewrite orb_false_r in E. apply within_in_pruned in E.
    apply (within_in_sub c' e c t sub Hst) in E. rewrite (Hw t Ht) in E. done.
Qed.

Lemma named_in_pruned (i : string) (x c : ref) (t : Element) :
  named_in i x (prune c t) = true -> named_in i x t = true.
Proof.
  induction t as [y a l IH] using Element_ind'. simpl.
  rewrite !orb_true_iff. intros [H|H]; [by left|]. right.
  apply existsb_exists in H as (k' & Hk' & H).
  apply in_flat_map in Hk' as (k & Hk & Hin).
  destruct (is_not c k); [|done]. destruct Hin as [<-|[]].
  apply existsb_exists. exists k. split; [done|].
  rewrite Forall_forall in IH. apply IH; [by apply list_elem_of_In | done].
Qed.

(** A removal gives no element an ID in the document. *)
Lemma removeChild_named (p c x : ref) (i : string) (d d' : Dom) :
  removeChild p c d = Some d' -> named i x d' = true -> named i x d = true.
Proof.
  unfold removeChild. case_bool_decide as Hp; [|done].
  destruct (lookup c d) as [sub|]; [|done]. intros [= <-].
  unfold named. simpl. destruct (document d) as [y a l]. simpl. intros H.
  apply existsb_exists in H as (k' & Hk' & H).
  apply in_flat_map in Hk' as (k & Hk & Hin).
  destruct (is_not c k); [|done]. destruct Hin as [<-|[]].
  apply existsb_exists. exists k. split; [done | by apply named_in_pruned in H].
Qed.

Lemma find_id_named (i : string) (t : Element) (c : ref) :
  find_id i t = Some c -> named_in i c t = true.
Proof.
  induction t as [x a l IH] using Element_ind'. simpl.
  destruct (has_id i a).
  - intros [= ->]. by rewrite bool_decide_true.
  - intros H. apply first_some_Some in H as (k & Hk & H).
    rewrite andb_false_r. simpl. apply existsb_exists. exists k.
    split; [by apply list_elem_of_In|]. rewrite Forall_forall in IH. by apply IH.
Qed.

(** What [getElementById] finds is an element of that ID. *)
Lemma getElementById_named (i : string) (d : Dom) (c : ref) :
  getElementById i d = Some c -> named i c d = true.
Proof.
  unfold getElementById, named. intros H.
  apply first_some_Some in H as (k & Hk & H).
  apply existsb_exists. exists k. split; [by apply list_elem_of_In|].
  by apply find_id_named.
Qed.

End DocFacts.

(* ===================================================================== *)
(** ** The label cache *)
(* ===================================================================== *)

Section Cache.

Import Doc Graph.Label.

Lemma getLabel_hit (i : string) (e : ref) (s : State) :
  labels s !! i = Some (Some e) -> DOM.getLabel i s = Return (Some (Elem e)) s.
Proof.
  intros H. unfold DOM.getLabel, bind, gets, DOM.labels_get. rewrite H. done.
Qed.

(** A name under which a value is inherited, and no own property, yields
    that value: nothing is stored, and the document is not asked. *)
Lemma getLabel_inherited (i : string) (s : State) :
  labels s !! i = None -> inherits s i = true ->
  DOM.getLabel i s = Return (Some (Inherited i)) s.
Proof.
  intros H Hi. unfold DOM.getLabel, bind, gets, DOM.labels_get. rewrite H, Hi. done.
Qed.

Lemma getLabel_miss (i : string) (s : State) :
  miss i s ->
  DOM.getLabel i s =
  Return (Elem <$> getElementById i (dom s))
         (with_labels <[i := getElementById i (dom s)]> s).
Proof.
  intros [[H Hi]|H]; unfold DOM.getLabel, bind, gets, DOM.labels_get;
    rewrite H, ?Hi; done.
Qed.

Lemma miss_or_hit (i : string) (s : State) :
  miss i s \/ (exists e, labels s !! i = Some (Some e)) \/
  (labels s !! i = None /\ inherits s i = true).
Proof.
  unfold miss. destruct (labels s !! i) as [[e|]|]; eauto.
  destruct (inherits s i); eauto.
Qed.

Lemma miss_no_element (i : string) (s : State) (e : ref) :
  miss i s -> labels s !! i <> Some (Some e).
Proof. intros [[H _]|H]; congruence. Qed.

Lemma getLabelContainer_eq (viz : Viz) (s : State) :
  DOM.getLabelContainer viz s =
  Return (getLabelContainer_value viz s)
         (with_labelContainer (getLabelContainer_value viz s) s).
Proof.
  destruct s as [d ls inh [c|] h cs]; reflexivity.
Qed.

(** The three ways [getOrCreateLabel] returns an element: the cached
    one, one found in the document, or a new one. *)
Lemma HTML_getOrCreateLabel_cases (viz : Viz) (n : Node) (s s1 : State) (tag : ref) :
  HTML.getOrCreateLabel viz n s = Return (Elem tag) s1 ->
  (labels s !! id n = Some (Some tag) /\ s1 = s) \/
  (miss (id n) s /\ getElementById (id n) (dom s) = Some tag /\
   s1 = with_labels <[id n := Some tag]> s) \/
  (miss (id n) s /\ getElementById (id n) (dom s) = None /\
   tag = fresh (dom s) /\
   exists c,
     getLabelContainer_value viz s = Some c /\
     Doc.appendChild c tag
       (onCreateLabel (config viz) tag n (html_new tag (id n) (dom s))) = Some (dom s1) /\
     labels s1 = <[id n := Some tag]> (<[id n := None]> (labels s)) /\
     labelContainer s1 = Some c /\
     labelsHidden s1 = labelsHidden s /\
     calls s1 = calls s ++ [CreateLabel tag n (html_new tag (id n) (dom s))
                              (<[id n := None]> (labels s))]).
Proof.
  intros H. unfold HTML.getOrCreateLabel in H.
  destruct (miss_or_hit (id n) s) as [Hm | [[e He] | [Hn Hi]]].
  - unfold bind at 1 in H. rewrite (getLabel_miss _ _ Hm) in H.
    destruct (getElementById (id n) (dom s)) as [e|] eqn:Hg.
    + injection H as <- <-. right. left. done.
    + right. right. split; [done|]. split; [done|].
      revert H. simpl.
      unfold bind at 1. unfold document_getElementById, gets. simpl. rewrite Hg.
      unfold bind at 1. unfold document_createElement. simpl.
      unfold bind at 1. rewrite getLabelContainer_eq.
      change (getLabelContainer_value viz _) with (getLabelContainer_value viz s).
      unfold bind, setAttribute, setStyle, modify, call_onCreateLabel, appendChild, ret.
      simpl.
      destruct (getLabelContainer_value viz s) as [c|]; [|discriminate].
      fold (html_new (fresh (dom s)) (id n) (dom s)).
      destruct (Doc.appendChild c _ _) as [d'|] eqn:Ha; [|discriminate].
      intros [= <- <-]. split; [done|]. exists c. simpl. done.
  - unfold bind at 1 in H. rewrite (getLabel_hit _ _ _ He) in H.
    injection H as <- <-. left. done.
  - unfold bind at 1 in H. rewrite (getLabel_inherited _ _ Hn Hi) in H. discriminate H.
Qed.

Lemma SVG_getOrCreateLabel_cases (viz : Viz) (n : Node) (s s1 : State) (tag : ref) :
  SVG.getOrCreateLabel viz n s = Return (Elem tag) s1 ->
  (labels s !! id n = Some (Some tag) /\ s1 = s) \/
  (miss (id n) s /\ getElementById (id n) (dom s) = Some tag /\
   s1 = with_labels <[id n := Some tag]> s) \/
  (miss (id n) s /\ getElementById (id n) (dom s) = None /\
   tag = fresh (dom s) /\
   exists c d3 d4,
     svg_new (dom s) = Some d3 /\
     getLabelContainer_value viz (with_dom (fun _ => d3) s) = Some c /\
     Doc.appendChild c tag
       (Doc.setAttribute tag "class" "node" (Doc.setAttribute tag "id" (id n) d3))
       = Some d4 /\
     dom s1 = onCreateLabel (controller viz) tag n d4 /\
     labels s1 = <[id n := Some tag]> (<[id n := None]> (labels s)) /\
     labelContainer s1 = Some c /\
     labelsHidden s1 = labelsHidden s /\
     calls s1 = calls s ++ [CreateLabel tag n d4 (<[id n := None]> (labels s))]).
Proof.
  intros H. unfold SVG.getOrCreateLabel in H.
  destruct (miss_or_hit (id n) s) as [Hm | [[e He] | [Hn Hi]]].
  - unfold bind at 1 in H. rewrite (getLabel_miss _ _ Hm) in H.
    destruct (getElementById (id n) (dom s)) as [e|] eqn:Hg.
    + injection H as <- <-. right. left. done.
    + right. right. split; [done|]. split; [done|].
      revert H. simpl.
      unfold bind at 1. unfold document_getElementById, gets. simpl. rewrite Hg.
      unfold bind at 1. unfold document_createElement. simpl.
      unfold bind at 1. simpl.
      unfold bind at 1. unfold appendChild at 1. simpl.
      unfold svg_new. simpl.
      destruct (Doc.appendChild (fresh (dom s)) _ _) as [d3|] eqn:H3; [|discriminate].
      unfold bind at 1. rewrite getLabelContainer_eq.
      match goal with
      | |- context [getLabelContainer_value viz ?X] =>
          change (getLabelContainer_value viz X)
            with (getLabelContainer_value viz (with_dom (fun _ => d3) s))
      end.
      unfold bind, setAttribute, modify, call_onCreateLabel, appendChild, ret.
      simpl.
      destruct (getLabelContainer_value viz _) as [c|] eqn:Hc; [|discriminate].
      destruct (Doc.appendChild c _ _) as [d4|] eqn:H4; [|discriminate].
      intros [= <- <-]. split; [done|]. exists c, d3, d4. simpl. done.
  - unfold bind at 1 in H. rewrite (getLabel_hit _ _ _ He) in H.
    injection H as <- <-. left. done.
  - unfold bind at 1 in H. rewrite (getLabel_inherited _ _ Hn Hi) in H. discriminate H.
Qed.

(** The one way it returns something else: the value inherited under the
    id of the node, with the state untouched. *)
Lemma HTML_getOrCreateLabel_Inherited (viz : Viz) (n : Node) (s s1 : State)
    (x : string) :
  HTML.getOrCreateLabel viz n s = Return (Inherited x) s1 ->
  x = id n /\ labels s !! id n = None /\ inherits s (id n) = true /\ s1 = s.
Proof.
  intros H. unfold HTML.getOrCreateLabel in H.
  destruct (miss_or_hit (id n) s) as [Hm | [[e He] | [Hn Hi]]].
  - unfold bind at 1 in H. rewrite (getLabel_miss _ _ Hm) in H.
    destruct (getElementById (id n) (dom s)) as [e|] eqn:Hg; [discriminate H|].
    revert H. simpl.
    unfold bind at 1. unfold document_getElementById, gets. simpl. rewrite Hg.
    unfold bind at 1. unfold document_createElement. simpl.
    unfold bind at 1. rewrite getLabelContainer_eq.
    unfold bind, setAttribute, setStyle, modify, call_onCreateLabel, appendChild, ret.
    simpl.
    destruct (getLabelContainer_value viz _) as [c|]; [|discriminate].
    destruct (Doc.appendChild c _ _) as [d'|]; discriminate.
  - unfold bind at 1 in H. rewrite (getLabel_hit _ _ _ He) in H. discriminate H.
  - unfold bind at 1 in H. rewrite (getLabel_inherited _ _ Hn Hi) in H.
    injection H as <- <-. done.
Qed.

Lemma SVG_getOrCreateLabel_Inherited (viz : Viz) (n : Node) (s s1 : State)
    (x : string) :
  SVG.getOrCreateLabel viz n s = Return (Inherited x) s1 ->
  x = id n /\ labels s !! id n = None /\ inherits s (id n) = true /\ s1 = s.
Proof.
  intros H. unfold SVG.getOrCreateLabel in H.
  destruct (miss_or_hit (id n) s) as [Hm | [[e He] | [Hn Hi]]].
  - unfold bind at 1 in H. rewrite (getLabel_miss _ _ Hm) in H.
    destruct (getElementById (id n) (dom s)) as [e|] eqn:Hg; [discriminate H|].
    revert H. simpl.
    unfold bind at 1. unfold document_getElementById, gets. simpl. rewrite Hg.
    unfold bind at 1. unfold document_createElement. simpl.
    unfold bind at 1. simpl.
    unfold bind at 1. unfold appendChild at 1. simpl.
    destruct (Doc.appendChild (fresh (dom s)) _ _) as [d3|]; [|discriminate].
    unfold bind at 1. rewrite getLabelContainer_eq.
    unfold bind, setAttribute, modify, call_onCreateLabel, appendChild, ret.
    simpl.
    destruct (getLabelContainer_value viz _) as [c|]; [|discriminate].
    destruct (Doc.appendChild c _ _) as [d4|]; discriminate.
  - unfold bind at 1 in H. rewrite (getLabel_hit _ _ _ He) in H. discriminate H.
  - unfold bind at 1 in H. rewrite (getLabel_inherited _ _ Hn Hi) in H.
    injection H as <- <-. done.
Qed.

Lemma HTML_getOrCreateLabel_hit (viz : Viz) (n : Node) (s : State) (tag : ref) :
  labels s !! id n = Some (Some tag) ->
  HTML.getOrCreateLabel viz n s = Return (Elem tag) s.
Proof.
  intros H. unfold HTML.getOrCreateLabel, bind. rewrite (getLabel_hit _ _ _ H). done.
Qed.

Lemma SVG_getOrCreateLabel_hit (viz : Viz) (n : Node) (s : State) (tag : ref) :
  labels s !! id n = Some (Some tag) ->
  SVG.getOrCreateLabel viz n s = Return (Elem tag) s.
Proof.
  intros H. unfold SVG.getOrCreateLabel, bind. rewrite (getLabel_hit _ _ _ H). done.
Qed.

Lemma HTML_getOrCreateLabel_inherited (viz : Viz) (n : Node) (s : State) :
  labels s !! id n = None -> inherits s (id n) = true ->
  HTML.getOrCreateLabel viz n s = Return (Inherited (id n)) s.
Proof.
  intros H Hi. unfold HTML.getOrCreateLabel, bind.
  rewrite (getLabel_inherited _ _ H Hi). done.
Qed.

Lemma SVG_getOrCreateLabel_inherited (viz : Viz) (n : Node) (s : State) :
  labels s !! id n = None -> inherits s (id n) = true ->
  SVG.getOrCreateLabel viz n s = Return (Inherited (id n)) s.
Proof.
  intros H Hi. unfold SVG.getOrCreateLabel, bind.
  rewrite (getLabel_inherited _ _ H Hi). done.
Qed.

(** Whatever way it returned an element, the element is in the cache
    afterwards. *)
Lemma HTML_getOrCreateLabel_cached (viz : Viz) (n : Node) (s s1 : State) (tag : ref) :
  HTML.getOrCreateLabel viz n s = Return (Elem tag) s1 ->
  labels s1 !! id n = Some (Some tag).
Proof.
  intros H. apply HTML_getOrCreateLabel_cases in H.
  destruct H as [[H ->] | [(_ & _ & ->) | (_ & _ & _ & c & _ & _ & -> & _)]];
    simpl; by rewrite ?lookup_insert_eq.
Qed.

Lemma SVG_getOrCreateLabel_cached (viz : Viz) (n : Node) (s s1 : State) (tag : ref) :
  SVG.getOrCreateLabel viz n s = Return (Elem tag) s1 ->
  labels s1 !! id n = Some (Some tag).
Proof.
  intros H. apply SVG_getOrCreateLabel_cases in H.
  destruct H as [[H ->] | [(_ & _ & ->) | (_ & _ & _ & c & d3 & d4 & _ & _ & _ & _ & -> & _)]];
    simpl; by rewrite ?lookup_insert_eq.
Qed.

(** C1. When [getOrCreateLabel] has returned for a node, the next call
    for a node of the same id returns the identical element (and leaves
    the state as it is), in the HTML and in the SVG class. (So does it
    return the identical value when what it returned is no element.) *)
Theorem getOrCreateLabel_stable (viz : Viz) (n n' : Node) (s s1 : State) (tag : Value) :
  id n' = id n ->
  (HTML.getOrCreateLabel viz n s = Return tag s1 ->
   HTML.getOrCreateLabel viz n' s1 = Return tag s1) /\
  (SVG.getOrCreateLabel viz n s = Return tag s1 ->
   SVG.getOrCreateLabel viz n' s1 = Return tag s1).
Proof.
  intros Hid. split; intros H; destruct tag as [e|x].
  - apply HTML_getOrCreateLabel_hit. rewrite Hid.
    by apply HTML_getOrCreateLabel_cached in H.
  - apply HTML_getOrCreateLabel_Inherited in H as (-> & Hn & Hi & ->).
    rewrite <- Hid. apply HTML_getOrCreateLabel_inherited; by rewrite Hid.
  - apply SVG_getOrCreateLabel_hit. rewrite Hid.
    by apply SVG_getOrCreateLabel_cached in H.
  - apply SVG_getOrCreateLabel_Inherited in H as (-> & Hn & Hi & ->).
    rewrite <- Hid. apply SVG_getOrCreateLabel_inherited; by rewrite Hid.
Qed.

(** On the sample page the first call creates element 4 (HTML) or the
    text element 4 with its tspan 5 (SVG); the second call returns it. *)
Lemma getOrCreateLabel_stable_witness :
  let h := HTML.getOrCreateLabel Sample.viz (Sample.node "n1") Sample.start in
  let v := SVG.getOrCreateLabel Sample.viz (Sample.node "n1") Sample.start in
  (returned h = Some (Elem 4%nat) /\
   HTML.getOrCreateLabel Sample.viz (Sample.node "n1") (final h)
   = Return (Elem 4%nat) (final h)) /\
  (returned v = Some (Elem 4%nat) /\
   SVG.getOrCreateLabel Sample.viz (Sample.node "n1") (final v)
   = Return (Elem 4%nat) (final v)).
Proof.
  intros h v. split; (split; [vm_compute; reflexivity|]).
  - apply (proj1 (getOrCreateLabel_stable Sample.viz (Sample.node "n1")
             (Sample.node "n1") Sample.start (final h) (Elem 4%nat) eq_refl)).
    vm_compute. reflexivity.
  - apply (proj2 (getOrCreateLabel_stable Sample.viz (Sample.node "n1")
             (Sample.node "n1") Sample.start (final v) (Elem 4%nat) eq_refl)).
    vm_compute. reflexivity.
Defined.

(** C10, as amended. For an id under which the cache object inherits
    nothing (or has a [null] entry of its own): a lookup that finds
    nothing stores [null] and answers [null]; the [null] entry does not stand in for the document
    afterwards: whatever happened to the document ([f]), the next lookup
    asks it again, stores its answer and returns it; an element it found
    is the cached one from then on. *)
Theorem getLabel_null_is_retried (i : string) (s : State) (f : Dom -> Dom) :
  miss i s -> getElementById i (dom s) = None ->
  exists s1,
    DOM.getLabel i s = Return None s1 /\
    labels s1 !! i = Some None /\
    (forall j, j <> i -> labels s1 !! j = labels s !! j) /\
    dom s1 = dom s /\
    let s2 := with_dom f s1 in
    let found := getElementById i (dom s2) in
    DOM.getLabel i s2 = Return (Elem <$> found) (with_labels <[i := found]> s2) /\
    forall e, found = Some e ->
      DOM.getLabel i (with_labels <[i := found]> s2)
      = Return (Some (Elem e)) (with_labels <[i := found]> s2).
Proof.
  intros Hm Hg. exists (with_labels <[i := None]> s).
  split; [by rewrite (getLabel_miss _ _ Hm), Hg|].
  split; [simpl; apply lookup_insert_eq|].
  split; [intros j Hj; simpl; by rewrite lookup_insert_ne|].
  split; [done|].
  intros s2 found.
  assert (Hm2 : miss i s2) by (right; simpl; apply lookup_insert_eq).
  split; [apply (getLabel_miss _ _ Hm2)|].
  intros e He. apply getLabel_hit. simpl. rewrite He. apply lookup_insert_eq.
Qed.

(** The label of "late" is looked for before the page has such an
    element, and again after somebody has added one (element 4). *)
Lemma getLabel_null_is_retried_witness :
  exists s1,
    DOM.getLabel "late" Sample.start = Return None s1 /\
    labels s1 !! "late"%string = Some None /\
    returned (DOM.getLabel "late" (with_dom (Sample.author "late") s1))
    = Some (Some (Elem 4%nat)).
Proof.
  destruct (getLabel_null_is_retried "late" Sample.start (Sample.author "late"))
    as (s1 & H1 & H2 & _ & _ & H3 & _).
  - left. split; reflexivity.
  - reflexivity.
  - exists s1. split; [exact H1|]. split; [exact H2|].
    rewrite H3.
    assert (E : s1 = with_labels <[ "late"%string := None ]> Sample.start).
    { rewrite (getLabel_miss "late" Sample.start) in H1
        by (left; split; reflexivity).
      by injection H1. }
    rewrite E. vm_compute. reflexivity.
Defined.

(** C10 fails as stated at an id that names a property of
    [Object.prototype]: the label object has cached nothing under
    [toString] and the page has no such element, yet [getLabel] answers
    the inherited function, not [null], and stores no [null] entry; nor
    does a later call find the element that the page has by then. *)
Lemma getLabel_null_is_retried_counterexample :
  let o := DOM.getLabel "toString" Sample.start in
  labels Sample.start !! "toString"%string = None /\
  getElementById "toString" (dom Sample.start) = None /\
  returned o = Some (Some (Inherited "toString")) /\
  returned o <> Some None /\
  labels (final o) !! "toString"%string <> Some None /\
  let s2 := with_dom (Sample.author "toString") (final o) in
  getElementById "toString" (dom s2) = Some 4%nat /\
  returned (DOM.getLabel "toString" s2) <> Some (Some (Elem 4%nat)).
Proof.
  vm_compute. repeat split; (reflexivity || discriminate).
Qed.

(** C5, as amended. Disposing the label of an id that has no cached
    element and no element in the document does not raise and leaves the
    document alone. When [getLabel] turns to the document for the id (the
    cache object inherits nothing under it), the call records [null]
    under it in the cache and changes nothing else: every id has the
    element it had. When the cache object inherits a value under the id,
    and has no entry of its own, the state is left as it is. *)
Theorem disposeLabel_unknown (i : string) (s : State) :
  (miss i s -> getElementById i (dom s) = None ->
   DOM.disposeLabel i s = Return tt (with_labels <[i := None]> s) /\
   (forall j, j <> i -> <[i := None]> (labels s) !! j = labels s !! j) /\
   (forall j e, <[i := None]> (labels s) !! j = Some (Some e) <->
                labels s !! j = Some (Some e))) /\
  (labels s !! i = None -> inherits s i = true ->
   DOM.disposeLabel i s = Return tt s).
Proof.
  split.
  - intros Hm Hg. split; [|split].
    + unfold DOM.disposeLabel, bind. rewrite (getLabel_miss _ _ Hm), Hg. done.
    + intros j Hj. by rewrite lookup_insert_ne.
    + intros j e. destruct (decide (i = j)) as [<-|Hj].
      * rewrite lookup_insert_eq. pose proof (miss_no_element i s e Hm).
        split; [done | congruence].
      * by rewrite lookup_insert_ne.
  - intros Hn Hi. unfold DOM.disposeLabel, bind.
    by rewrite (getLabel_inherited _ _ Hn Hi).
Qed.

Lemma disposeLabel_unknown_witness :
  DOM.disposeLabel "unknown-id" Sample.start
  = Return tt (with_labels <[ "unknown-id"%string := None ]> Sample.start) /\
  DOM.disposeLabel "valueOf" Sample.start = Return tt Sample.start.
Proof.
  split.
  - apply (proj1 (disposeLabel_unknown "unknown-id" Sample.start)).
    + left. split; reflexivity.
    + reflexivity.
  - apply (proj2 (disposeLabel_unknown "valueOf" Sample.start)); reflexivity.
Defined.

(** C5 fails as stated: the id is unknown to the cache and to the
    document, and the cache is not what it was, it has gained the key. *)
Lemma disposeLabel_unknown_counterexample :
  miss "unknown-id" Sample.start /\
  getElementById "unknown-id" (dom Sample.start) = None /\
  labels Sample.start !! "unknown-id"%string = None /\
  labels (final (DOM.disposeLabel "unknown-id" Sample.start)) !! "unknown-id"%string
    = Some None /\
  labels (final (DOM.disposeLabel "unknown-id" Sample.start)) <> labels Sample.start.
Proof.
  split; [left; split; reflexivity|]. split; [reflexivity|]. split; [reflexivity|].
  assert (H : labels (final (DOM.disposeLabel "unknown-id" Sample.start))
                !! "unknown-id"%string = Some None) by (vm_compute; reflexivity).
  split; [exact H|]. intros E. rewrite E in H. discriminate H.
Qed.

End Cache.

(* ===================================================================== *)
(** ** The creation hook *)
(* ===================================================================== *)

Section CreationHook.

Import Doc Graph.Label.

(** What [plotLabel] needs of the [getOrCreateLabel] it is bound to. *)
Section Bound.

Variable getOrCreateLabel : Node -> M Value.
Variable placeLabel : Value -> Node -> Config -> Dom -> Dom.
Variables (cv : Canvas) (ctl : Config).

Hypothesis hit : forall n s tag,
  labels s !! id n = Some (Some tag) -> getOrCreateLabel n s = Return (Elem tag) s.

Hypothesis new : forall n s v s1,
  miss (id n) s -> getElementById (id n) (dom s) = None ->
  getOrCreateLabel n s = Return v s1 ->
  exists tag d0 ls0,
    v = Elem tag /\ labels s1 !! id n = Some (Some tag) /\
    calls s1 = calls s ++ [CreateLabel tag n d0 ls0].





End Bound.






End CreationHook.

(* ===================================================================== *)
(** ** Visibility of the container *)
(* ===================================================================== *)

Section Visibility.

Import Doc Graph.Label.

Lemma hideLabels_eq (viz : Viz) (hide : bool) (s : State) (c : ref) :
  getLabelContainer_value viz s = Some c ->
  DOM.hideLabels viz hide s
  = Return tt (with_labelsHidden hide
                 (with_dom (Doc.setStyle c "display" (display_of hide))
                    (with_labelContainer (Some c) s))).
Proof.
  intros H. unfold DOM.hideLabels, bind. rewrite getLabelContainer_eq, H.
  destruct hide; reflexivity.
Qed.

Lemma getStyle_setStyle (e : ref) (k v : string) (d : Dom) :
  is_Some (Doc.lookup e d) -> getStyle e k (Doc.setStyle e k v d) = Some v.
Proof.
  intros [sub H]. unfold getStyle, Doc.setStyle. rewrite attrs_of_update.
  unfold attrs_of. rewrite H. simpl. rewrite bool_decide_true by done.
  simpl. apply lookup_insert_eq.
Qed.

(** C9. With a container [c] to resolve to (a node of the document, as
    every reference of the language is): [hideLabels(true)] hides it and
    sets the flag; a second [hideLabels(true)] returns the very same
    state; [hideLabels(false)] after that clears the [display] style of
    the container and the flag. *)
Theorem hideLabels_idempotent (viz : Viz) (s : State) (c : ref) :
  getLabelContainer_value viz s = Some c ->
  is_Some (Doc.lookup c (dom s)) ->
  exists s1 s2,
    DOM.hideLabels viz true s = Return tt s1 /\
    getStyle c "display" (dom s1) = Some "none"%string /\
    labelsHidden s1 = true /\
    DOM.hideLabels viz true s1 = Return tt s1 /\
    DOM.hideLabels viz false s1 = Return tt s2 /\
    getStyle c "display" (dom s2) = Some ""%string /\
    labelsHidden s2 = false.
Proof.
  intros Hc Hl.
  set (s1 := with_labelsHidden true
               (with_dom (Doc.setStyle c "display" "none")
                  (with_labelContainer (Some c) s))).
  assert (Hc1 : getLabelContainer_value viz s1 = Some c) by reflexivity.
  exists s1, (with_labelsHidden false
                (with_dom (Doc.setStyle c "display" "")
                   (with_labelContainer (Some c) s1))).
  split; [apply (hideLabels_eq viz true s c Hc)|].
  split; [by apply getStyle_setStyle|].
  split; [done|].
  split.
  { rewrite (hideLabels_eq viz true s1 c Hc1). f_equal.
    unfold s1, with_labelsHidden, with_dom, with_labelContainer. simpl. f_equal.
    apply update_idemp. intros a. apply set_style_attr_idemp. }
  split; [apply (hideLabels_eq viz false s1 c Hc1)|].
  split; [|done].
  simpl. apply getStyle_setStyle.
  unfold Doc.setStyle. rewrite lookup_update. destruct Hl as [e ->]. done.
Qed.

(** The container of the sample page is element 3. *)
Lemma hideLabels_idempotent_witness :
  exists s1 s2,
    DOM.hideLabels Sample.viz true Sample.start = Return tt s1 /\
    getStyle 3%nat "display" (dom s1) = Some "none"%string /\
    labelsHidden s1 = true /\
    DOM.hideLabels Sample.viz true s1 = Return tt s1 /\
    DOM.hideLabels Sample.viz false s1 = Return tt s2 /\
    getStyle 3%nat "display" (dom s2) = Some ""%string /\
    labelsHidden s2 = false.
Proof.
  apply (hideLabels_idempotent Sample.viz Sample.start 3%nat).
  - reflexivity.
  - vm_compute. eexists. reflexivity.
Defined.

End Visibility.

(* ===================================================================== *)
(** ** Preparing a label for an animation *)
(* ===================================================================== *)

Section Animation.

Import Doc Graph.Label.

Variable viz : Viz.
Variable host : JS.Host.

Lemma getStyle_setStyle_ne (e e' : ref) (k k' v : string) (d : Dom) :
  k <> k' -> getStyle e k (Doc.setStyle e' k' v d) = getStyle e k d.
Proof.
  intros Hk. unfold getStyle, Doc.setStyle. rewrite attrs_of_update.
  destruct (attrs_of e d) as [a|]; [|done]. simpl.
  case_bool_decide; [|done]. simpl. by rewrite lookup_insert_ne.
Qed.

Lemma lookup_setStyle_is_Some (e e' : ref) (k v : string) (d : Dom) :
  is_Some (Doc.lookup e d) -> is_Some (Doc.lookup e (Doc.setStyle e' k v d)).
Proof.
  intros [sub H]. unfold Doc.setStyle. rewrite lookup_update, H. by eexists.
Qed.

(** The style statement always returns, and changes the document only. *)
Lemma prepareForAnimation_style_returns (n : Node) (opt : Options) (label : ref)
    (s : State) :
  exists d, HTML.prepareForAnimation_style viz host n opt (Elem label) s
            = Return tt (with_dom (fun _ => d) s).
Proof.
  unfold HTML.prepareForAnimation_style. cbv zeta. destruct s as [d ls inh lc lh cs].
  destruct (JS.neqb (getData_alpha n) (getData_alpha_end n)).
  - destruct (JS.eqb (getData_alpha_end n) (JS.of_Z 0)
              && JS.eqb (getData_alpha n) (JS.of_Z 1)); eexists; reflexivity.
  - destruct (JS.neqb _ _ || JS.neqb _ _ || JS.neqb _ _ || JS.neqb _ _);
      eexists; reflexivity.
Qed.

(** [getOrCreateLabel] invokes no animation hook. *)
Lemma HTML_getOrCreateLabel_animated (n : Node) (s s1 : State) (tag : ref) :
  HTML.getOrCreateLabel viz n s = Return (Elem tag) s1 -> animated s1 = animated s.
Proof.
  intros H. apply HTML_getOrCreateLabel_cases in H.
  destruct H as [[_ ->] | [(_ & _ & ->) | (_ & _ & _ & c & _ & _ & _ & _ & _ & H)]];
    try done.
  unfold animated. rewrite H, filter_app, length_app. simpl. lia.
Qed.

(** C6, as amended. With [useCSS3] on, a call of [prepareForAnimation]
    whose [getOrCreateLabel] returns a label invokes
    [opt.onBeforeAnimateLabel] exactly once, on that label and after
    every other hook, whichever branch was taken; if [getOrCreateLabel]
    raises, so does the call. With [useCSS3] off the call returns at
    once and leaves the state, hence the hook, alone. *)
Theorem onBeforeAnimateLabel_once_with_css3 (n : Node) (modes : list string)
    (opt : Options) (s : State) :
  (Label_useCSS3 (config viz) = true ->
   (forall label s1,
      HTML.getOrCreateLabel viz n s = Return (Elem label) s1 ->
      exists s2 d0,
        HTML.prepareForAnimation viz host n modes opt s = Return tt s2 /\
        calls s2 = calls s1 ++ [BeforeAnimateLabel (Elem label) n d0] /\
        animated s2 = S (animated s)) /\
   (forall e s1,
      HTML.getOrCreateLabel viz n s = Throw e s1 ->
      HTML.prepareForAnimation viz host n modes opt s = Throw e s1)) /\
  (Label_useCSS3 (config viz) = false ->
   HTML.prepareForAnimation viz host n modes opt s = Return tt s).
Proof.
  split.
  - intros Hcss. unfold HTML.prepareForAnimation. rewrite Hcss. simpl.
    split.
    + intros label s1 Hg. unfold bind at 1. rewrite Hg.
      destruct (prepareForAnimation_style_returns n opt label s1) as [d Hd].
      unfold bind, call_onBeforeAnimateLabel. rewrite Hd.
      eexists _, d. split; [reflexivity|]. split; [reflexivity|].
      unfold animated at 1. simpl. rewrite filter_app, length_app. simpl.
      fold (animated s1). rewrite (HTML_getOrCreateLabel_animated _ _ _ _ Hg). lia.
    + intros e s1 Hg. unfold bind at 1. by rewrite Hg.
  - intros Hcss. unfold HTML.prepareForAnimation. by rewrite Hcss.
Qed.

(** Reading a style through a chain of [setStyle]s on a concrete key. *)
Ltac read_style H :=
  repeat (rewrite getStyle_setStyle_ne by discriminate);
  apply getStyle_setStyle;
  repeat apply lookup_setStyle_is_Some;
  exact H.

(** C7, as amended. The position/size branch, which lies behind the
    [useCSS3] guard and the lookup of the label: when the current opacity
    of the node, [node.getData('alpha')], equals the one at the end, and
    the position or the size differs between start and end, the call
    returns and the hook is handed a document [d0] in which the label (a
    node of the document, as every reference of the language is) has, for
    each vendor prefix, the transition properties
    [width,height,top,left,color,opacity] (position and size among
    them), the duration of [opt] in ms and the delay [200ms], and has
    its [top], [left], [width] and [height] set to the end values. *)
Theorem prepareForAnimation_position_size (n : Node) (modes : list string)
    (opt : Options) (s s1 : State) (label : ref) :
  Label_useCSS3 (config viz) = true ->
  HTML.getOrCreateLabel viz n s = Return (Elem label) s1 ->
  is_Some (Doc.lookup label (dom s1)) ->
  JS.eqb (getData_alpha n) (getData_alpha_end n) = true ->
  JS.neqb (x (getPos_end n)) (x (getPos_start n))
  || JS.neqb (y (getPos_end n)) (y (getPos_start n))
  || JS.neqb (getData_width_start n) (getData_width_end n)
  || JS.neqb (getData_height_start n) (getData_height_end n) = true ->
  let px a := (JS.to_string host a ++ "px")%string in
  let half a := JS.div host a (JS.of_Z 2) in
  let size := getSize (canvas viz) in
  exists d0,
    HTML.prepareForAnimation viz host n modes opt s
    = Return tt (with_dom (onBeforeAnimateLabel opt (Elem label) n)
                   (with_call (BeforeAnimateLabel (Elem label) n d0)
                      (with_dom (fun _ => d0) s1))) /\
    Forall (fun p =>
      getStyle label (p ++ "transition-property") d0
        = Some "width,height,top,left,color,opacity"%string /\
      getStyle label (p ++ "transition-duration") d0
        = Some (JS.to_string host (duration opt) ++ "ms")%string /\
      getStyle label (p ++ "transition-delay") d0 = Some "200ms"%string)
      HTML.prefixesStyles /\
    getStyle label "top" d0
      = Some (px (JS.shr0 (JS.add host (y (getPos_end n)) (half (height size))))) /\
    getStyle label "left" d0
      = Some (px (JS.shr0 (JS.add host (x (getPos_end n)) (half (width size))))) /\
    getStyle label "width" d0 = Some (px (JS.shr0 (getData_width_end n))) /\
    getStyle label "height" d0 = Some (px (JS.shr0 (getData_height_end n))).
Proof.
  intros Hcss Hg Hl Ha Hmove px half size.
  unfold HTML.prepareForAnimation. rewrite Hcss. simpl.
  unfold bind at 1. rewrite Hg.
  unfold HTML.prepareForAnimation_style. cbv zeta.
  unfold JS.neqb at 1. rewrite Ha. simpl negb. cbv iota.
  rewrite Hmove.
  destruct s1 as [d ls inh lc lh cs]. simpl in Hl.
  eexists. split; [reflexivity|].
  split; [|repeat split; simpl; read_style Hl].
  repeat constructor; simpl; read_style Hl.
Qed.

End Animation.

Section AnimationSamples.

Import Doc Graph.Label.

(** On the sample page, with the CSS3 transitions on: the hook is
    invoked once, after the creation of element 4; and a call whose
    label cannot be made (no container in the page) raises. *)
Lemma onBeforeAnimateLabel_once_with_css3_witness :
  let n := Sample.node "n1" in
  (exists s2 d0,
     HTML.prepareForAnimation Sample.viz Sample.host n [] Sample.opt Sample.start
       = Return tt s2 /\
     calls s2 = calls (final (HTML.getOrCreateLabel Sample.viz n Sample.start))
                ++ [BeforeAnimateLabel (Elem 4%nat) n d0] /\
     animated s2 = 1%nat) /\
  HTML.prepareForAnimation Sample.viz_plain Sample.host n [] Sample.opt Sample.start
    = Return tt Sample.start.
Proof.
  intros n.
  pose proof (onBeforeAnimateLabel_once_with_css3 Sample.viz Sample.host n []
                Sample.opt Sample.start) as [Hon _].
  pose proof (onBeforeAnimateLabel_once_with_css3 Sample.viz_plain Sample.host n []
                Sample.opt Sample.start) as [_ Hoff].
  split.
  - destruct (Hon eq_refl) as [Hret _].
    apply (Hret 4%nat (final (HTML.getOrCreateLabel Sample.viz n Sample.start))).
    vm_compute. reflexivity.
  - apply Hoff. reflexivity.
Defined.

(** C6 fails as stated: with [useCSS3] off the call returns without any
    invocation of the hook. *)
Lemma onBeforeAnimateLabel_counterexample :
  let o := HTML.prepareForAnimation Sample.viz_plain Sample.host (Sample.node "n1") []
             Sample.opt Sample.start in
  returned o = Some tt /\ animated (final o) = animated Sample.start /\
  animated (final o) <> S (animated Sample.start).
Proof.
  vm_compute. split; [done|]. split; [done|]. discriminate.
Qed.

(** The sample node moves from (0,0) to (10,20) on a surface of 100 by
    50 at constant size 30 by 12: [top] is 20 + 25, [left] is 10 + 50. *)
Lemma prepareForAnimation_position_size_witness :
  let n := Sample.node "n1" in
  exists d0 s2,
    HTML.prepareForAnimation Sample.viz Sample.host n [] Sample.opt Sample.start
      = Return tt s2 /\
    calls s2 = [CreateLabel 4%nat n (html_new 4%nat "n1" Sample.page)
                  (<[ "n1"%string := None ]> ∅);
                BeforeAnimateLabel (Elem 4%nat) n d0] /\
    getStyle 4%nat "-webkit-transition-property" d0
      = Some "width,height,top,left,color,opacity"%string /\
    getStyle 4%nat "transition-duration" d0 = Some "700ms"%string /\
    getStyle 4%nat "transition-delay" d0 = Some "200ms"%string /\
    getStyle 4%nat "top" d0 = Some "45px"%string /\
    getStyle 4%nat "left" d0 = Some "60px"%string /\
    getStyle 4%nat "width" d0 = Some "30px"%string /\
    getStyle 4%nat "height" d0 = Some "12px"%string.
Proof.
  intros n.
  set (s1 := final (HTML.getOrCreateLabel Sample.viz n Sample.start)).
  destruct (prepareForAnimation_position_size Sample.viz Sample.host n []
              Sample.opt Sample.start s1 4%nat)
    as (d0 & Hrun & Htr & Htop & Hleft & Hw & Hh).
  - reflexivity.
  - vm_compute. reflexivity.
  - vm_compute. eexists. reflexivity.
  - reflexivity.
  - reflexivity.
  - exists d0. eexists. split; [exact Hrun|].
    split; [reflexivity|].
    rewrite Forall_forall in Htr.
    destruct (Htr "-webkit-"%string) as (Hp & _ & _);
      [apply list_elem_of_In; simpl; auto|].
    destruct (Htr ""%string) as (_ & Hdur & Hdel);
      [apply list_elem_of_In; simpl; auto|].
    split; [exact Hp|]. split; [exact Hdur|]. split; [exact Hdel|].
    rewrite Htop, Hleft, Hw, Hh. vm_compute. done.
Defined.

(** C7 fails as stated: the opacity of the node is the same at the start
    and at the end and its position differs, but its current opacity is
    another one, which is what the code compares with the end: the
    opacity branch is taken, the transition is the one of [opacity] and
    neither position nor size is set. *)
Lemma prepareForAnimation_position_size_counterexample :
  let n := Sample.dimmed "n1" in
  let o := HTML.prepareForAnimation Sample.viz Sample.host n [] Sample.opt
             Sample.start in
  let d0 := last_handed (final o) in
  JS.eqb (getData_alpha_start n) (getData_alpha_end n) = true /\
  JS.neqb (x (getPos_end n)) (x (getPos_start n)) = true /\
  returned o = Some tt /\
  animated (final o) = 1%nat /\
  getStyle 4%nat "transition-property" <$> d0 = Some (Some "opacity"%string) /\
  getStyle 4%nat "transition-property" <$> d0
    <> Some (Some "width,height,top,left,color,opacity"%string) /\
  getStyle 4%nat "top" <$> d0 = Some None /\
  getStyle 4%nat "left" <$> d0 = Some None /\
  getStyle 4%nat "width" <$> d0 = Some None /\
  getStyle 4%nat "height" <$> d0 = Some None.
Proof.
  vm_compute. repeat split; (reflexivity || discriminate).
Qed.

End AnimationSamples.

(* ===================================================================== *)
(** ** Sweeping the cache *)
(* ===================================================================== *)

Section ClearLabels.

Import Doc Graph.Label.

Variable viz : Viz.
Variable for_in : gmap string (option ref) -> list string.

(** [for (id in labels)] visits the keys of [labels]. *)
Hypothesis for_in_keys : forall m k, k ∈ for_in m <-> is_Some (m !! k).

(** [disposeLabel] always returns; in the cache it touches the entry of
    [i] at most, it detaches the element cached under [i], and it gives
    no element a parent. *)
Lemma disposeLabel_returns (i : string) (s : State) :
  exists s1,
    DOM.disposeLabel i s = Return tt s1 /\
    delete i (labels s1) = delete i (labels s) /\
    (forall e, parentNode e (dom s) = None -> parentNode e (dom s1) = None) /\
    (forall e, labels s !! i = Some (Some e) -> parentNode e (dom s1) = None).
Proof.
  unfold DOM.disposeLabel, bind.
  assert (Hrm : forall s0 e,
    dom s0 = dom s ->
    exists s1,
      (match parentNode e (dom s0) with
       | Some p => removeChild p e
       | None => ret tt
       end) s0 = Return tt s1 /\
      labels s1 = labels s0 /\
      (forall e', parentNode e' (dom s) = None -> parentNode e' (dom s1) = None) /\
      parentNode e (dom s1) = None).
  { intros s0 e Hd. destruct (parentNode e (dom s0)) as [p|] eqn:Hp.
    - destruct (removeChild_parent _ _ _ Hp) as [d' Hd'].
      unfold removeChild. rewrite Hd'. eexists. split; [done|]. simpl.
      split; [done|]. split.
      + intros e' He'. rewrite <- Hd in He'. eapply removeChild_keeps_detached; eauto.
      + eapply removeChild_detaches; eauto.
    - exists s0. rewrite Hd in *. done. }
  destruct (miss_or_hit i s) as [Hm | [[e He] | [Hn Hi]]].
  - rewrite (getLabel_miss _ _ Hm). unfold gets.
    destruct (getElementById i (dom s)) as [e|].
    + destruct (Hrm (with_labels <[i := Some e]> s) e eq_refl) as (s1 & H1 & Hl & Hk & _).
      simpl in H1. exists s1. split; [exact H1|]. rewrite Hl. simpl.
      split; [apply delete_insert_eq|]. split; [exact Hk|].
      intros e' He'. by apply miss_no_element in He'.
    + eexists. split; [done|]. simpl. split; [apply delete_insert_eq|].
      split; [done|]. intros e' He'. by apply miss_no_element in He'.
  - rewrite (getLabel_hit _ _ _ He). unfold gets.
    destruct (Hrm s e eq_refl) as (s1 & H1 & Hl & Hk & Hd).
    exists s1. split; [exact H1|]. rewrite Hl. split; [done|]. split; [exact Hk|].
    intros e' He'. congruence.
  - rewrite (getLabel_inherited _ _ Hn Hi). exists s. split; [done|].
    split; [done|]. split; [done|]. intros e' He'. congruence.
Qed.

(** The loop of [clearLabels] over the keys [l]. *)
Lemma clearLabels_loop (force : bool) (l : list string) (s : State) :
  exists s1,
    each l (fun i =>
      if force || negb (graph_hasNode viz i) then
        DOM.disposeLabel i ;; modify (with_labels (delete i))
      else ret tt) s = Return tt s1 /\
    (forall k, labels s1 !! k
               = if decide (k ∈ l /\ swept viz force k = true) then None
                 else labels s !! k) /\
    (forall e, parentNode e (dom s) = None -> parentNode e (dom s1) = None) /\
    (forall k e, k ∈ l -> swept viz force k = true ->
                 labels s !! k = Some (Some e) -> parentNode e (dom s1) = None).
Proof.
  revert s. induction l as [|a l IH]; intros s.
  - exists s. split; [done|]. split; [|split; [done|]].
    + intros k. rewrite decide_False; [done|]. intros [H _]. by apply elem_of_nil in H.
    + intros k e H. by apply elem_of_nil in H.
  - simpl. unfold bind at 1. fold (swept viz force a).
    destruct (swept viz force a) eqn:Ha.
    + destruct (disposeLabel_returns a s) as (s0 & H0 & Hl0 & Hk0 & Hd0).
      unfold bind at 1. rewrite H0. unfold modify.
      destruct (IH (with_labels (delete a) s0)) as (s1 & H1 & Hl1 & Hk1 & Hd1).
      exists s1. split; [exact H1|]. simpl in *. split; [|split].
      * intros k. rewrite Hl1, Hl0. destruct (decide (k = a)) as [->|Hka].
        -- rewrite lookup_delete_eq.
           rewrite (decide_True (P := a ∈ a :: l /\ _));
             [by destruct (decide _) | split; [apply elem_of_cons; by left | done]].
        -- rewrite lookup_delete_ne by done.
           destruct (decide (k ∈ l /\ _)) as [[Hin Hs]|Hn].
           ++ rewrite decide_True; [done|]. split; [apply elem_of_cons; by right|done].
           ++ rewrite decide_False; [done|]. intros [Hin Hs]. apply Hn.
              apply elem_of_cons in Hin as [->|Hin]; done.
      * auto.
      * intros k e Hin Hs Hl. destruct (decide (k = a)) as [->|Hka]; [by auto|].
        apply elem_of_cons in Hin as [->|Hin]; [done|].
        apply (Hd1 k e Hin Hs). by rewrite Hl0, lookup_delete_ne.
    + unfold ret at 1.
      destruct (IH s) as (s1 & H1 & Hl1 & Hk1 & Hd1).
      exists s1. split; [exact H1|]. split; [|split; [done|]].
      * intros k. rewrite Hl1.
        destruct (decide (k ∈ l /\ _)) as [[Hin Hs]|Hn].
        -- rewrite decide_True; [done|]. split; [apply elem_of_cons; by right|done].
        -- rewrite decide_False; [done|]. intros [Hin Hs]. apply Hn.
           apply elem_of_cons in Hin as [->|Hin]; [congruence|done].
      * intros k e Hin Hs Hl.
        apply elem_of_cons in Hin as [->|Hin]; [congruence|]. eauto.
Qed.

(** What [disposeLabel] does to the document: nothing, or the removal of
    the element that [getLabel] answered. *)
Lemma disposeLabel_removes (i : string) (s : State) :
  exists s1,
    DOM.disposeLabel i s = Return tt s1 /\
    delete i (labels s1) = delete i (labels s) /\
    (dom s1 = dom s \/
     exists p c,
       Doc.removeChild p c (dom s) = Some (dom s1) /\
       (labels s !! i = Some (Some c) \/
        (miss i s /\ getElementById i (dom s) = Some c))).
Proof.
  unfold DOM.disposeLabel, bind.
  destruct (miss_or_hit i s) as [Hm | [[e He] | [Hn Hi]]].
  - rewrite (getLabel_miss _ _ Hm). unfold gets.
    destruct (getElementById i (dom s)) as [e|] eqn:Hg; simpl.
    + destruct (parentNode e (dom s)) as [p|] eqn:Hp.
      * destruct (removeChild_parent _ _ _ Hp) as [d' Hd'].
        unfold removeChild. simpl. rewrite Hd'. eexists. split; [done|]. simpl.
        split; [apply delete_insert_eq|]. right. exists p, e. auto.
      * eexists. split; [done|]. simpl. split; [apply delete_insert_eq | by left].
    + eexists. split; [done|]. simpl. split; [apply delete_insert_eq | by left].
  - rewrite (getLabel_hit _ _ _ He). unfold gets.
    destruct (parentNode e (dom s)) as [p|] eqn:Hp.
    + destruct (removeChild_parent _ _ _ Hp) as [d' Hd'].
      unfold removeChild. rewrite Hd'. eexists. split; [done|]. simpl.
      split; [done|]. right. exists p, e. auto.
    + exists s. split; [done|]. split; [done | by left].
  - rewrite (getLabel_inherited _ _ Hn Hi). exists s.
    split; [done|]. split; [done | by left].
Qed.

(** The loop of [clearLabels] over distinct keys of the cache leaves the
    parent of an element that is within none of the elements it may take
    out. *)
Lemma clearLabels_loop_keeps (force : bool) (e : ref) (l : list string) (s : State) :
  NoDup l ->
  (forall k, k ∈ l -> is_Some (labels s !! k)) ->
  (forall k c, k ∈ l -> swept viz force k = true ->
     labels s !! k = Some (Some c) \/
     (labels s !! k = Some None /\ named k c (dom s) = true) ->
     within c e (dom s) = false) ->
  parentNode e
    (dom (final (each l (fun i =>
       if force || negb (graph_hasNode viz i) then
         DOM.disposeLabel i ;; modify (with_labels (delete i))
       else ret tt) s)))
  = parentNode e (dom s).
Proof.
  revert s. induction l as [|a l IH]; intros s Hnd Hkeys Hout; [done|].
  apply NoDup_cons in Hnd as [Ha Hnd].
  simpl. unfold bind at 1. fold (swept viz force a).
  destruct (swept viz force a) eqn:Hsw.
  - destruct (disposeLabel_removes a s) as (s0 & H0 & Hl0 & Hd0).
    unfold bind at 1. rewrite H0. unfold modify.
    assert (Hlab : forall k, k ∈ l ->
              labels (with_labels (delete a) s0) !! k = labels s !! k).
    { intros k Hk. simpl. assert (k <> a) by (intros ->; done).
      rewrite Hl0. by apply lookup_delete_ne. }
    assert (Hnamed : forall k c, named k c (dom s0) = true -> named k c (dom s) = true).
    { intros k c. destruct Hd0 as [->|(p & c0 & Hrm & _)]; [done|].
      by apply (removeChild_named _ _ _ _ _ _ Hrm). }
    assert (Hwithin : forall c, within c e (dom s) = false -> within c e (dom s0) = false).
    { intros c. destruct Hd0 as [->|(p & c0 & Hrm & _)]; [done|].
      by apply (removeChild_within _ _ _ _ _ _ Hrm). }
    rewrite IH.
    + simpl. destruct Hd0 as [->|(p & c & Hrm & Hc)]; [done|].
      apply (removeChild_parentNode_apart _ _ _ _ _ Hrm).
      apply (Hout a c); [apply elem_of_cons; by left | done |].
      destruct Hc as [Hc|[Hm Hg]]; [by left|]. right.
      split; [|by apply getElementById_named].
      destruct Hm as [[Hm _]|Hm]; [|done].
      destruct (Hkeys a) as [v Hv]; [apply elem_of_cons; by left|]. congruence.
    + exact Hnd.
    + intros k Hk. rewrite (Hlab k Hk). apply Hkeys. apply elem_of_cons. by right.
    + intros k c Hk Hs Hc. change (dom (with_labels (delete a) s0)) with (dom s0) in *.
      apply Hwithin. apply (Hout k c); [apply elem_of_cons; by right | done |].
      rewrite (Hlab k Hk) in Hc. destruct Hc as [Hc|[Hc Hn]]; [by left|].
      right. split; [done | by apply Hnamed].
  - unfold ret at 1. apply IH; [done| |].
    + intros k Hk. apply Hkeys. apply elem_of_cons. by right.
    + intros k c Hk. apply Hout. apply elem_of_cons. by right.
Qed.

(** C3. [clearLabels(force)] returns; it removes exactly the cache
    entries whose id satisfies [force || !graph.hasNode(id)] and keeps the
    others as they were. The element of a removed entry has no parent
    afterwards. An element keeps the parent it had, unless it is one of
    the elements the sweep disposes of, or lies within one: so the label
    of a kept entry stays where it is. Hence the cache is empty after
    [clearLabels(true)], and every id left in it after
    [clearLabels(false)] is a node of the graph. *)
Theorem clearLabels_sweeps (force : bool) (s : State) :
  exists s1,
    DOM.clearLabels viz for_in force s = Return tt s1 /\
    (forall k, labels s1 !! k
               = if force || negb (graph_hasNode viz k) then None else labels s !! k) /\
    (forall k e, labels s !! k = Some (Some e) ->
                 force || negb (graph_hasNode viz k) = true ->
                 parentNode e (dom s1) = None) /\
    (NoDup (for_in (labels s)) ->
     forall e, (forall c, disposable viz force s c -> within c e (dom s) = false) ->
               parentNode e (dom s1) = parentNode e (dom s)) /\
    (force = true -> labels s1 = ∅) /\
    (force = false -> forall k, is_Some (labels s1 !! k) -> graph_hasNode viz k = true).
Proof.
  destruct (clearLabels_loop force (for_in (labels s)) s) as (s1 & H1 & Hl & _ & Hd).
  assert (Hall : forall k, labels s1 !! k
            = if force || negb (graph_hasNode viz k) then None else labels s !! k).
  { intros k. rewrite Hl. fold (swept viz force k).
    destruct (swept viz force k) eqn:Hs.
    - destruct (decide _) as [_|Hn]; [done|].
      destruct (labels s !! k) eqn:E; [|done].
      exfalso. apply Hn. split; [|done]. apply for_in_keys. by rewrite E.
    - rewrite decide_False; [done|]. intros [_ ?]. done. }
  exists s1. split; [exact H1|]. split; [exact Hall|]. split; [|split; [|split]].
  - intros k e He Hs. apply (Hd k e); [|done|done].
    apply for_in_keys. by rewrite He.
  - intros Hnd e Hout.
    pose proof (clearLabels_loop_keeps force e (for_in (labels s)) s Hnd) as Hk.
    rewrite H1 in Hk. apply Hk.
    + intros k Hk'. by apply for_in_keys.
    + intros k c _ Hs Hc. apply Hout. by exists k.
  - intros ->. apply map_eq. intros k. by rewrite Hall, lookup_empty.
  - intros -> k. rewrite Hall. simpl.
    destruct (graph_hasNode viz k); [done|]. simpl. by intros [? ?].
Qed.

End ClearLabels.

Section ClearLabelsSample.

Import Doc Graph.Label.

Lemma keys_enumerates (m : gmap string (option ref)) (k : string) :
  k ∈ Sample.keys m <-> is_Some (m !! k).
Proof. unfold Sample.keys. by rewrite elem_of_elements, elem_of_dom. Qed.

Lemma keys_NoDup (m : gmap string (option ref)) : NoDup (Sample.keys m).
Proof. unfold Sample.keys. apply NoDup_elements. Qed.

Lemma sample_two_labels :
  labels Sample.two_labels
  = <[ "n1"%string := Some 4%nat ]> (<[ "n2"%string := Some 5%nat ]> ∅).
Proof. vm_compute. reflexivity. Qed.

(** The end-to-end scenario: the graph has [n1] and not [n2]; the sweep
    keeps the label of [n1], whose element 4 stays in the container 3,
    and drops the one of [n2], whose element 5 is left without a parent. *)
Lemma clearLabels_sweeps_witness :
  exists s1,
    DOM.clearLabels Sample.viz Sample.keys false Sample.two_labels = Return tt s1 /\
    labels s1 !! "n1"%string = Some (Some 4%nat) /\
    labels s1 !! "n2"%string = None /\
    parentNode 5%nat (dom Sample.two_labels) = Some 3%nat /\
    parentNode 5%nat (dom s1) = None /\
    parentNode 4%nat (dom s1) = Some 3%nat.
Proof.
  destruct (clearLabels_sweeps Sample.viz Sample.keys keys_enumerates false
              Sample.two_labels) as (s1 & H1 & Hl & Hd & Hk & _).
  exists s1. split; [exact H1|].
  split; [rewrite Hl; vm_compute; reflexivity|].
  split; [rewrite Hl; vm_compute; reflexivity|].
  split; [vm_compute; reflexivity|].
  split; [apply (Hd "n2"%string 5%nat); vm_compute; reflexivity|].
  rewrite Hk.
  - vm_compute. reflexivity.
  - apply keys_NoDup.
  - intros c (k & Hs & Hc). rewrite sample_two_labels in Hc.
    destruct (decide (k = "n1"%string)) as [->|Hn1]; [discriminate Hs|].
    rewrite lookup_insert_ne in Hc by done.
    destruct (decide (k = "n2"%string)) as [->|Hn2].
    + rewrite lookup_insert_eq in Hc. destruct Hc as [[= <-]|[Hc _]]; [|discriminate Hc].
      vm_compute. reflexivity.
    + rewrite lookup_insert_ne, lookup_empty in Hc by done.
      destruct Hc as [Hc|[Hc _]]; discriminate Hc.
Defined.

End ClearLabelsSample.

(* ===================================================================== *)
(** ** The steps of a creation *)
(* ===================================================================== *)

Section Creation.

Import Doc Graph.Label.

Lemma getAttribute_html_new (i : string) (d : Dom) :
  getAttribute (fresh d) "id" (html_new (fresh d) i d) = Some i /\
  getAttribute (fresh d) "class" (html_new (fresh d) i d) = Some "node"%string /\
  getStyle (fresh d) "position" (html_new (fresh d) i d) = Some "absolute"%string /\
  parentNode (fresh d) (html_new (fresh d) i d) = None.
Proof.
  unfold html_new, getAttribute, getStyle, Doc.setStyle, Doc.setAttribute.
  rewrite !attrs_of_update, !parentNode_update, createElement_attrs_of,
    createElement_parentNode.
  rewrite !bool_decide_true by done. simpl. done.
Qed.

Lemma appendChild_lookup (p c : ref) (d d' : Dom) :
  Doc.appendChild p c d = Some d' -> is_Some (Doc.lookup c d).
Proof. unfold Doc.appendChild. destruct (Doc.lookup c d); [by eexists | done]. Qed.

(** C8. What both classes do when [getOrCreateLabel] makes a new element
    ([getLabel] found nothing in the cache, the document has no element
    of the id) and returns: the creation hook is invoked once, on an
    element that has id [node.id] and class [node] by then, while the
    cache still holds [null] under the id; the element is in the cache
    and under the container when the call returns. In the SVG class the
    element is a child of the container when the hook is invoked, as the
    steps are listed. In the HTML class it is not: the hook is handed an
    element without a parent, which is put under the container only after
    the hook has returned. *)
Theorem creation_steps (viz : Viz) (n : Node) (s s1 : State) (tag : ref) :
  miss (id n) s -> getElementById (id n) (dom s) = None ->
  (HTML.getOrCreateLabel viz n s = Return (Elem tag) s1 ->
   exists c d0 ls0,
     labelContainer s1 = Some c /\
     calls s1 = calls s ++ [CreateLabel tag n d0 ls0] /\
     getAttribute tag "id" d0 = Some (id n) /\
     getAttribute tag "class" d0 = Some "node"%string /\
     parentNode tag d0 = None /\
     ls0 !! id n = Some None /\
     parentNode tag (dom s1) = Some c /\
     labels s1 !! id n = Some (Some tag)) /\
  (SVG.getOrCreateLabel viz n s = Return (Elem tag) s1 ->
   exists c d0 ls0,
     labelContainer s1 = Some c /\
     calls s1 = calls s ++ [CreateLabel tag n d0 ls0] /\
     getAttribute tag "id" d0 = Some (id n) /\
     getAttribute tag "class" d0 = Some "node"%string /\
     parentNode tag d0 = Some c /\
     ls0 !! id n = Some None /\
     dom s1 = onCreateLabel (controller viz) tag n d0 /\
     labels s1 !! id n = Some (Some tag)).
Proof.
  intros Hm Hg. split; intros H.
  - pose proof (HTML_getOrCreateLabel_cached _ _ _ _ _ H) as Hl.
    apply HTML_getOrCreateLabel_cases in H.
    destruct H as [[H _] | [(_ & H & _) | (_ & _ & -> & c & _ & Ha & _ & Hc & _ & Hcalls)]].
    + by apply miss_no_element in H.
    + congruence.
    + destruct (getAttribute_html_new (id n) (dom s)) as (Hid & Hcl & _ & Hp).
      exists c, (html_new (fresh (dom s)) (id n) (dom s)), (<[id n := None]> (labels s)).
      repeat split; try done; [apply lookup_insert_eq|].
      by apply appendChild_parentNode in Ha.
  - pose proof (SVG_getOrCreateLabel_cached _ _ _ _ _ H) as Hl.
    apply SVG_getOrCreateLabel_cases in H.
    destruct H as [[H _] | [(_ & H & _) |
      (_ & _ & -> & c & d3 & d4 & _ & _ & Ha & Hd & _ & Hc & _ & Hcalls)]].
    + by apply miss_no_element in H.
    + congruence.
    + exists c, d4, (<[id n := None]> (labels s)). repeat split; try done.
      * unfold getAttribute. rewrite (appendChild_attrs_of _ _ _ _ Ha).
        destruct (appendChild_lookup _ _ _ _ Ha) as [sub Hsub].
        unfold Doc.setAttribute in *. rewrite !attrs_of_update.
        rewrite !lookup_update in Hsub. unfold attrs_of.
        destruct (Doc.lookup (fresh (dom s)) d3) as [e|]; [|done]. simpl.
        rewrite bool_decide_true by done. simpl.
        rewrite lookup_insert_ne by done. apply lookup_insert_eq.
      * unfold getAttribute. rewrite (appendChild_attrs_of _ _ _ _ Ha).
        destruct (appendChild_lookup _ _ _ _ Ha) as [sub Hsub].
        unfold Doc.setAttribute in *. rewrite !attrs_of_update.
        rewrite !lookup_update in Hsub. unfold attrs_of.
        destruct (Doc.lookup (fresh (dom s)) d3) as [e|]; [|done]. simpl.
        rewrite bool_decide_true by done. simpl. apply lookup_insert_eq.
      * by apply appendChild_parentNode in Ha.
      * apply lookup_insert_eq.
Qed.

(** On the sample page the container is element 3 and the new element 4:
    the HTML class hands the hook element 4 without a parent, the SVG
    class hands it element 4 under the container. *)
Lemma creation_steps_witness :
  let n := Sample.node "n1" in
  (exists d0 ls0,
     calls (final (HTML.getOrCreateLabel Sample.viz n Sample.start))
       = [CreateLabel 4%nat n d0 ls0] /\
     parentNode 4%nat d0 = None /\
     parentNode 4%nat (dom (final (HTML.getOrCreateLabel Sample.viz n Sample.start)))
       = Some 3%nat) /\
  (exists d0 ls0,
     calls (final (SVG.getOrCreateLabel Sample.viz n Sample.start))
       = [CreateLabel 4%nat n d0 ls0] /\
     parentNode 4%nat d0 = Some 3%nat).
Proof.
  intros n.
  assert (Hm : miss (id n) Sample.start) by (left; split; reflexivity).
  assert (Hg : getElementById (id n) (dom Sample.start) = None) by reflexivity.
  split.
  - destruct (proj1 (creation_steps Sample.viz n Sample.start
                       (final (HTML.getOrCreateLabel Sample.viz n Sample.start))
                       4%nat Hm Hg))
      as (c & d0 & ls0 & Hc & Hcalls & _ & _ & Hp0 & _ & Hp1 & _);
      [vm_compute; reflexivity|].
    exists d0, ls0. split; [exact Hcalls|]. split; [exact Hp0|].
    rewrite Hp1, <- Hc. vm_compute. reflexivity.
  - destruct (proj2 (creation_steps Sample.viz n Sample.start
                       (final (SVG.getOrCreateLabel Sample.viz n Sample.start))
                       4%nat Hm Hg))
      as (c & d0 & ls0 & Hc & Hcalls & _ & _ & Hp0 & _); [vm_compute; reflexivity|].
    exists d0, ls0. split; [exact Hcalls|].
    rewrite Hp0, <- Hc. vm_compute. reflexivity.
Defined.

(** The same creation seen by a hook that looks at [parentNode]: in the
    HTML class the document handed to it has the new element 4 without a
    parent, not under the container 3; in the SVG class the hook sees the
    parent. *)
Lemma HTML_onCreateLabel_before_appendChild :
  let n := Sample.node "n1" in
  (exists s1 d0 ls0,
     HTML.getOrCreateLabel Sample.viz n Sample.start = Return (Elem 4%nat) s1 /\
     labelContainer s1 = Some 3%nat /\
     calls s1 = [CreateLabel 4%nat n d0 ls0] /\
     parentNode 4%nat d0 = None /\
     parentNode 4%nat d0 <> Some 3%nat) /\
  getAttribute 4%nat "data-attached"
    (dom (final (HTML.getOrCreateLabel Sample.viz_probe n Sample.start)))
    = Some "no"%string /\
  getAttribute 4%nat "data-attached"
    (dom (final (SVG.getOrCreateLabel Sample.viz_probe n Sample.start)))
    = Some "yes"%string.
Proof.
  intros n. split; [|split; vm_compute; reflexivity].
  eexists _, _, _. split; [vm_compute; reflexivity|].
  split; [reflexivity|]. split; [reflexivity|].
  split; [vm_compute; reflexivity|]. vm_compute. discriminate.
Qed.

End Creation.

(* ===================================================================== *)
(** ** Lazy fetchers *)
(* ===================================================================== *)

Section Fetchers.

Import Doc Graph.Label.

(** X1. [getLabelContainer] memoizes a container it has found: later
    calls answer it whatever has become of the document ([f]), without
    touching the state. A failed search is not memoized: the next call
    searches the document again. *)
Theorem getLabelContainer_memoizes (viz : Viz) (s : State) (f : Dom -> Dom) :
  exists s1,
    DOM.getLabelContainer viz s = Return (getLabelContainer_value viz s) s1 /\
    (forall c, getLabelContainer_value viz s = Some c ->
       DOM.getLabelContainer viz (with_dom f s1) = Return (Some c) (with_dom f s1)) /\
    (getLabelContainer_value viz s = None ->
       returned (DOM.getLabelContainer viz (with_dom f s1))
       = Some (getElementById (labelContainer_id (config viz)) (f (dom s)))).
Proof.
  exists (with_labelContainer (getLabelContainer_value viz s) s).
  split; [apply getLabelContainer_eq|]. split.
  - intros c Hc. rewrite getLabelContainer_eq. rewrite Hc. reflexivity.
  - intros Hc. rewrite getLabelContainer_eq. rewrite Hc. reflexivity.
Qed.

(** The container found on the sample page (element 3) is still answered
    when the page has lost it; on the page without a container the answer
    is [null] first and element 3 once the page has one. *)
Lemma getLabelContainer_memoizes_witness :
  (exists s1,
     DOM.getLabelContainer Sample.viz Sample.start = Return (Some 3%nat) s1 /\
     DOM.getLabelContainer Sample.viz (with_dom (fun _ => Sample.bare) s1)
     = Return (Some 3%nat) (with_dom (fun _ => Sample.bare) s1)) /\
  (exists s1,
     DOM.getLabelContainer Sample.viz Sample.homeless = Return None s1 /\
     returned (DOM.getLabelContainer Sample.viz (with_dom (fun _ => Sample.page) s1))
     = Some (Some 3%nat)).
Proof.
  split.
  - destruct (getLabelContainer_memoizes Sample.viz Sample.start (fun _ => Sample.bare))
      as (s1 & H1 & Hfound & _).
    exists s1. split; [exact H1|]. apply Hfound. reflexivity.
  - destruct (getLabelContainer_memoizes Sample.viz Sample.homeless
                (fun _ => Sample.page)) as (s1 & H1 & _ & Hnone).
    exists s1. split; [exact H1|]. apply Hnone. reflexivity.
Defined.

(** X2. An element that is in the document under the id of the node,
    when [getLabel] finds nothing in the cache under that id (under which
    the cache object inherits nothing), is adopted as the label: it is
    returned and cached, no element is made, no hook is invoked, and the
    document is left as it is (the element stays where it was). *)
Theorem getOrCreateLabel_adopts (viz : Viz) (n : Node) (s : State) (e : ref) :
  miss (id n) s -> getElementById (id n) (dom s) = Some e ->
  HTML.getOrCreateLabel viz n s = Return (Elem e) (with_labels <[id n := Some e]> s) /\
  SVG.getOrCreateLabel viz n s = Return (Elem e) (with_labels <[id n := Some e]> s).
Proof.
  intros Hm Hg. split.
  - unfold HTML.getOrCreateLabel, bind. by rewrite (getLabel_miss _ _ Hm), Hg.
  - unfold SVG.getOrCreateLabel, bind. by rewrite (getLabel_miss _ _ Hm), Hg.
Qed.

(** Element 4 of the authored page sits in the body (2), not in the
    container (3), and stays there. *)
Lemma getOrCreateLabel_adopts_witness :
  let o := HTML.getOrCreateLabel Sample.viz (Sample.node "n1") Sample.authored in
  returned o = Some (Elem 4%nat) /\
  dom (final o) = dom Sample.authored /\
  calls (final o) = [] /\
  parentNode 4%nat (dom (final o)) = Some 2%nat.
Proof.
  intros o.
  assert (E : o = Return (Elem 4%nat)
                (with_labels <[ "n1"%string := Some 4%nat ]> Sample.authored)).
  { apply (proj1 (getOrCreateLabel_adopts Sample.viz (Sample.node "n1")
                    Sample.authored 4%nat (or_introl (conj eq_refl eq_refl)) eq_refl)). }
  rewrite E. repeat split.
Defined.

End Fetchers.

(* ===================================================================== *)
(** ** Disposal *)
(* ===================================================================== *)

Section Disposal.

Import Doc Graph.Label.

Lemma find_id_occurs (i : string) (e : Element) (r : ref) :
  find_id i e = Some r -> occurs r e = true.
Proof.
  induction e as [x a l IH] using Element_ind'. simpl.
  destruct (has_id i a).
  - intros [= ->]. by rewrite bool_decide_true.
  - intros H. apply first_some_Some in H as (k & Hk & H).
    rewrite Forall_forall in IH. apply orb_true_iff. right.
    apply existsb_exists. exists k. split; [by apply list_elem_of_In | by apply IH].
Qed.

(** What [getElementById] finds occurs in the document. *)
Lemma getElementById_occurs (i : string) (d : Dom) (r : ref) :
  getElementById i d = Some r -> occurs r (document d) = true.
Proof.
  unfold getElementById. destruct (document d) as [x a l]. simpl. intros H.
  apply first_some_Some in H as (k & Hk & H). apply orb_true_iff. right.
  apply existsb_exists. exists k.
  split; [by apply list_elem_of_In | by apply find_id_occurs in H].
Qed.

(** A removed child is out of the document. *)
Lemma removeChild_not_found (p c : ref) (d d' : Dom) (i : string) :
  Doc.removeChild p c d = Some d' -> is_ref c (document d) = false ->
  getElementById i d' <> Some c.
Proof.
  unfold Doc.removeChild. case_bool_decide; [|done].
  destruct (Doc.lookup c d) as [sub|]; [|done]. intros [= <-] Hdoc Hg.
  apply getElementById_occurs in Hg. simpl in Hg.
  by rewrite (occurs_prune _ _ Hdoc) in Hg.
Qed.

(** Disposing the label of a cached element that has no parent does
    nothing. *)
Lemma disposeLabel_detached (i : string) (s : State) (e : ref) :
  labels s !! i = Some (Some e) -> parentNode e (dom s) = None ->
  DOM.disposeLabel i s = Return tt s.
Proof.
  intros He Hp. unfold DOM.disposeLabel, bind. rewrite (getLabel_hit _ _ _ He).
  unfold gets. by rewrite Hp.
Qed.

(** Disposing the label of a cached element changes the document only,
    and leaves the element without a parent. *)
Lemma disposeLabel_cached (i : string) (s : State) (e : ref) :
  labels s !! i = Some (Some e) ->
  exists d',
    DOM.disposeLabel i s = Return tt (with_dom (fun _ => d') s) /\
    parentNode e d' = None /\
    (is_ref e (document (dom s)) = false -> forall j, getElementById j d' <> Some e).
Proof.
  intros He. unfold DOM.disposeLabel, bind. rewrite (getLabel_hit _ _ _ He).
  unfold gets. destruct (parentNode e (dom s)) as [p|] eqn:Hp.
  - destruct (removeChild_parent _ _ _ Hp) as [d' Hd'].
    exists d'. unfold removeChild. rewrite Hd'. split; [done|].
    split; [by eapply removeChild_detaches|].
    intros Hdoc j. by eapply removeChild_not_found.
  - exists (dom s). destruct s as [d ls inh lc lh cs]. simpl in *. split; [done|].
    split; [done|]. intros Hdoc j Hg. apply getElementById_occurs in Hg.
    destruct (document d) as [x a l] eqn:Ed. simpl in Hg.
    unfold is_ref in Hdoc. simpl in Hdoc. rewrite Hdoc in Hg. simpl in Hg.
    apply existsb_exists in Hg as (k & Hk & Hg).
    assert (Hin : parent_in e (document d) = None).
    { unfold parentNode, trees in Hp. simpl in Hp.
      by destruct (parent_in e (document d)). }
    rewrite Ed in Hin. clear Hp Ed.
    assert (Hsome : forall t, occurs e t = true -> is_ref e t = false ->
                              is_Some (parent_in e t)).
    { clear. intros t. induction t as [x a l IH] using Element_ind'.
      unfold is_ref. simpl. intros Ho Hx. rewrite Hx in Ho. simpl in Ho.
      destruct (existsb (is_ref e) l) eqn:E; [by eexists|].
      apply existsb_exists in Ho as (k & Hk & Ho).
      apply (first_some_is_Some _ _ k); [by apply list_elem_of_In|].
      rewrite Forall_forall in IH. apply IH; [by apply list_elem_of_In | done |].
      apply existsb_false_Forall in E. rewrite Forall_forall in E.
      apply E. by apply list_elem_of_In. }
    destruct (Hsome (El x a l)) as [q Hq].
    + simpl. rewrite Hdoc. simpl. apply existsb_exists. eauto.
    + unfold is_ref. simpl. exact Hdoc.
    + congruence.
Qed.

(** X3. [disposeLabel] takes a cached element out of the document and
    leaves its cache entry in place. The element (not being the document
    node) is then found under no id, and the next [getOrCreateLabel] for
    that id hands back this very element, outside the document as it is,
    without invoking a hook. *)
Theorem disposeLabel_keeps_entry (viz : Viz) (n : Node) (s : State) (e : ref) :
  labels s !! id n = Some (Some e) ->
  is_ref e (document (dom s)) = false ->
  exists d',
    let s1 := with_dom (fun _ => d') s in
    DOM.disposeLabel (id n) s = Return tt s1 /\
    parentNode e d' = None /\
    (forall j, getElementById j d' <> Some e) /\
    HTML.getOrCreateLabel viz n s1 = Return (Elem e) s1 /\
    SVG.getOrCreateLabel viz n s1 = Return (Elem e) s1.
Proof.
  intros He Hdoc. destruct (disposeLabel_cached _ _ _ He) as (d' & H1 & Hp & Hg).
  exists d'. simpl. split; [exact H1|]. split; [exact Hp|]. split; [by apply Hg|].
  split; [by apply HTML_getOrCreateLabel_hit | by apply SVG_getOrCreateLabel_hit].
Qed.

(** The label of [n2] (element 5) is disposed of: the element has left
    the container, and [getOrCreateLabel] still answers it. *)
Lemma disposeLabel_keeps_entry_witness :
  exists d',
    let s1 := with_dom (fun _ => d') Sample.two_labels in
    DOM.disposeLabel "n2" Sample.two_labels = Return tt s1 /\
    parentNode 5%nat (dom Sample.two_labels) = Some 3%nat /\
    parentNode 5%nat d' = None /\
    getElementById "n2" d' <> Some 5%nat /\
    HTML.getOrCreateLabel Sample.viz (Sample.node "n2") s1 = Return (Elem 5%nat) s1.
Proof.
  destruct (disposeLabel_keeps_entry Sample.viz (Sample.node "n2") Sample.two_labels
              5%nat) as (d' & H1 & Hp & Hg & Hh & _).
  - vm_compute. reflexivity.
  - vm_compute. reflexivity.
  - exists d'. simpl. split; [exact H1|]. split; [vm_compute; reflexivity|].
    split; [exact Hp|]. split; [apply Hg | exact Hh].
Defined.

(** X4. [disposeLabel] is idempotent: it always returns, and disposing
    the same id again changes nothing, whether the id had a cached
    element, an element in the document only, or no element at all. *)
Theorem disposeLabel_idempotent (i : string) (s : State) :
  exists s1,
    DOM.disposeLabel i s = Return tt s1 /\
    DOM.disposeLabel i s1 = Return tt s1.
Proof.
  destruct (miss_or_hit i s) as [Hm | [[e He] | [Hn Hi]]]; cycle 2.
  { exists s. unfold DOM.disposeLabel, bind.
    by rewrite (getLabel_inherited _ _ Hn Hi). }
  - unfold DOM.disposeLabel at 1. unfold bind. rewrite (getLabel_miss _ _ Hm).
    destruct (getElementById i (dom s)) as [e|] eqn:Hg.
    + set (s0 := with_labels <[i := Some e]> s).
      assert (He : labels s0 !! i = Some (Some e)) by apply lookup_insert_eq.
      destruct (disposeLabel_cached _ _ _ He) as (d' & H1 & Hp & _).
      unfold DOM.disposeLabel, bind in H1. rewrite (getLabel_hit _ _ _ He) in H1.
      exists (with_dom (fun _ => d') s0). split; [exact H1|].
      by apply (disposeLabel_detached i _ e).
    + exists (with_labels <[i := None]> s). split; [done|].
      unfold DOM.disposeLabel, bind.
      rewrite getLabel_miss by (right; apply lookup_insert_eq).
      simpl. rewrite Hg. unfold with_labels. simpl. by rewrite insert_insert_eq.
  - destruct (disposeLabel_cached _ _ _ He) as (d' & H1 & Hp & _).
    exists (with_dom (fun _ => d') s). split; [exact H1|].
    by apply (disposeLabel_detached i _ e).
Qed.

End Disposal.

(* ===================================================================== *)
(** ** Sweeping again *)
(* ===================================================================== *)

Section SweepAgain.

Import Doc Graph.Label.

Variable viz : Viz.
Variable for_in : gmap string (option ref) -> list string.
Hypothesis for_in_keys : forall m k, k ∈ for_in m <-> is_Some (m !! k).

(** A loop over keys none of which is to be swept leaves the state. *)
Lemma clearLabels_loop_idle (force : bool) (l : list string) (s : State) :
  Forall (fun k => swept viz force k = false) l ->
  each l (fun i =>
    if force || negb (graph_hasNode viz i) then
      DOM.disposeLabel i ;; modify (with_labels (delete i))
    else ret tt) s = Return tt s.
Proof.
  induction 1 as [|a l Ha _ IH]; simpl; [done|].
  unfold bind at 1. fold (swept viz force a). rewrite Ha. exact IH.
Qed.

(** X5. A sweep that is not forced, on a cache all of whose ids are nodes
    of the graph, changes nothing: neither the cache nor the document. *)
Theorem clearLabels_nothing_to_sweep (s : State) :
  (forall k, is_Some (labels s !! k) -> graph_hasNode viz k = true) ->
  DOM.clearLabels viz for_in false s = Return tt s.
Proof.
  intros Hall. unfold DOM.clearLabels, bind, gets.
  apply clearLabels_loop_idle. apply Forall_forall. intros k Hk.
  apply for_in_keys in Hk. unfold swept. by rewrite (Hall k Hk).
Qed.

(** X6. [clearLabels] is idempotent: the same sweep run again, straight
    after, finds nothing to do and returns the state it was given. *)
Theorem clearLabels_idempotent (force : bool) (s : State) :
  exists s1,
    DOM.clearLabels viz for_in force s = Return tt s1 /\
    DOM.clearLabels viz for_in force s1 = Return tt s1.
Proof.
  destruct (clearLabels_loop viz force (for_in (labels s)) s) as (s1 & H1 & Hl & _).
  exists s1. split; [exact H1|].
  unfold DOM.clearLabels, bind, gets.
  apply clearLabels_loop_idle. apply Forall_forall. intros k Hk.
  apply for_in_keys in Hk. rewrite Hl in Hk.
  destruct (swept viz force k) eqn:Hs; [|done].
  destruct (decide _) as [_|Hn]; [by destruct Hk|].
  exfalso. apply Hn. split; [|done]. by apply for_in_keys.
Qed.

End SweepAgain.

Section SweepAgainSample.

Import Doc Graph.Label.

Lemma sample_one_label :
  labels (final (HTML.getOrCreateLabel Sample.viz (Sample.node "n1") Sample.start))
  = <[ "n1"%string := Some 4%nat ]> ∅.
Proof. vm_compute. reflexivity. Qed.

(** The label object with the label of [n1] only: nothing to sweep. *)
Lemma clearLabels_nothing_to_sweep_witness :
  let s := final (HTML.getOrCreateLabel Sample.viz (Sample.node "n1") Sample.start) in
  labels s !! "n1"%string = Some (Some 4%nat) /\
  DOM.clearLabels Sample.viz Sample.keys false s = Return tt s.
Proof.
  intros s. split; [vm_compute; reflexivity|].
  apply (clearLabels_nothing_to_sweep Sample.viz Sample.keys keys_enumerates s).
  intros k [v Hk]. destruct (decide (k = "n1"%string)) as [->|Hne]; [reflexivity|].
  exfalso. revert Hk. unfold s.
  rewrite sample_one_label, lookup_insert_ne by done.
  by rewrite lookup_empty.
Defined.

(** Sweeping the labels of [n1] and [n2] twice. *)
Lemma clearLabels_idempotent_witness :
  exists s1,
    DOM.clearLabels Sample.viz Sample.keys false Sample.two_labels = Return tt s1 /\
    DOM.clearLabels Sample.viz Sample.keys false s1 = Return tt s1.
Proof.
  apply (clearLabels_idempotent Sample.viz Sample.keys keys_enumerates false
           Sample.two_labels).
Defined.

End SweepAgainSample.

(* ===================================================================== *)
(** ** Hiding labels *)
(* ===================================================================== *)

Section Hiding.

Import Doc Graph.Label.

Lemma find_id_update_in (i : string) (r : ref) (f : Attrs -> Attrs) (e : Element) :
  (forall a, attributes (f a) = attributes a) ->
  find_id i (update_in r f e) = find_id i e.
Proof.
  intros Hf. induction e as [x a l IH] using Element_ind'. simpl.
  assert (E : has_id i (if bool_decide (x = r) then f a else a) = has_id i a).
  { destruct (bool_decide (x = r)); [unfold has_id; by rewrite Hf | done]. }
  rewrite E. destruct (has_id i a); [done|].
  rewrite first_some_map. by apply first_some_ext.
Qed.

(** A change of style changes no answer of [getElementById]. *)
Lemma getElementById_setStyle (i : string) (e : ref) (k v : string) (d : Dom) :
  getElementById i (Doc.setStyle e k v d) = getElementById i d.
Proof.
  unfold getElementById, Doc.setStyle, update. simpl.
  destruct (document d) as [x a l]. simpl. rewrite first_some_map.
  apply first_some_ext, Forall_forall. intros t _. by apply find_id_update_in.
Qed.

Lemma attrs_of_setStyle_other (e e' : ref) (k v : string) (d : Dom) :
  e <> e' -> attrs_of e (Doc.setStyle e' k v d) = attrs_of e d.
Proof.
  intros Hne. unfold Doc.setStyle. rewrite attrs_of_update.
  rewrite bool_decide_false by done. by destruct (attrs_of e d).
Qed.

(** A style that has the value it is given, on any element, keeps it. *)
Lemma getStyle_setStyle_same (e e' : ref) (k v : string) (d : Dom) :
  getStyle e k d = Some v -> getStyle e k (Doc.setStyle e' k v d) = Some v.
Proof.
  unfold getStyle, Doc.setStyle. rewrite attrs_of_update.
  destruct (attrs_of e d) as [a|]; [|done]. simpl.
  case_bool_decide; [|done]. intros _. simpl. apply lookup_insert_eq.
Qed.

(** X7. Without a container to resolve to, [hideLabels] raises a
    TypeError and does not record the flag: [labelsHidden] keeps the value
    it had, and the document is untouched. *)
Theorem hideLabels_without_container (viz : Viz) (hide : bool) (s : State) :
  getLabelContainer_value viz s = None ->
  exists s1,
    DOM.hideLabels viz hide s = Throw TypeError s1 /\
    labelsHidden s1 = labelsHidden s /\ dom s1 = dom s /\ labels s1 = labels s.
Proof.
  intros Hc. unfold DOM.hideLabels, bind. rewrite getLabelContainer_eq, Hc.
  eexists. split; [reflexivity|]. done.
Qed.

Lemma hideLabels_without_container_witness :
  exists s1,
    DOM.hideLabels Sample.viz true Sample.homeless = Throw TypeError s1 /\
    labelsHidden s1 = false.
Proof.
  destruct (hideLabels_without_container Sample.viz true Sample.homeless eq_refl)
    as (s1 & H1 & Hh & _).
  exists s1. split; [exact H1|]. rewrite Hh. reflexivity.
Defined.

(** X8. [hideLabels] touches the [display] style of the container and
    nothing else in the document: every other element keeps its
    attributes, styles and listeners, the container its other styles, no
    element changes its parent, every id is found as before; and the
    cache is as it was. So what [hideLabel] did to single labels survives
    a [hideLabels]. *)
Theorem hideLabels_only_container (viz : Viz) (hide : bool) (s : State) (c : ref) :
  getLabelContainer_value viz s = Some c ->
  exists s1,
    DOM.hideLabels viz hide s = Return tt s1 /\
    labels s1 = labels s /\
    (forall e, e <> c -> attrs_of e (dom s1) = attrs_of e (dom s)) /\
    (forall k, k <> "display"%string -> getStyle c k (dom s1) = getStyle c k (dom s)) /\
    (forall e, parentNode e (dom s1) = parentNode e (dom s)) /\
    (forall i, getElementById i (dom s1) = getElementById i (dom s)).
Proof.
  intros Hc. eexists. split; [apply (hideLabels_eq viz hide s c Hc)|]. simpl.
  split; [done|]. split; [|split; [|split]].
  - intros e He. by apply attrs_of_setStyle_other.
  - intros k Hk. by apply getStyle_setStyle_ne.
  - intros e. apply parentNode_update.
  - intros i. apply getElementById_setStyle.
Qed.

(** The label of [n2] (element 5) keeps its attributes while the
    container (3) is hidden. *)
Lemma hideLabels_only_container_witness :
  exists s1,
    DOM.hideLabels Sample.viz true Sample.two_labels = Return tt s1 /\
    attrs_of 5%nat (dom s1) = attrs_of 5%nat (dom Sample.two_labels) /\
    getElementById "n2" (dom s1) = Some 5%nat.
Proof.
  destruct (hideLabels_only_container Sample.viz true Sample.two_labels 3%nat)
    as (s1 & H1 & _ & Ha & _ & _ & Hg); [vm_compute; reflexivity|].
  exists s1. split; [exact H1|]. split; [by apply Ha|].
  rewrite Hg. vm_compute. reflexivity.
Defined.

(** What one turn of the loop of [hideLabel] does, for a node under whose
    id the cache object inherits nothing. *)
Lemma hideLabel_step (st : string) (n : Node) (s : State) :
  inherits s (id n) = false ->
  exists s1,
    (var lab := DOM.getLabel (id n);
     match lab with
     | Some l => label_setStyle l "display" st
     | None => ret tt
     end) s = Return tt s1 /\
    calls s1 = calls s /\ labelsHidden s1 = labelsHidden s /\
    labelContainer s1 = labelContainer s /\ inherits s1 = inherits s /\
    (forall i e, labels s !! i = Some (Some e) -> labels s1 !! i = Some (Some e)) /\
    (forall e, parentNode e (dom s1) = parentNode e (dom s)) /\
    (forall i, getElementById i (dom s1) = getElementById i (dom s)) /\
    (forall e, is_Some (Doc.lookup e (dom s)) -> is_Some (Doc.lookup e (dom s1))) /\
    (forall e, getStyle e "display" (dom s) = Some st ->
               getStyle e "display" (dom s1) = Some st) /\
    (forall e, labels s !! id n = Some (Some e) -> is_Some (Doc.lookup e (dom s)) ->
               getStyle e "display" (dom s1) = Some st) /\
    (miss (id n) s -> getElementById (id n) (dom s) = None ->
     dom s1 = dom s /\ forall i, miss i s -> miss i s1).
Proof.
  intros Hinh. unfold bind.
  assert (Hset : forall s0 l, dom s0 = dom s ->
    (forall e, parentNode e (dom (with_dom (Doc.setStyle l "display" st) s0))
               = parentNode e (dom s)) /\
    (forall i, getElementById i (dom (with_dom (Doc.setStyle l "display" st) s0))
               = getElementById i (dom s)) /\
    (forall e, is_Some (Doc.lookup e (dom s)) ->
               is_Some (Doc.lookup e (dom (with_dom (Doc.setStyle l "display" st) s0)))) /\
    (forall e, getStyle e "display" (dom s) = Some st ->
               getStyle e "display" (dom (with_dom (Doc.setStyle l "display" st) s0))
               = Some st) /\
    (is_Some (Doc.lookup l (dom s)) ->
     getStyle l "display" (dom (with_dom (Doc.setStyle l "display" st) s0)) = Some st)).
  { intros s0 l Hd. simpl. rewrite Hd. split; [|split; [|split; [|split]]].
    - intros e. apply parentNode_update.
    - intros i. apply getElementById_setStyle.
    - intros e He. by apply lookup_setStyle_is_Some.
    - intros e He. by apply getStyle_setStyle_same.
    - intros Hl. by apply getStyle_setStyle. }
  destruct (miss_or_hit (id n) s) as [Hm | [[l Hl] | [Hn Hi]]]; [| |congruence].
  - rewrite (getLabel_miss _ _ Hm).
    destruct (getElementById (id n) (dom s)) as [l|] eqn:Hg.
    + destruct (Hset (with_labels <[id n := Some l]> s) l eq_refl)
        as (Hp & Hgi & Hlk & Hst & _).
      eexists. split; [reflexivity|]. repeat split; try done.
      * intros i e Hi. simpl. destruct (decide (i = id n)) as [->|Hne].
        -- by apply miss_no_element in Hi.
        -- by rewrite lookup_insert_ne.
      * intros e He. by apply miss_no_element in He.
    + eexists. split; [reflexivity|]. simpl. repeat split; try done.
      * intros i e Hi. destruct (decide (i = id n)) as [->|Hne].
        -- by apply miss_no_element in Hi.
        -- by rewrite lookup_insert_ne.
      * intros e He. by apply miss_no_element in He.
      * intros i Hi. unfold miss. simpl. destruct (decide (i = id n)) as [->|Hne].
        -- right. apply lookup_insert_eq.
        -- by rewrite lookup_insert_ne.
  - rewrite (getLabel_hit _ _ _ Hl).
    destruct (Hset s l eq_refl) as (Hp & Hgi & Hlk & Hst & Hnew).
    eexists. split; [reflexivity|]. repeat split; try done.
    all: try (intros e He Hsome; assert (e = l) by congruence; subst e; by apply Hnew).
    all: try (intros Hm; by apply miss_no_element in Hl).
    all: match goal with Hm : miss _ _ |- _ => by apply miss_no_element in Hl end.
Qed.

(** [hideLabel] returns for such nodes; it only changes styles. *)
Lemma hideLabel_loop (ns : list Node) (show : bool) (s : State) :
  let st := (if show then "" else "none")%string in
  Forall (fun n => inherits s (id n) = false) ns ->
  exists s1,
    DOM.hideLabel ns show s = Return tt s1 /\
    calls s1 = calls s /\ labelsHidden s1 = labelsHidden s /\
    labelContainer s1 = labelContainer s /\
    (forall i e, labels s !! i = Some (Some e) -> labels s1 !! i = Some (Some e)) /\
    (forall e, parentNode e (dom s1) = parentNode e (dom s)) /\
    (forall i, getElementById i (dom s1) = getElementById i (dom s)) /\
    (forall e, is_Some (Doc.lookup e (dom s)) -> is_Some (Doc.lookup e (dom s1))) /\
    (forall e, getStyle e "display" (dom s) = Some st ->
               getStyle e "display" (dom s1) = Some st) /\
    (forall n e, n ∈ ns -> labels s !! id n = Some (Some e) ->
                 is_Some (Doc.lookup e (dom s)) ->
                 getStyle e "display" (dom s1) = Some st) /\
    (Forall (fun n => miss (id n) s /\ getElementById (id n) (dom s) = None) ns ->
     dom s1 = dom s).
Proof.
  intros st. unfold DOM.hideLabel. fold st. revert s.
  induction ns as [|n ns IH]; intros s Hinh.
  - exists s. split; [done|]. repeat split; try done.
    intros n e Hn. by apply elem_of_nil in Hn.
  - simpl. unfold bind at 1. apply Forall_cons in Hinh as [Hn Hinh].
    destruct (hideLabel_step st n s Hn)
      as (s0 & H0 & Hc0 & Hh0 & Hk0 & Hi0 & Hl0 & Hp0 & Hg0 & Hs0 & Hd0 & Hn0 & Hm0).
    rewrite H0. rewrite <- Hi0 in Hinh.
    destruct (IH s0 Hinh)
      as (s1 & H1 & Hc1 & Hh1 & Hk1 & Hl1 & Hp1 & Hg1 & Hs1 & Hd1 & Hn1 & Hm1).
    exists s1. split; [exact H1|].
    split; [congruence|]. split; [congruence|]. split; [congruence|].
    split; [auto|]. split; [intros e; by rewrite Hp1|].
    split; [intros i; by rewrite Hg1|]. split; [auto|]. split; [auto|]. split.
    + intros m e Hin Hl Hsome. apply elem_of_cons in Hin as [->|Hin]; eauto.
    + intros Hall. apply Forall_cons in Hall as [[Hm Hg] Hall].
      destruct (Hm0 Hm Hg) as [Hd Hmiss]. rewrite <- Hd. apply Hm1.
      eapply Forall_impl; [exact Hall|]. intros m [Hmm Hgm]. simpl in *.
      split; [by apply Hmiss | by rewrite Hd].
Qed.

(** X9. [hideLabel(nodes, show)], for nodes under whose ids the cache
    object inherits nothing, returns and invokes no hook; it moves and
    creates nothing. Every node of the list that has a cached label gets
    it displayed ([show], style [display] empty) or hidden
    ([display: none]); a list of nodes none of which has a label leaves
    the document as it is. For a node whose id names an inherited value,
    and has no entry of its own, the call raises a TypeError instead:
    what [getLabel] answers has no [style]. *)
Theorem hideLabel_sets_display (ns : list Node) (show : bool) (s : State) :
  (Forall (fun n => inherits s (id n) = false) ns ->
   exists s1,
     DOM.hideLabel ns show s = Return tt s1 /\
     calls s1 = calls s /\
     (forall e, parentNode e (dom s1) = parentNode e (dom s)) /\
     (forall n e, n ∈ ns -> labels s !! id n = Some (Some e) ->
                  is_Some (Doc.lookup e (dom s)) ->
                  getStyle e "display" (dom s1) = Some (if show then "" else "none")%string) /\
     (Forall (fun n => miss (id n) s /\ getElementById (id n) (dom s) = None) ns ->
      dom s1 = dom s)) /\
  (forall n ns', ns = n :: ns' ->
     labels s !! id n = None -> inherits s (id n) = true ->
     DOM.hideLabel ns show s = Throw TypeError s).
Proof.
  split.
  - intros Hinh. destruct (hideLabel_loop ns show s Hinh)
      as (s1 & H1 & Hc & _ & _ & _ & Hp & _ & _ & _ & Hn & Hm).
    exists s1. repeat split; assumption.
  - intros n ns' -> Hn Hi. unfold DOM.hideLabel. simpl. unfold bind.
    by rewrite (getLabel_inherited _ _ Hn Hi).
Qed.

(** The labels of [n1] and [n2] are hidden together; hiding the label of
    a node that has none changes nothing; hiding the one of a node called
    [constructor] raises. *)
Lemma hideLabel_sets_display_witness :
  (exists s1,
     DOM.hideLabel [Sample.node "n1"; Sample.node "n2"] false Sample.two_labels
       = Return tt s1 /\
     getStyle 4%nat "display" (dom s1) = Some "none"%string /\
     getStyle 5%nat "display" (dom s1) = Some "none"%string) /\
  (exists s1,
     DOM.hideLabel [Sample.node "ghost"] false Sample.two_labels = Return tt s1 /\
     dom s1 = dom Sample.two_labels) /\
  DOM.hideLabel [Sample.node "constructor"] false Sample.two_labels
  = Throw TypeError Sample.two_labels.
Proof.
  split; [|split].
  - destruct (proj1 (hideLabel_sets_display [Sample.node "n1"; Sample.node "n2"] false
                       Sample.two_labels)) as (s1 & H1 & _ & _ & Hn & _).
    + repeat constructor.
    + exists s1. split; [exact H1|]. split.
      * apply (Hn (Sample.node "n1") 4%nat);
          [apply list_elem_of_In; simpl; auto | vm_compute; reflexivity
          | vm_compute; eexists; reflexivity].
      * apply (Hn (Sample.node "n2") 5%nat);
          [apply list_elem_of_In; simpl; auto | vm_compute; reflexivity
          | vm_compute; eexists; reflexivity].
  - destruct (proj1 (hideLabel_sets_display [Sample.node "ghost"] false
                       Sample.two_labels)) as (s1 & H1 & _ & _ & _ & Hm).
    + repeat constructor.
    + exists s1. split; [exact H1|]. apply Hm. repeat constructor.
  - apply (proj2 (hideLabel_sets_display [Sample.node "constructor"] false
                    Sample.two_labels) (Sample.node "constructor") []);
      vm_compute; reflexivity.
Defined.

End Hiding.

(* ===================================================================== *)
(** ** New elements in the document *)
(* ===================================================================== *)

Section NewElements.

Import Doc.

Lemma map_fixed {A : Type} (f : A -> A) (l : list A) :
  Forall (fun a => f a = a) l -> map f l = l.
Proof. induction 1 as [|a l Ha _ IH]; simpl; [done|]. by rewrite Ha, IH. Qed.

Lemma filter_all {A : Type} (g : A -> bool) (l : list A) :
  Forall (fun a => g a = true) l -> filter (fun a => g a = true) l = l.
Proof.
  induction 1 as [|a l Ha _ IH]; [done|].
  rewrite filter_cons, decide_True by done. by rewrite IH.
Qed.

(** Pruning or grafting at an element a tree does not hold is no change. *)
Lemma prune_absent (c : ref) (e : Element) : occurs c e = false -> prune c e = e.
Proof.
  induction e as [x a l IH] using Element_ind'. simpl.
  rewrite orb_false_iff. intros [_ Hl]. f_equal.
  apply existsb_false_Forall in Hl.
  induction IH as [|k l Hk _ IHl]; [done|].
  apply Forall_cons in Hl as [Hck Hl]. simpl. rewrite (IHl Hl).
  unfold is_not. rewrite (occurs_root _ _ Hck). simpl. by rewrite (Hk Hck).
Qed.

Lemma graft_absent (p : ref) (sub e : Element) :
  occurs p e = false -> graft p sub e = e.
Proof.
  induction e as [x a l IH] using Element_ind'. simpl.
  rewrite orb_false_iff. intros [-> Hl]. f_equal. rewrite app_nil_r.
  apply existsb_false_Forall in Hl. apply map_fixed.
  rewrite Forall_forall in *. auto.
Qed.

Lemma occurs_update_in (c r : ref) (f : Attrs -> Attrs) (e : Element) :
  occurs c (update_in r f e) = occurs c e.
Proof.
  induction e as [x a l IH] using Element_ind'. simpl. f_equal.
  induction IH as [|k l Hk _ IHl]; simpl; [done|]. by rewrite Hk, IHl.
Qed.

Lemma max_forest_app (l1 l2 : list Element) :
  fold_right (fun k m => Nat.max (max_ref k) m) O (l1 ++ l2)
  = Nat.max (fold_right (fun k m => Nat.max (max_ref k) m) O l1)
            (fold_right (fun k m => Nat.max (max_ref k) m) O l2).
Proof. induction l1 as [|k l1 IH]; simpl; [done|]. rewrite IH. lia. Qed.

(** Identities are handed out in increasing order. *)
Lemma fresh_createElement (tag : string) (d : Dom) :
  fresh (createElement tag d).2 = S (fresh d).
Proof.
  unfold fresh, createElement, trees. simpl. rewrite max_forest_app. simpl. lia.
Qed.

(** Every element of the document is older than the next new one. *)
Lemma occurs_below_fresh (c : ref) (d : Dom) (t : Element) :
  t ∈ trees d -> occurs c t = true -> (c < fresh d)%nat.
Proof.
  intros Ht Hc. destruct (decide (c < fresh d)%nat) as [|Hge]; [done|].
  exfalso. apply occurs_max_ref in Hc. unfold fresh in Hge.
  induction (trees d) as [|t' l IH]; [by apply elem_of_nil in Ht|].
  simpl in Hge. apply elem_of_cons in Ht as [->|Ht]; [lia|]. apply IH; [done|lia].
Qed.

Lemma lookup_fresh_absent (d : Dom) (l : list Element) :
  Forall (fun t => t ∈ trees d) l -> first_some (lookup_in (fresh d)) l = None.
Proof.
  intros Hl. apply first_some_None. eapply Forall_impl; [exact Hl|].
  intros t Ht. simpl. by apply lookup_in_absent, occurs_fresh.
Qed.

(** A new element is a node of its own, without children. *)
Lemma lookup_createElement (tag : string) (d : Dom) :
  lookup (fresh d) (createElement tag d).2 = Some (El (fresh d) (empty_attrs tag) []).
Proof.
  unfold lookup, createElement, trees. simpl.
  rewrite (lookup_in_absent _ _ (occurs_fresh d _ (list_elem_of_here _ _))).
  rewrite first_some_app, lookup_fresh_absent.
  - simpl. by rewrite bool_decide_true.
  - apply Forall_forall. intros t Ht. by apply list_elem_of_further.
Qed.

(** The place an appended child is found at afterwards. *)
Lemma appendChild_lookup_after (p c : ref) (d d' : Dom) (sub : Element) :
  lookup c d = Some sub -> appendChild p c d = Some d' ->
  lookup c d' = Some (prune c sub).
Proof.
  unfold appendChild. intros Hs. rewrite Hs.
  destruct (occurs p sub || is_ref c (document d)) eqn:Hcyc; [done|].
  apply orb_false_iff in Hcyc as [_ Hdoc].
  destruct (existsb _ _) eqn:Hp; [|done]. intros [= <-].
  pose proof (appendChild_pruned c d Hdoc) as Hpr.
  unfold lookup, trees. cbn [document detached].
  rewrite <- (map_cons (graft p (prune c sub))), first_some_map.
  rewrite (first_some_ext _ (fun k => if occurs p k then Some (prune c sub) else None)).
  - by rewrite first_some_const, Hp.
  - eapply Forall_impl; [exact Hpr|]. intros k Hk. simpl.
    apply lookup_in_graft; [|done]. rewrite ref_of_prune. by apply lookup_ref in Hs.
Qed.

(** Elements yet to be made occur nowhere. *)
Lemma occurs_above_fresh (c : ref) (d : Dom) (t : Element) :
  t ∈ trees d -> (fresh d <= c)%nat -> occurs c t = false.
Proof.
  intros Ht Hc. destruct (occurs c t) eqn:E; [|done].
  pose proof (occurs_below_fresh c d t Ht E). lia.
Qed.

(** Appending the last of the unattached elements, when no other tree
    holds it: its tree is moved under [p] as it is. *)
Lemma appendChild_last_root (p c : ref) (doc : Element) (l : list Element)
    (sub : Element) :
  ref_of sub = c -> prune c sub = sub -> occurs p sub = false ->
  occurs c doc = false -> Forall (fun t => occurs c t = false) l ->
  existsb (occurs p) (doc :: l) = true ->
  appendChild p c {| document := doc; detached := l ++ [sub] |}
  = Some {| document := graft p sub doc; detached := map (graft p sub) l |}.
Proof.
  intros Hsub Hpr Hps Hdoc Hl Hp. unfold appendChild.
  assert (Hlook : lookup c {| document := doc; detached := l ++ [sub] |} = Some sub).
  { unfold lookup, trees. simpl. rewrite (lookup_in_absent _ _ Hdoc), first_some_app.
    replace (first_some (lookup_in c) l) with (@None Element).
    - destruct sub as [y b m]. simpl in *. by rewrite bool_decide_true.
    - symmetry. apply first_some_None. eapply Forall_impl; [exact Hl|].
      intros t Ht. by apply lookup_in_absent. }
  rewrite Hlook, Hps. cbn [document detached]. rewrite (occurs_root _ _ Hdoc).
  simpl orb. cbv iota.
  assert (Hfil : filter (fun k => is_not c k = true) (l ++ [sub]) = l).
  { rewrite filter_app, filter_all.
    - rewrite filter_cons, filter_nil, decide_False, app_nil_r; [done|].
      unfold is_not, is_ref. by rewrite Hsub, bool_decide_true.
    - eapply Forall_impl; [exact Hl|]. intros t Ht. simpl.
      unfold is_not. by rewrite (occurs_root _ _ Ht). }
  rewrite Hfil, (prune_absent _ _ Hdoc), Hpr.
  rewrite (map_fixed (prune c) l)
    by (eapply Forall_impl; [exact Hl|]; intros t Ht; by apply prune_absent).
  by rewrite Hp.
Qed.

(** [appendChild] succeeds when [p] lies in a tree that does not hold the
    child, and not inside the child. *)
Lemma appendChild_succeeds (p c : ref) (d : Dom) (sub t : Element) :
  lookup c d = Some sub -> occurs p sub = false ->
  is_ref c (document d) = false ->
  t ∈ trees d -> occurs p t = true -> occurs c t = false ->
  is_Some (appendChild p c d).
Proof.
  intros Hs Hps Hdoc Ht Hpt Hct. unfold appendChild. rewrite Hs, Hps, Hdoc. simpl orb.
  cbv iota.
  assert (E : existsb (occurs p)
                (prune c (document d)
                 :: map (prune c) (filter (fun k => is_not c k = true) (detached d)))
              = true).
  { apply existsb_exists. exists t. split; [|done].
    unfold trees in Ht. apply elem_of_cons in Ht as [->|Ht].
    - left. by rewrite prune_absent.
    - right. apply in_map_iff. exists t. split; [by apply prune_absent|].
      apply list_elem_of_In, list_elem_of_filter. split; [|done].
      unfold is_not. by rewrite (occurs_root _ _ Hct). }
  rewrite E. by eexists.
Qed.

Lemma trees_update (r : ref) (f : Attrs -> Attrs) (d : Dom) (t : Element) :
  t ∈ trees d -> update_in r f t ∈ trees (update r f d).
Proof.
  unfold trees, update. simpl. intros Ht.
  apply elem_of_cons in Ht as [->|Ht]; [by left|].
  right. apply list_elem_of_fmap. by exists t.
Qed.

(** The last of the unattached elements, when new, is found as it is. *)
Lemma lookup_last_root (d : Dom) (a : Attrs) (l : list Element) :
  lookup (fresh d)
    {| document := document d; detached := detached d ++ [El (fresh d) a l] |}
  = Some (El (fresh d) a l).
Proof.
  unfold lookup, trees. simpl.
  rewrite (lookup_in_absent _ _ (occurs_fresh d _ (list_elem_of_here _ _))).
  rewrite first_some_app, lookup_fresh_absent.
  - simpl. by rewrite bool_decide_true.
  - apply Forall_forall. intros t Ht. by apply list_elem_of_further.
Qed.

Lemma trees_add_root (d : Dom) (sub t : Element) :
  t ∈ trees d ->
  t ∈ trees {| document := document d; detached := detached d ++ [sub] |}.
Proof.
  unfold trees. simpl. intros Ht.
  apply elem_of_cons in Ht as [->|Ht]; [by left|].
  right. apply elem_of_app. by left.
Qed.

Lemma trees_createElement (tag : string) (d : Dom) (t : Element) :
  t ∈ trees d -> t ∈ trees (createElement tag d).2.
Proof.
  unfold trees, createElement. simpl. intros Ht.
  apply elem_of_cons in Ht as [->|Ht]; [by left|].
  right. apply elem_of_app. by left.
Qed.

End NewElements.

(* ===================================================================== *)
(** ** Creating a label *)
(* ===================================================================== *)

Section Creating.

Import Doc Graph.Label.

(** The text element of the SVG class and its tspan are the next two new
    elements; the tspan becomes the only child of the text element, and
    nothing else in the document changes. *)
Lemma svg_new_eq (d : Dom) :
  svg_new d
  = Some {| document := document d;
            detached := detached d
              ++ [El (fresh d) (empty_attrs "svg:text")
                    [El (S (fresh d)) (empty_attrs "svg:tspan") []]] |}.
Proof.
  unfold svg_new.
  change (createElement "svg:text" d)
    with (fresh d, (createElement "svg:text" d).2). cbv beta iota.
  change (createElement "svg:tspan" (createElement "svg:text" d).2)
    with (fresh (createElement "svg:text" d).2,
          (createElement "svg:tspan" (createElement "svg:text" d).2).2).
  cbv beta iota. rewrite fresh_createElement.
  pose proof (fresh_createElement "svg:text" d) as E.
  unfold createElement in *. cbn [fst snd document detached] in *. rewrite E.
  assert (Hold : forall t, t ∈ trees d -> occurs (S (fresh d)) t = false).
  { intros t Ht. apply (occurs_above_fresh _ d t Ht). lia. }
  assert (Htag : forall t, t ∈ trees d -> occurs (fresh d) t = false).
  { intros t Ht. by apply occurs_fresh. }
  rewrite (appendChild_last_root (fresh d) (S (fresh d)) (document d)
             (detached d ++ [El (fresh d) (empty_attrs "svg:text") []])
             (El (S (fresh d)) (empty_attrs "svg:tspan") [])).
  - f_equal. f_equal.
    + apply graft_absent, Htag, list_elem_of_here.
    + rewrite map_app. f_equal.
      * apply map_fixed, Forall_forall. intros t Ht.
        apply graft_absent, Htag. by apply list_elem_of_further.
      * simpl. by rewrite bool_decide_true.
  - done.
  - done.
  - simpl. rewrite bool_decide_false by lia. done.
  - apply Hold, list_elem_of_here.
  - apply Forall_app. split.
    + apply Forall_forall. intros t Ht. apply Hold. by apply list_elem_of_further.
    + repeat constructor. simpl. rewrite bool_decide_false by lia. done.
  - simpl. rewrite existsb_app. simpl. rewrite bool_decide_true by done.
    by rewrite !orb_true_r.
Qed.

(** X10. In the SVG class the hook runs last, on the finished element:
    when [getLabel] finds nothing in the cache under the id (under which
    the cache object inherits nothing), the document has no element of
    the id, and the container resolves to an element of the document, the
    call returns the next new element, whatever a hook that returns does
    to the document; the hook is handed a document in which that element
    has a single child, the new [svg:tspan], and the document it leaves
    is the one of the state. *)
Theorem SVG_getOrCreateLabel_creates (viz : Viz) (n : Node) (s : State) (c : ref)
    (t : Element) :
  miss (id n) s -> getElementById (id n) (dom s) = None ->
  getLabelContainer_value viz s = Some c ->
  t ∈ trees (dom s) -> occurs c t = true ->
  let tag := fresh (dom s) in
  exists s1 d0,
    SVG.getOrCreateLabel viz n s = Return (Elem tag) s1 /\
    calls s1 = calls s ++ [CreateLabel tag n d0 (<[id n := None]> (labels s))] /\
    dom s1 = onCreateLabel (controller viz) tag n d0 /\
    kids <$> Doc.lookup tag d0 = Some [El (S tag) (empty_attrs "svg:tspan") []].
Proof.
  intros Hm Hg Hc Ht Hoc tag.
  assert (Hlt : (c < tag)%nat) by (by apply (occurs_below_fresh c (dom s) t)).
  unfold SVG.getOrCreateLabel. unfold bind at 1. rewrite (getLabel_miss _ _ Hm), Hg.
  unfold bind at 1. unfold document_getElementById, gets. simpl. rewrite Hg.
  unfold bind at 1. unfold document_createElement. simpl.
  unfold bind at 1. simpl.
  unfold bind at 1. unfold appendChild at 1. simpl.
  pose proof (svg_new_eq (dom s)) as H3. unfold svg_new in H3. simpl in H3.
  rewrite H3. clear H3.
  unfold bind at 1. rewrite getLabelContainer_eq.
  match goal with
  | |- context [getLabelContainer_value viz ?X] =>
      change (getLabelContainer_value viz X) with (getLabelContainer_value viz s)
  end.
  rewrite Hc.
  unfold bind, setAttribute, modify, call_onCreateLabel, appendChild, ret. simpl.
  fold tag.
  set (text := El tag (empty_attrs "svg:text") [El (S tag) (empty_attrs "svg:tspan") []]).
  set (d3 := {| document := document (dom s); detached := detached (dom s) ++ [text] |}).
  set (up := fun e => update_in tag (set_attr "class" "node")
                        (update_in tag (set_attr "id" (id n)) e)).
  assert (Hlook : Doc.lookup tag
            (Doc.setAttribute tag "class" "node" (Doc.setAttribute tag "id" (id n) d3))
            = Some (up text)).
  { unfold Doc.setAttribute. rewrite !lookup_update. unfold d3, text, tag.
    by rewrite lookup_last_root. }
  destruct (appendChild_succeeds c tag
              (Doc.setAttribute tag "class" "node" (Doc.setAttribute tag "id" (id n) d3))
              (up text) (up t)) as [d4 H4].
  - exact Hlook.
  - unfold up. rewrite !occurs_update_in. simpl.
    rewrite !bool_decide_false by lia. done.
  - unfold Doc.setAttribute, update. simpl. unfold is_ref.
    rewrite !ref_of_update_in. apply (occurs_root tag).
    apply occurs_fresh, list_elem_of_here.
  - unfold Doc.setAttribute. do 2 apply trees_update. by apply trees_add_root.
  - unfold up. by rewrite !occurs_update_in.
  - unfold up. rewrite !occurs_update_in. by apply occurs_fresh.
  - rewrite H4. eexists _, d4. split; [reflexivity|]. split; [reflexivity|].
    split; [reflexivity|].
    rewrite (appendChild_lookup_after _ _ _ _ _ Hlook H4).
    unfold up, text. simpl. unfold is_not, is_ref. simpl.
    rewrite !bool_decide_false by lia. simpl. done.
Qed.

(** On the sample page, with a hook that looks at the parent. *)
Lemma SVG_getOrCreateLabel_creates_witness :
  exists s1 d0,
    SVG.getOrCreateLabel Sample.viz_probe (Sample.node "n1") Sample.start
      = Return (Elem 4%nat) s1 /\
    calls s1 = [CreateLabel 4%nat (Sample.node "n1") d0 (<[ "n1"%string := None ]> ∅)] /\
    kids <$> Doc.lookup 4%nat d0 = Some [El 5%nat (empty_attrs "svg:tspan") []].
Proof.
  destruct (SVG_getOrCreateLabel_creates Sample.viz_probe (Sample.node "n1")
              Sample.start 3%nat (document Sample.page))
    as (s1 & d0 & H1 & Hc & _ & Hk).
  - left. split; reflexivity.
  - reflexivity.
  - reflexivity.
  - apply list_elem_of_here.
  - reflexivity.
  - exists s1, d0. split; [exact H1|]. split; [exact Hc|]. exact Hk.
Defined.

(** X11. In the HTML class the hook runs before the element is put under
    the container. With a hook that only changes the attributes, style or
    listeners of the element it is handed, the creation returns the next
    new element, attached under the container and cached, whenever
    [getLabel] finds nothing in the cache under the id (under which the
    cache object inherits nothing), the document has no element of the id
    and the container resolves to an element of the document. *)
Theorem HTML_getOrCreateLabel_creates (viz : Viz) (n : Node) (s : State) (c : ref)
    (t : Element) :
  miss (id n) s -> getElementById (id n) (dom s) = None ->
  getLabelContainer_value viz s = Some c ->
  t ∈ trees (dom s) -> occurs c t = true ->
  (forall d, exists f, onCreateLabel (config viz) (fresh (dom s)) n d
                       = Doc.update (fresh (dom s)) f d) ->
  let tag := fresh (dom s) in
  exists s1,
    HTML.getOrCreateLabel viz n s = Return (Elem tag) s1 /\
    parentNode tag (dom s1) = Some c /\
    labels s1 !! id n = Some (Some tag) /\
    created (id n) s1 = S (created (id n) s).
Proof.
  intros Hm Hg Hc Ht Hoc Hhook tag.
  assert (Hlt : (c < tag)%nat) by (by apply (occurs_below_fresh c (dom s) t)).
  unfold HTML.getOrCreateLabel. unfold bind at 1. rewrite (getLabel_miss _ _ Hm), Hg.
  unfold bind at 1. unfold document_getElementById, gets. simpl. rewrite Hg.
  unfold bind at 1. unfold document_createElement. simpl.
  unfold bind at 1. rewrite getLabelContainer_eq.
  match goal with
  | |- context [getLabelContainer_value viz ?X] =>
      change (getLabelContainer_value viz X) with (getLabelContainer_value viz s)
  end.
  rewrite Hc.
  unfold bind, setAttribute, setStyle, modify, call_onCreateLabel, appendChild, ret.
  simpl. fold tag.
  change (Doc.setStyle tag "position" "absolute"
            (Doc.setAttribute tag "class" "node"
               (Doc.setAttribute tag "id" (id n)
                  {| document := document (dom s);
                     detached := detached (dom s) ++ [El tag (empty_attrs "div") []] |})))
    with (html_new tag (id n) (dom s)).
  destruct (Hhook (html_new tag (id n) (dom s))) as [f Hf]. fold tag in Hf.
  rewrite Hf.
  set (up := fun e => update_in tag f
                        (update_in tag (set_style_attr "position" "absolute")
                           (update_in tag (set_attr "class" "node")
                              (update_in tag (set_attr "id" (id n)) e)))).
  destruct (appendChild_succeeds c tag (Doc.update tag f (html_new tag (id n) (dom s)))
              (up (El tag (empty_attrs "div") [])) (up t)) as [d4 H4].
  - unfold html_new, Doc.setStyle, Doc.setAttribute. rewrite !lookup_update.
    unfold tag. by rewrite lookup_createElement.
  - unfold up. rewrite !occurs_update_in. simpl.
    rewrite bool_decide_false by lia. done.
  - unfold html_new, Doc.setStyle, Doc.setAttribute, update. simpl. unfold is_ref.
    rewrite !ref_of_update_in. apply (occurs_root tag).
    apply occurs_fresh, list_elem_of_here.
  - unfold html_new, Doc.setStyle, Doc.setAttribute. do 4 apply trees_update.
    by apply trees_createElement.
  - unfold up. by rewrite !occurs_update_in.
  - unfold up. rewrite !occurs_update_in. by apply occurs_fresh.
  - rewrite H4. eexists. split; [reflexivity|]. simpl.
    split; [by apply appendChild_parentNode in H4|].
    split; [apply lookup_insert_eq|].
    unfold created. simpl. rewrite filter_app, length_app.
    rewrite filter_cons, filter_nil. simpl. rewrite bool_decide_true by done.
    simpl. lia.
Qed.

Lemma HTML_getOrCreateLabel_creates_witness :
  exists s1,
    HTML.getOrCreateLabel Sample.viz_titled (Sample.node "n1") Sample.start
      = Return (Elem 4%nat) s1 /\
    parentNode 4%nat (dom s1) = Some 3%nat /\
    labels s1 !! "n1"%string = Some (Some 4%nat) /\
    created "n1" s1 = 1%nat.
Proof.
  apply (HTML_getOrCreateLabel_creates Sample.viz_titled (Sample.node "n1")
           Sample.start 3%nat (document Sample.page)).
  - left. split; reflexivity.
  - reflexivity.
  - reflexivity.
  - apply list_elem_of_here.
  - reflexivity.
  - intros d. eexists. reflexivity.
Defined.

(** X12. Without a container to resolve to, a creation ([getLabel] finds
    nothing in the cache under the id, under which the cache object
    inherits nothing, and the document has no element of the id) raises a
    TypeError in both classes and caches no element (the entry of the id
    is [null]), so that every further attempt starts afresh. The HTML
    class has invoked the creation hook by then; the SVG class has not. *)
Theorem getOrCreateLabel_without_container (viz : Viz) (n : Node) (s : State) :
  miss (id n) s -> getElementById (id n) (dom s) = None ->
  getLabelContainer_value viz s = None ->
  (exists s1,
     HTML.getOrCreateLabel viz n s = Throw TypeError s1 /\
     created (id n) s1 = S (created (id n) s) /\
     labels s1 !! id n = Some None) /\
  (exists s1,
     SVG.getOrCreateLabel viz n s = Throw TypeError s1 /\
     calls s1 = calls s /\
     labels s1 !! id n = Some None).
Proof.
  intros Hm Hg Hc. split.
  - unfold HTML.getOrCreateLabel. unfold bind at 1. rewrite (getLabel_miss _ _ Hm), Hg.
    unfold bind at 1. unfold document_getElementById, gets. simpl. rewrite Hg.
    unfold bind at 1. unfold document_createElement. simpl.
    unfold bind at 1. rewrite getLabelContainer_eq.
    match goal with
    | |- context [getLabelContainer_value viz ?X] =>
        change (getLabelContainer_value viz X) with (getLabelContainer_value viz s)
    end.
    rewrite Hc.
    unfold bind, setAttribute, setStyle, modify, call_onCreateLabel, appendChild, ret.
    simpl. eexists. split; [reflexivity|]. simpl. split; [|apply lookup_insert_eq].
    unfold created. simpl. rewrite filter_app, length_app.
    rewrite filter_cons, filter_nil. simpl. rewrite bool_decide_true by done.
    simpl. lia.
  - unfold SVG.getOrCreateLabel. unfold bind at 1. rewrite (getLabel_miss _ _ Hm), Hg.
    unfold bind at 1. unfold document_getElementById, gets. simpl. rewrite Hg.
    unfold bind at 1. unfold document_createElement. simpl.
    unfold bind at 1. simpl.
    unfold bind at 1. unfold appendChild at 1. simpl.
    pose proof (svg_new_eq (dom s)) as H3. unfold svg_new in H3. simpl in H3.
    rewrite H3. clear H3.
    unfold bind at 1. rewrite getLabelContainer_eq.
    match goal with
    | |- context [getLabelContainer_value viz ?X] =>
        change (getLabelContainer_value viz X) with (getLabelContainer_value viz s)
    end.
    rewrite Hc.
    unfold bind, setAttribute, modify, call_onCreateLabel, appendChild, ret. simpl.
    eexists. split; [reflexivity|]. simpl. split; [done | apply lookup_insert_eq].
Qed.

(** The page without a container, with the hook that gives a title. *)
Lemma getOrCreateLabel_without_container_witness :
  let n := Sample.node "n1" in
  (exists s1,
     HTML.getOrCreateLabel Sample.viz_titled n Sample.homeless = Throw TypeError s1 /\
     created "n1" s1 = 1%nat /\ labels s1 !! "n1"%string = Some None) /\
  (exists s1,
     SVG.getOrCreateLabel Sample.viz_titled n Sample.homeless = Throw TypeError s1 /\
     calls s1 = [] /\ labels s1 !! "n1"%string = Some None).
Proof.
  intros n.
  apply (getOrCreateLabel_without_container Sample.viz_titled n Sample.homeless).
  - left. split; reflexivity.
  - reflexivity.
  - reflexivity.
Defined.

End Creating.

(* ===================================================================== *)
(** ** Fading a label *)
(* ===================================================================== *)

Section Fading.

Import Doc Graph.Label.

Variable viz : Viz.
Variable host : JS.Host.

Lemma getStyle_addEventListener (e e' : ref) (ev : string) (h : Listener) (k : string)
    (d : Dom) :
  getStyle e k (Doc.addEventListener e' ev h d) = getStyle e k d.
Proof.
  unfold getStyle, Doc.addEventListener. rewrite attrs_of_update.
  destruct (attrs_of e d) as [a|]; [|done]. simpl. by case_bool_decide.
Qed.

Lemma lookup_addEventListener_is_Some (e e' : ref) (ev : string) (h : Listener)
    (d : Dom) :
  is_Some (Doc.lookup e d) -> is_Some (Doc.lookup e (Doc.addEventListener e' ev h d)).
Proof.
  intros [sub H]. unfold Doc.addEventListener. rewrite lookup_update, H. by eexists.
Qed.

Lemma getListeners_setStyle (e e' : ref) (k v : string) (d : Dom) :
  getListeners e (Doc.setStyle e' k v d) = getListeners e d.
Proof.
  unfold getListeners, Doc.setStyle. rewrite attrs_of_update.
  destruct (attrs_of e d) as [a|]; [|done]. simpl. by case_bool_decide.
Qed.

Lemma getListeners_addEventListener (e : ref) (ev : string) (h : Listener) (d : Dom) :
  getListeners e (Doc.addEventListener e ev h d)
  = (fun l => l ++ [(ev, h)]) <$> getListeners e d.
Proof.
  unfold getListeners, Doc.addEventListener. rewrite attrs_of_update.
  destruct (attrs_of e d) as [a|]; [|done]. simpl. by rewrite bool_decide_true.
Qed.

Ltac read_fade H :=
  rewrite ?getStyle_addEventListener;
  repeat (rewrite getStyle_setStyle_ne by discriminate);
  first
    [ reflexivity
    | apply getStyle_setStyle;
      repeat apply lookup_setStyle_is_Some;
      exact H ].

(** X13. The opacity branch comes first: when the current opacity of the
    node, [node.getData('alpha')], differs from the one at the end, the
    label is made visible, gets the end opacity and, for each vendor
    prefix, the transition property
    [opacity] with the duration of [opt] and the delay [200ms]; its
    [top], [left], [width] and [height] are left as they were, even when
    position or size differ too. The listeners for the end of the
    transition are registered, one for each prefix, exactly when the
    label fades from opacity 1 to opacity 0. *)
Theorem prepareForAnimation_fade (n : Node) (modes : list string) (opt : Options)
    (s s1 : State) (label : ref) :
  Label_useCSS3 (config viz) = true ->
  HTML.getOrCreateLabel viz n s = Return (Elem label) s1 ->
  is_Some (Doc.lookup label (dom s1)) ->
  JS.neqb (getData_alpha n) (getData_alpha_end n) = true ->
  exists d0,
    HTML.prepareForAnimation viz host n modes opt s
    = Return tt (with_dom (onBeforeAnimateLabel opt (Elem label) n)
                   (with_call (BeforeAnimateLabel (Elem label) n d0)
                      (with_dom (fun _ => d0) s1))) /\
    getStyle label "visibility" d0 = Some "visible"%string /\
    getStyle label "opacity" d0 = Some (JS.to_string host (getData_alpha_end n)) /\
    Forall (fun p =>
      getStyle label (p ++ "transition-property") d0 = Some "opacity"%string /\
      getStyle label (p ++ "transition-duration") d0
        = Some (JS.to_string host (duration opt) ++ "ms")%string /\
      getStyle label (p ++ "transition-delay") d0 = Some "200ms"%string)
      HTML.prefixesStyles /\
    Forall (fun k => getStyle label k d0 = getStyle label k (dom s1))
      ["top"; "left"; "width"; "height"]%string /\
    getListeners label d0
    = (fun l => l ++
         (if JS.eqb (getData_alpha_end n) (JS.of_Z 0)
             && JS.eqb (getData_alpha n) (JS.of_Z 1)
          then [("webkitTransitionEnd", wte label); ("mozTransitionEnd", wte label);
                ("oTransitionEnd", wte label); ("TransitionEnd", wte label)]%string
          else []))
      <$> getListeners label (dom s1).
Proof.
  intros Hcss Hg Hl Ha.
  unfold HTML.prepareForAnimation. rewrite Hcss. simpl.
  unfold bind at 1. rewrite Hg.
  unfold HTML.prepareForAnimation_style. cbv zeta. rewrite Ha.
  destruct s1 as [d ls inh lc lh cs]. simpl in Hl.
  destruct (JS.eqb (getData_alpha_end n) (JS.of_Z 0)
            && JS.eqb (getData_alpha n) (JS.of_Z 1)).
  - eexists. split; [reflexivity|]. simpl.
    split; [read_fade Hl|]. split; [read_fade Hl|].
    split; [repeat constructor; simpl; read_fade Hl|].
    split; [repeat constructor; simpl; read_fade Hl|].
    rewrite !getListeners_addEventListener, !getListeners_setStyle.
    destruct (getListeners label d) as [l|]; [|done]. simpl.
    by rewrite <- !app_assoc.
  - eexists. split; [reflexivity|]. simpl.
    split; [read_fade Hl|]. split; [read_fade Hl|].
    split; [repeat constructor; simpl; read_fade Hl|].
    split; [repeat constructor; simpl; read_fade Hl|].
    rewrite !getListeners_setStyle.
    destruct (getListeners label d) as [l|]; [|done]. simpl.
    by rewrite app_nil_r.
Qed.

End Fading.

Section FadingSample.

Import Doc Graph.Label.

(** The fading node moves as well: its label gets the opacity 0 and the
    four listeners, and no [top]. *)
Lemma prepareForAnimation_fade_witness :
  let n := Sample.fading "n1" in
  exists d0 s2,
    HTML.prepareForAnimation Sample.viz Sample.host n [] Sample.opt Sample.start
      = Return tt s2 /\
    getStyle 4%nat "opacity" d0 = Some "0"%string /\
    getStyle 4%nat "transition-property" d0 = Some "opacity"%string /\
    getStyle 4%nat "top" d0 = None /\
    getListeners 4%nat d0
    = Some [("webkitTransitionEnd", wte 4%nat); ("mozTransitionEnd", wte 4%nat);
            ("oTransitionEnd", wte 4%nat); ("TransitionEnd", wte 4%nat)]%string.
Proof.
  intros n.
  set (s1 := final (HTML.getOrCreateLabel Sample.viz n Sample.start)).
  destruct (prepareForAnimation_fade Sample.viz Sample.host n [] Sample.opt
              Sample.start s1 4%nat)
    as (d0 & Hrun & _ & Hop & Htr & Hpos & Hls).
  - reflexivity.
  - vm_compute. reflexivity.
  - vm_compute. eexists. reflexivity.
  - reflexivity.
  - exists d0. eexists. split; [exact Hrun|].
    rewrite Forall_forall in Htr, Hpos.
    destruct (Htr ""%string) as (Hp & _ & _); [apply list_elem_of_In; simpl; auto|].
    split; [rewrite Hop; vm_compute; reflexivity|].
    split; [exact Hp|].
    split; [rewrite (Hpos "top"%string) by (apply list_elem_of_In; simpl; auto);
            vm_compute; reflexivity|].
    rewrite Hls. vm_compute. reflexivity.
Defined.

End FadingSample.

(* ===================================================================== *)
(** ** Preparing the same animation again *)
(* ===================================================================== *)

Section PrepareAgain.

Import Doc Graph.Label.

Variable viz : Viz.
Variable host : JS.Host.

Lemma update_in_compose (r : ref) (f g : Attrs -> Attrs) (e : Element) :
  update_in r f (update_in r g e) = update_in r (fun a => f (g a)) e.
Proof.
  induction e as [x a l IH] using Element_ind'. simpl. f_equal.
  - by case_bool_decide.
  - rewrite map_map. by apply map_ext_Forall.
Qed.

Lemma update_compose (r : ref) (f g : Attrs -> Attrs) (d : Dom) :
  update r f (update r g d) = update r (fun a => f (g a)) d.
Proof.
  unfold update. simpl. f_equal; [apply update_in_compose|].
  rewrite map_map. apply map_ext. intros. apply update_in_compose.
Qed.

Lemma update_in_ext (r : ref) (f g : Attrs -> Attrs) (e : Element) :
  (forall a, f a = g a) -> update_in r f e = update_in r g e.
Proof.
  intros Hfg. induction e as [x a l IH] using Element_ind'. simpl. f_equal.
  - by rewrite Hfg.
  - by apply map_ext_Forall.
Qed.

Lemma update_ext (r : ref) (f g : Attrs -> Attrs) (d : Dom) :
  (forall a, f a = g a) -> update r f d = update r g d.
Proof.
  intros Hfg. unfold update. f_equal; [by apply update_in_ext|].
  apply map_ext. intros. by apply update_in_ext.
Qed.

Lemma style_set_style_attr (k v : string) (a : Attrs) :
  style (set_style_attr k v a) = <[k := v]> (style a).
Proof. reflexivity. Qed.

(** Setting a style to the value it has changes nothing. *)
Lemma set_style_attr_id (k v : string) (a : Attrs) :
  style a !! k = Some v -> set_style_attr k v a = a.
Proof.
  intros H. destruct a as [t at_ st ls]. unfold set_style_attr. simpl in *.
  f_equal. by apply insert_id.
Qed.

(** The position/size branch, as one update of the label. *)
Lemma prepareForAnimation_style_move (n : Node) (opt : Options) (label : ref)
    (s : State) :
  JS.eqb (getData_alpha n) (getData_alpha_end n) = true ->
  JS.neqb (x (getPos_end n)) (x (getPos_start n))
  || JS.neqb (y (getPos_end n)) (y (getPos_start n))
  || JS.neqb (getData_width_start n) (getData_width_end n)
  || JS.neqb (getData_height_start n) (getData_height_end n) = true ->
  exists F,
    (forall a, F (F a) = F a) /\
    forall s', HTML.prepareForAnimation_style viz host n opt (Elem label) s'
               = Return tt (with_dom (update label F) s').
Proof.
  intros Ha Hmove. unfold HTML.prepareForAnimation_style. cbv zeta.
  unfold JS.neqb at 1. rewrite Ha. simpl negb. cbv iota. rewrite Hmove.
  eexists. split; cycle 1.
  - intros s'. destruct s' as [d ls inh lc lh cs].
    unfold bind, label_setStyle, setStyle, modify, with_dom. simpl. unfold Doc.setStyle.
    rewrite !update_compose. reflexivity.
  - intros a. cbv beta.
    match goal with |- _ = ?R => set (b := R) end.
    repeat (rewrite (set_style_attr_id _ _ b)
              by (unfold b; rewrite !style_set_style_attr;
                  repeat (rewrite lookup_insert_ne by discriminate);
                  apply lookup_insert_eq)).
    reflexivity.
Qed.

(** X14. Preparing the same move again changes nothing: with the label
    in the cache, equal opacities, a position or size that differs, and a
    hook that leaves the document as it is, a second
    [prepareForAnimation] for the node returns with the document and the
    cache the first one left. *)
Theorem prepareForAnimation_move_again (n : Node) (modes : list string)
    (opt : Options) (s : State) (label : ref) :
  Label_useCSS3 (config viz) = true ->
  labels s !! id n = Some (Some label) ->
  JS.eqb (getData_alpha n) (getData_alpha_end n) = true ->
  JS.neqb (x (getPos_end n)) (x (getPos_start n))
  || JS.neqb (y (getPos_end n)) (y (getPos_start n))
  || JS.neqb (getData_width_start n) (getData_width_end n)
  || JS.neqb (getData_height_start n) (getData_height_end n) = true ->
  (forall d, onBeforeAnimateLabel opt (Elem label) n d = d) ->
  exists s1 s2,
    HTML.prepareForAnimation viz host n modes opt s = Return tt s1 /\
    HTML.prepareForAnimation viz host n modes opt s1 = Return tt s2 /\
    dom s2 = dom s1 /\ labels s2 = labels s1 /\ animated s2 = S (animated s1).
Proof.
  intros Hcss Hl Ha Hmove Hhook.
  destruct (prepareForAnimation_style_move n opt label s Ha Hmove) as (F & HF & Hstyle).
  unfold HTML.prepareForAnimation. rewrite Hcss. simpl.
  unfold bind at 1. rewrite (HTML_getOrCreateLabel_hit _ _ _ _ Hl).
  unfold bind at 1. rewrite Hstyle. unfold call_onBeforeAnimateLabel.
  eexists. eexists. split; [reflexivity|].
  unfold bind at 1. rewrite (HTML_getOrCreateLabel_hit _ _ _ label) by exact Hl.
  unfold bind at 1. rewrite Hstyle.
  split; [reflexivity|]. simpl. rewrite !Hhook.
  split; [|split; [done|]].
  - rewrite update_compose. by apply update_ext.
  - unfold animated. simpl. rewrite filter_app, length_app. simpl. lia.
Qed.

End PrepareAgain.

Section PrepareAgainSample.

Import Doc Graph.Label.

(** The sample node is prepared twice, its label being in the cache. *)
Lemma prepareForAnimation_move_again_witness :
  let n := Sample.node "n1" in
  let s := final (HTML.getOrCreateLabel Sample.viz n Sample.start) in
  exists s1 s2,
    HTML.prepareForAnimation Sample.viz Sample.host n [] Sample.opt s = Return tt s1 /\
    HTML.prepareForAnimation Sample.viz Sample.host n [] Sample.opt s1 = Return tt s2 /\
    dom s2 = dom s1 /\ getStyle 4%nat "left" (dom s1) = Some "60px"%string.
Proof.
  intros n s.
  destruct (prepareForAnimation_move_again Sample.viz Sample.host n [] Sample.opt
              s 4%nat) as (s1 & s2 & H1 & H2 & Hd & _).
  - reflexivity.
  - vm_compute. reflexivity.
  - reflexivity.
  - reflexivity.
  - intros d. reflexivity.
  - exists s1, s2. split; [exact H1|]. split; [exact H2|]. split; [exact Hd|].
    assert (E : Return tt s1
                = HTML.prepareForAnimation Sample.viz Sample.host n [] Sample.opt s)
      by (symmetry; exact H1).
    assert (E1 : s1 = final (HTML.prepareForAnimation Sample.viz Sample.host n []
                               Sample.opt s)) by (by rewrite <- E).
    rewrite E1. vm_compute. reflexivity.
Defined.

End PrepareAgainSample.

(* ===================================================================== *)
(** ** Other labels *)
(* ===================================================================== *)

Section OtherLabels.

Import Doc Graph.Label.

Variable viz : Viz.

Lemma HTML_getOrCreateLabel_frame (n : Node) (s : State) (j : string) :
  j <> id n ->
  labels (final (HTML.getOrCreateLabel viz n s)) !! j = labels s !! j.
Proof.
  intros Hj. unfold HTML.getOrCreateLabel.
  destruct (miss_or_hit (id n) s) as [Hm | [[e He] | [Hn Hi]]]; cycle 2.
  { unfold bind at 1. by rewrite (getLabel_inherited _ _ Hn Hi). }
  - unfold bind at 1. rewrite (getLabel_miss _ _ Hm).
    destruct (getElementById (id n) (dom s)) as [e|] eqn:Hg.
    + simpl. by rewrite lookup_insert_ne.
    + simpl. unfold bind at 1. unfold document_getElementById, gets. simpl. rewrite Hg.
      unfold bind at 1. unfold document_createElement. simpl.
      unfold bind at 1. rewrite getLabelContainer_eq.
      unfold bind, setAttribute, setStyle, modify, call_onCreateLabel, appendChild, ret.
      simpl.
      destruct (getLabelContainer_value viz _) as [c|]; simpl;
        [|by rewrite lookup_insert_ne].
      destruct (Doc.appendChild c _ _); simpl; by rewrite ?lookup_insert_ne.
  - unfold bind at 1. by rewrite (getLabel_hit _ _ _ He).
Qed.

Lemma SVG_getOrCreateLabel_frame (n : Node) (s : State) (j : string) :
  j <> id n ->
  labels (final (SVG.getOrCreateLabel viz n s)) !! j = labels s !! j.
Proof.
  intros Hj. unfold SVG.getOrCreateLabel.
  destruct (miss_or_hit (id n) s) as [Hm | [[e He] | [Hn Hi]]]; cycle 2.
  { unfold bind at 1. by rewrite (getLabel_inherited _ _ Hn Hi). }
  - unfold bind at 1. rewrite (getLabel_miss _ _ Hm).
    destruct (getElementById (id n) (dom s)) as [e|] eqn:Hg.
    + simpl. by rewrite lookup_insert_ne.
    + simpl. unfold bind at 1. unfold document_getElementById, gets. simpl. rewrite Hg.
      unfold bind at 1. unfold document_createElement. simpl.
      unfold bind at 1. simpl.
      unfold bind at 1. unfold appendChild at 1. simpl.
      destruct (Doc.appendChild (fresh (dom s)) _ _) as [d3|];
        [|simpl; by rewrite lookup_insert_ne].
      unfold bind at 1. rewrite getLabelContainer_eq.
      unfold bind, setAttribute, modify, call_onCreateLabel, appendChild, ret. simpl.
      destruct (getLabelContainer_value viz _) as [c|]; simpl;
        [|by rewrite lookup_insert_ne].
      destruct (Doc.appendChild c _ _); simpl; by rewrite ?lookup_insert_ne.
  - unfold bind at 1. by rewrite (getLabel_hit _ _ _ He).
Qed.

(** X15. [getOrCreateLabel] touches the cache entry of its own id and no
    other, whether it returns or raises and whatever the hook does: the
    labels of other ids are never evicted or replaced by it, in the HTML
    and in the SVG class. *)
Theorem getOrCreateLabel_keeps_other_labels (n : Node) (s : State) (j : string) :
  j <> id n ->
  labels (final (HTML.getOrCreateLabel viz n s)) !! j = labels s !! j /\
  labels (final (SVG.getOrCreateLabel viz n s)) !! j = labels s !! j.
Proof.
  intros Hj. split;
    [by apply HTML_getOrCreateLabel_frame | by apply SVG_getOrCreateLabel_frame].
Qed.

End OtherLabels.

Section OtherLabelsSample.

Import Doc Graph.Label.

(** The label of [n1] stays in the cache when the label of [n3] is made,
    and when making it fails for want of a container. *)
Lemma getOrCreateLabel_keeps_other_labels_witness :
  let s := Sample.two_labels in
  labels (final (HTML.getOrCreateLabel Sample.viz (Sample.node "n3") s)) !! "n1"%string
    = Some (Some 4%nat) /\
  labels (final (SVG.getOrCreateLabel Sample.viz
                   (Sample.node "n3") (with_dom (fun _ => Sample.bare)
                                         (with_labelContainer None s)))) !! "n1"%string
    = Some (Some 4%nat).
Proof.
  intros s. split.
  - etrans; [apply (proj1 (getOrCreateLabel_keeps_other_labels Sample.viz
                             (Sample.node "n3") s "n1"%string ltac:(discriminate)))|].
    vm_compute. reflexivity.
  - etrans; [apply (proj2 (getOrCreateLabel_keeps_other_labels Sample.viz
                             (Sample.node "n3") _ "n1"%string ltac:(discriminate)))|].
    vm_compute. reflexivity.
Defined.

End OtherLabelsSample.

(* ===================================================================== *)
(** ** Disposing what is not a label *)
(* ===================================================================== *)

Section Foreign.

Import Doc Graph.Label.

(** X16. [disposeLabel] looks the id up as [getLabel] does, in the cache
    and then in the document. So for an id under which [getLabel] finds
    nothing in the cache (and the cache object inherits nothing) it takes
    the element of that id, whatever it is, out of the document, and
    caches it: the element is then found under no id. *)
Theorem disposeLabel_removes_element_of_id (i : string) (s : State) (e : ref) :
  miss i s -> getElementById i (dom s) = Some e ->
  is_ref e (document (dom s)) = false ->
  exists s1,
    DOM.disposeLabel i s = Return tt s1 /\
    labels s1 !! i = Some (Some e) /\
    parentNode e (dom s1) = None /\
    (forall j, getElementById j (dom s1) <> Some e).
Proof.
  intros Hm Hg Hdoc.
  set (s0 := with_labels <[i := Some e]> s).
  assert (He : labels s0 !! i = Some (Some e)) by apply lookup_insert_eq.
  destruct (disposeLabel_cached _ _ _ He) as (d' & H1 & Hp & Hnot).
  exists (with_dom (fun _ => d') s0). split; [|split; [exact He|split; [exact Hp|]]].
  - unfold DOM.disposeLabel, bind in *. rewrite (getLabel_miss _ _ Hm), Hg.
    by rewrite (getLabel_hit _ _ _ He) in H1.
  - by apply Hnot.
Qed.

(** Asked to dispose of the label [infovis-label], the label object
    takes its own container (element 3) out of the page. *)
Lemma disposeLabel_removes_element_of_id_witness :
  exists s1,
    DOM.disposeLabel "infovis-label" Sample.start = Return tt s1 /\
    parentNode 3%nat (dom Sample.start) = Some 2%nat /\
    parentNode 3%nat (dom s1) = None /\
    getElementById "infovis-label" (dom s1) <> Some 3%nat.
Proof.
  destruct (disposeLabel_removes_element_of_id "infovis-label" Sample.start 3%nat)
    as (s1 & H1 & _ & Hp & Hg).
  - left. split; reflexivity.
  - reflexivity.
  - reflexivity.
  - exists s1. split; [exact H1|]. split; [reflexivity|]. split; [exact Hp | apply Hg].
Defined.

End Foreign.

(* ===================================================================== *)
(** ** Ids that name an inherited property *)
(* ===================================================================== *)

Section InheritedNames.

Import Doc Graph.Label.

Variable viz : Viz.
Variable host : JS.Host.

(** X17. [id in this.labels] also holds of the names the cache object
    inherits. For a node whose id is such a name (and has no entry of its
    own), [getLabel] and [getOrCreateLabel] answer the inherited value:
    no element is looked for in the document or made, no creation hook is
    invoked, and the state is left as it is. [plotLabel] hands that value
    to [placeLabel]. [prepareForAnimation] raises a TypeError as soon as
    it has a style to set, and otherwise hands the value to
    [onBeforeAnimateLabel]. *)
Theorem inherited_name_is_answered (n : Node) (modes : list string) (opt : Options)
    (placeLabel : Value -> Node -> Config -> Dom -> Dom) (cv : Canvas) (ctl : Config)
    (s : State) :
  labels s !! id n = None -> inherits s (id n) = true ->
  let v := Inherited (id n) in
  DOM.getLabel (id n) s = Return (Some v) s /\
  HTML.getOrCreateLabel viz n s = Return v s /\
  SVG.getOrCreateLabel viz n s = Return v s /\
  HTML.plotLabel viz placeLabel cv n ctl s = Return tt (with_dom (placeLabel v n ctl) s) /\
  SVG.plotLabel viz placeLabel cv n ctl s = Return tt (with_dom (placeLabel v n ctl) s) /\
  (Label_useCSS3 (config viz) = true ->
   HTML.prepareForAnimation viz host n modes opt s
   = if JS.neqb (getData_alpha n) (getData_alpha_end n)
        || JS.neqb (x (getPos_end n)) (x (getPos_start n))
        || JS.neqb (y (getPos_end n)) (y (getPos_start n))
        || JS.neqb (getData_width_start n) (getData_width_end n)
        || JS.neqb (getData_height_start n) (getData_height_end n)
     then Throw TypeError s
     else Return tt (with_dom (onBeforeAnimateLabel opt v n)
                       (with_call (BeforeAnimateLabel v n (dom s)) s))).
Proof.
  intros Hn Hi v.
  pose proof (HTML_getOrCreateLabel_inherited viz n s Hn Hi) as Hh.
  pose proof (SVG_getOrCreateLabel_inherited viz n s Hn Hi) as Hv.
  split; [by apply getLabel_inherited|]. split; [exact Hh|]. split; [exact Hv|].
  split; [|split].
  - unfold HTML.plotLabel, DOM.plotLabel, bind. by rewrite Hh.
  - unfold SVG.plotLabel, DOM.plotLabel, bind. by rewrite Hv.
  - intros Hcss. unfold HTML.prepareForAnimation. rewrite Hcss. simpl.
    unfold bind at 1. rewrite Hh.
    unfold HTML.prepareForAnimation_style. cbv zeta.
    destruct (JS.neqb (getData_alpha n) (getData_alpha_end n)); [reflexivity|].
    simpl orb.
    destruct (JS.neqb _ _ || JS.neqb _ _ || JS.neqb _ _ || JS.neqb _ _);
      [reflexivity|].
    destruct s; reflexivity.
Qed.

End InheritedNames.

Section InheritedNamesSample.

Import Doc Graph.Label.

(** A node called [toString] on the sample page: nothing is created for
    it, and preparing its move raises. *)
Lemma inherited_name_is_answered_witness :
  let n := Sample.node "toString" in
  HTML.getOrCreateLabel Sample.viz n Sample.start
    = Return (Inherited "toString") Sample.start /\
  created "toString" (final (HTML.plotLabel Sample.viz Sample.stay Sample.canvas100x50
                               n Sample.cfg Sample.start)) = 0%nat /\
  HTML.prepareForAnimation Sample.viz Sample.host n [] Sample.opt Sample.start
    = Throw TypeError Sample.start.
Proof.
  intros n.
  destruct (inherited_name_is_answered Sample.viz Sample.host n [] Sample.opt Sample.stay
              Sample.canvas100x50 Sample.cfg Sample.start eq_refl eq_refl)
    as (_ & Hh & _ & Hp & _ & Ha).
  split; [exact Hh|]. split; [by rewrite Hp|]. by rewrite Ha.
Defined.

End InheritedNamesSample.
